(** * Record-format engine of tde-base: Intel HEX, S-Record and TI-txt

    Shallow embedding of [library/py/tde/recfmt.py] (segments, the three
    line parsers, the fast Intel HEX parser, the syntax checks, the three
    text builders and the binary builder), of the merge driver
    [host/bin/mergehex.py] and of the converter [host/bin/srec2ti.py],
    followed by the properties established about them.

    Conventions of the embedding:
    - Python integers are [Z]; [bytes] objects are [list byte]; [str]
      objects are [string], one character per code point below 256.
    - A call that may raise returns a [result]; an exception keeps its
      class and the message text of the source with the [%]-arguments
      left uninterpolated.
    - Writes to [sys.stdout]/[sys.stderr] (progress display, warnings)
      are not part of the model. *)

From Stdlib Require Import ZArith List String Ascii Bool Lia.
From Stdlib Require Import Strings.Byte.
From Stdlib Require Import Sorting.Sorted Sorting.Permutation.
Import ListNotations.
Local Open Scope Z_scope.

(* ===================================================================== *)
(** ** Exceptions and the error monad *)
(* ===================================================================== *)

Inductive exc_class : Type :=
| ValueError | TypeError | RuntimeError | NameError | UnboundLocalError
| IndexError | NotImplementedError | binascii_Error | struct_error
| RecordError | SRecError | IHexError | TItxtError.

Record exn : Type := Exn { exn_class : exc_class; exn_msg : string }.

(** [isinstance(ex, RecordError)]: the class itself and its three
    subclasses declared at the top of the module. *)
Definition is_RecordError (c : exc_class) : bool :=
  match c with
  | RecordError | SRecError | IHexError | TItxtError => true
  | _ => false
  end.

Inductive result (A : Type) : Type :=
| Ok (a : A)
| Raise (e : exn).
Arguments Ok {A} a.
Arguments Raise {A} e.

Definition bind {A B : Type} (c : result A) (k : A -> result B) : result B :=
  match c with
  | Ok a => k a
  | Raise e => Raise e
  end.

Declare Scope py_scope.
Delimit Scope py_scope with py.
Notation "x <- c ;; k" := (bind c (fun x => k))
  (at level 61, c at next level, right associativity) : py_scope.
Notation "' pat <- c ;; k" := (bind c (fun x => match x with pat => k end))
  (at level 61, pat pattern, c at next level, right associativity) : py_scope.
Notation "c ;;; k" := (bind c (fun _ => k))
  (at level 61, right associativity) : py_scope.
Local Open Scope py_scope.

Definition raise {A : Type} (c : exc_class) (msg : string) : result A :=
  Raise (Exn c msg).

Definition is_ok {A : Type} (r : result A) : bool :=
  match r with Ok _ => true | Raise _ => false end.

Definition raises {A : Type} (r : result A) (c : exc_class) : Prop :=
  exists msg, r = Raise (Exn c msg).

(* ===================================================================== *)
(** ** Python primitives used by the module *)
(* ===================================================================== *)

Module Py.

(** Sequence slicing [l[lo:hi]] with Python's clamping of negative and
    out-of-range bounds. *)
Definition clamp (len i : Z) : Z :=
  if i <? 0 then Z.max 0 (i + len) else Z.min i len.

Definition slice {A : Type} (l : list A) (lo hi : option Z) : list A :=
  let n := Z.of_nat (List.length l) in
  let a := match lo with None => 0 | Some i => clamp n i end in
  let b := match hi with None => n | Some j => clamp n j end in
  firstn (Z.to_nat (b - a)) (skipn (Z.to_nat a) l).

Definition str_slice (s : string) (lo hi : option Z) : string :=
  string_of_list_ascii (slice (list_ascii_of_string s) lo hi).

Definition len {A : Type} (l : list A) : Z := Z.of_nat (List.length l).
Definition str_len (s : string) : Z := Z.of_nat (String.length s).

Definition code (c : ascii) : Z := Z.of_N (N_of_ascii c).
Definition chr (z : Z) : ascii := ascii_of_N (Z.to_N z).

(** [str.isspace] on code points below 256. *)
Definition isspace (c : ascii) : bool :=
  let n := code c in
  ((9 <=? n) && (n <=? 13)) || ((28 <=? n) && (n <=? 32))
  || (n =? 133) || (n =? 160).

Fixpoint lstrip (l : list ascii) : list ascii :=
  match l with
  | c :: r => if isspace c then lstrip r else l
  | [] => []
  end.

Definition strip (s : string) : string :=
  string_of_list_ascii
    (rev (lstrip (rev (lstrip (list_ascii_of_string s))))).

Definition digit_val (c : ascii) : option Z :=
  let n := code c in
  if (48 <=? n) && (n <=? 57) then Some (n - 48)
  else if (97 <=? n) && (n <=? 122) then Some (n - 87)
  else if (65 <=? n) && (n <=? 90) then Some (n - 55)
  else None.

(** Digits of an integer literal: single underscores are allowed between
    digits, nowhere else. *)
Fixpoint int_digits (base acc : Z) (after_digit : bool) (l : list ascii)
  : option Z :=
  match l with
  | [] => if after_digit then Some acc else None
  | c :: r =>
      if code c =? 95 then
        if after_digit then int_digits base acc false r else None
      else
        match digit_val c with
        | Some d =>
            if d <? base then int_digits base (acc * base + d) true r
            else None
        | None => None
        end
  end.

(** [int(s, base)] for base 10 and 16: surrounding whitespace, an
    optional sign, for base 16 an optional [0x]/[0X] prefix (which may be
    followed by one underscore), then the digits. *)
Definition int (s : string) (base : Z) : result Z :=
  let l := list_ascii_of_string (strip s) in
  let '(neg, l) :=
    match l with
    | c :: r => if code c =? 45 then (true, r)
                else if code c =? 43 then (false, r) else (false, l)
    | [] => (false, l)
    end in
  let l :=
    match l with
    | z :: x :: r =>
        if (base =? 16) && (code z =? 48)
           && ((code x =? 120) || (code x =? 88))
        then match r with
             | u :: r' => if code u =? 95 then r' else r
             | [] => r
             end
        else l
    | _ => l
    end in
  match int_digits base 0 false l with
  | Some v => Ok (if neg then - v else v)
  | None => raise ValueError "invalid literal for int()"
  end.

Definition byte_val (b : byte) : Z := Z.of_N (Byte.to_N b).

Definition byte_of (z : Z) : byte :=
  match Byte.of_N (Z.to_N z) with
  | Some b => b
  | None => x00
  end.

(** [sum] over the integers of a bytes object. *)
Definition sum_bytes (l : list byte) : Z :=
  fold_left (fun acc b => acc + byte_val b) l 0.

Definition is_hexdigit (c : ascii) : bool :=
  match digit_val c with
  | Some d => d <? 16
  | None => false
  end.

Fixpoint unhex_pairs (l : list ascii) : option (list byte) :=
  match l with
  | [] => Some []
  | h :: lo :: r =>
      match digit_val h, digit_val lo, unhex_pairs r with
      | Some a, Some b, Some t =>
          if (a <? 16) && (b <? 16) then Some (byte_of (16 * a + b) :: t)
          else None
      | _, _, _ => None
      end
  | _ => None
  end.

(** [binascii.unhexlify] applied to a [str]. *)
Definition unhexlify (s : string) : result (list byte) :=
  let l := list_ascii_of_string s in
  if existsb (fun c => 128 <=? code c) l then
    raise ValueError "string argument should contain only ASCII characters"
  else if Z.odd (len l) then raise binascii_Error "Odd-length string"
  else match unhex_pairs l with
       | Some b => Ok b
       | None => raise binascii_Error "Non-hexadecimal digit found"
       end.

Definition hexdigit (upper : bool) (d : Z) : ascii :=
  if d <? 10 then chr (48 + d) else chr ((if upper then 55 else 87) + d).

(** [binascii.hexlify]: a bytes object holding lower-case hexadecimal. *)
Definition hexlify (l : list byte) : list byte :=
  flat_map (fun b =>
              [byte_of_ascii (hexdigit false (byte_val b / 16));
               byte_of_ascii (hexdigit false (byte_val b mod 16))]) l.

(** [bytes.decode()] of ASCII content. *)
Definition decode (l : list byte) : string := string_of_list_byte l.

Fixpoint hex_digits (fuel : nat) (upper : bool) (n : Z) (acc : list ascii)
  : list ascii :=
  match fuel with
  | O => acc
  | S f =>
      let acc' := hexdigit upper (n mod 16) :: acc in
      if n / 16 =? 0 then acc' else hex_digits f upper (n / 16) acc'
  end.

(** ['%0Wx' % n] and ['%0WX' % n]: zero padded to [width] characters,
    the sign counting as one of them, never truncated. *)
Definition fmt_hex (width : nat) (upper : bool) (n : Z) : string :=
  let m := Z.abs n in
  let ds := hex_digits (S (Z.to_nat (Z.log2 m))) upper m [] in
  let w := if n <? 0 then Nat.pred width else width in
  let pad := repeat "0"%char (w - List.length ds) in
  string_of_list_ascii ((if n <? 0 then ["-"%char] else []) ++ pad ++ ds).

(** [str.upper] on ASCII text. *)
Definition upper_char (c : ascii) : ascii :=
  let n := code c in
  if (97 <=? n) && (n <=? 122) then chr (n - 32) else c.

Definition upper (s : string) : string :=
  string_of_list_ascii (map upper_char (list_ascii_of_string s)).

Definition LF : string := String (chr 10) EmptyString.

(** Pieces of a text between line feeds (the line feeds removed). *)
Fixpoint split_lf (l cur : list ascii) : list (list ascii) :=
  match l with
  | [] => [rev cur]
  | c :: r =>
      if code c =? 10 then rev cur :: split_lf r []
      else split_lf r (c :: cur)
  end.

(** Iteration over a text stream: one item per line, terminator
    included, no item for an empty remainder. *)
Fixpoint readlines (l cur : list ascii) : list string :=
  match l with
  | [] => match cur with
          | [] => []
          | _ => [string_of_list_ascii (rev cur)]
          end
  | c :: r =>
      if code c =? 10 then
        string_of_list_ascii (rev (c :: cur)) :: readlines r []
      else readlines r (c :: cur)
  end.

(** [struct.pack('>H', n)] and [struct.pack('>I', n)]. *)
Definition pack_H (n : Z) : result (list byte) :=
  if (0 <=? n) && (n <=? 65535) then
    Ok [byte_of (n / 256); byte_of (n mod 256)]
  else raise struct_error "'H' format requires 0 <= number <= 65535".

Definition pack_I (n : Z) : result (list byte) :=
  if (0 <=? n) && (n <=? 4294967295) then
    Ok [byte_of (n / 16777216); byte_of (n / 65536 mod 256);
        byte_of (n / 256 mod 256); byte_of (n mod 256)]
  else raise struct_error "'I' format requires 0 <= number <= 4294967295".

(** [l[i]] on a bytes object, negative indices counting from the end. *)
Definition getitem (l : list byte) (i : Z) : result Z :=
  let j := if i <? 0 then i + len l else i in
  if (j <? 0) || (len l <=? j) then raise IndexError "index out of range"
  else Ok (byte_val (nth (Z.to_nat j) l x00)).

(** [range(0, stop, step)] for a positive step. *)
Definition range0 (stop step : Z) : list Z :=
  map (fun i => step * Z.of_nat i)
      (seq 0 (Z.to_nat ((stop + step - 1) / step))).

(** [str + bytes]: the operands have different types.  The interpreter
    writes the type name between double quotes; the message is kept here
    with single quotes. *)
Definition str_add_bytes (s : string) (b : list byte) : result string :=
  raise TypeError "can only concatenate str (not 'bytes') to str".

(** [ord(b)] where [b] is an item obtained by iterating over a bytes
    object, that is an [int]. *)
Definition ord_of_int (b : Z) : result Z :=
  raise TypeError "ord() expected string of length 1, but int found".

Fixpoint mapM {A B : Type} (f : A -> result B) (l : list A)
  : result (list B) :=
  match l with
  | [] => Ok []
  | a :: r => b <- f a ;; t <- mapM f r ;; Ok (b :: t)
  end.

Definition sum (l : list Z) : Z := fold_left Z.add l 0.

(** [s.count(c)] for a one-character [c]. *)
Definition count (c : Z) (l : list ascii) : Z :=
  len (filter (fun x => code x =? c) l).

(** [sep.join(l)]. *)
Fixpoint join (sep : string) (l : list string) : string :=
  match l with
  | [] => EmptyString
  | [a] => a
  | a :: r => (a ++ sep ++ join sep r)%string
  end.

End Py.

(** A generator: the items it yields, in order, ended by exhaustion or by
    the exception that escapes from it. *)
Inductive gen (A : Type) : Type :=
| GStop
| GYield (a : A) (rest : gen A)
| GThrow (e : exn).
Arguments GStop {A}.
Arguments GYield {A} a rest.
Arguments GThrow {A} e.

(** A readable text stream: its content and the read position it has
    when it is handed to a parser.  A parse reads from that position on;
    how far it advanced the stream is not tracked. *)
Record stream : Type := Stream { stream_text : string; stream_pos : nat }.

Definition stream_rest (s : stream) : list ascii :=
  skipn (stream_pos s) (list_ascii_of_string (stream_text s)).

Definition StringIO (text : string) : stream := Stream text 0.

(* ===================================================================== *)
(** ** [io.BytesIO] *)
(* ===================================================================== *)

Module BytesIO.

Record t : Type := Make { buf : list byte; pos : Z }.

Definition new : t := Make [] 0.

Definition getvalue (b : t) : list byte := buf b.

(** [seek(offset, SEEK_SET)] refuses a negative offset. *)
Definition seek (b : t) (offset : Z) : result t :=
  if offset <? 0 then raise ValueError "negative seek value"
  else Ok (Make (buf b) offset).

(** [write(data)] at the current position: nothing happens for empty
    data; otherwise a position past the end is reached by zero filling,
    the data replaces what it covers and extends the buffer beyond. *)
Definition write (b : t) (data : list byte) : t :=
  match data with
  | [] => b
  | _ =>
      let p := Z.to_nat (pos b) in
      let n := List.length (buf b) in
      let head := firstn p (buf b) ++ repeat x00 (p - n) in
      Make (head ++ data ++ skipn (p + List.length data) (buf b))
           (pos b + Py.len data)
  end.

End BytesIO.

(* ===================================================================== *)
(** ** [RecordSegment] *)
(* ===================================================================== *)

Module RecordSegment.

Record t : Type := Make {
  _baseaddr : Z;
  _size : Z;
  _buffer : BytesIO.t
}.

Definition new (baseaddr : Z) : t := Make baseaddr 0 BytesIO.new.

Definition size (s : t) : Z := _size s.
Definition baseaddr (s : t) : Z := _baseaddr s.
Definition absaddr (s : t) : Z := _baseaddr s + _size s.
Definition reladdr (s : t) : Z := _size s.
Definition data (s : t) : list byte := BytesIO.getvalue (_buffer s).

Definition write_with_size (s : t) (data : list byte) (size : Z)
  (offset : option Z) : result t :=
  '(buffer, size) <-
    match offset with
    | Some off =>
        if negb (off - _baseaddr s =? _size s) then
          let off := off - _baseaddr s in
          buffer <- BytesIO.seek (_buffer s) off ;;
          Ok (buffer, size + (off - _size s))
        else Ok (_buffer s, size)
    | None => Ok (_buffer s, size)
    end ;;
  Ok (Make (_baseaddr s) (_size s + size) (BytesIO.write buffer data)).

Definition write (s : t) (data : list byte) (offset : option Z) : result t :=
  write_with_size s data (Py.len data) offset.

End RecordSegment.

(* ===================================================================== *)
(** ** [RecordParser] *)
(* ===================================================================== *)

Module RecordParser.

(** [(INFO, DATA, EXECUTE, EOF) = range(1, 5)] *)
Inductive record_type : Type := INFO | DATA | EXECUTE | EOF.

Definition chunk : Type := (record_type * Z * list byte)%type.

Record t : Type := Make {
  _src : stream;
  _offset : Z;
  _min_addr : Z;
  _max_addr : Z;
  _verbose : bool;
  _exec_addr : option Z;
  _segments : list RecordSegment.t;
  _info : option RecordSegment.t;
  _gap : Z;
  _seg : option RecordSegment.t;
  _bytes : Z;
  _verify : bool
}.

Definition set_bounds (p : t) (min_addr max_addr : Z) : t :=
  Make (_src p) (_offset p) min_addr max_addr (_verbose p) (_exec_addr p)
       (_segments p) (_info p) (_gap p) (_seg p) (_bytes p) (_verify p).
Definition set_exec_addr (p : t) (v : option Z) : t :=
  Make (_src p) (_offset p) (_min_addr p) (_max_addr p) (_verbose p) v
       (_segments p) (_info p) (_gap p) (_seg p) (_bytes p) (_verify p).
Definition set_segments (p : t) (v : list RecordSegment.t) : t :=
  Make (_src p) (_offset p) (_min_addr p) (_max_addr p) (_verbose p)
       (_exec_addr p) v (_info p) (_gap p) (_seg p) (_bytes p) (_verify p).
Definition set_info (p : t) (v : option RecordSegment.t) : t :=
  Make (_src p) (_offset p) (_min_addr p) (_max_addr p) (_verbose p)
       (_exec_addr p) (_segments p) v (_gap p) (_seg p) (_bytes p)
       (_verify p).
Definition set_seg (p : t) (v : option RecordSegment.t) : t :=
  Make (_src p) (_offset p) (_min_addr p) (_max_addr p) (_verbose p)
       (_exec_addr p) (_segments p) (_info p) (_gap p) v (_bytes p)
       (_verify p).

(** [__init__]; [is_term] is the value returned by [tde.term.is_term()],
    a flag computed when that module is loaded.  [_bytes], the file size
    that only the progress display uses, keeps its initial value. *)
Definition new (is_term : bool) (src : stream)
  (offset min_addr max_addr segment_gap : Z) (verbose verify : bool)
  : result t :=
  if segment_gap <? 1 then raise ValueError "Invalid segment gap"
  else Ok (Make src offset min_addr max_addr (is_term && verbose) None []
                None segment_gap None 0 verify).

(** Construction with the default keyword arguments. *)
Definition new_default (is_term : bool) (src : stream) : result t :=
  new is_term src 0 0 4294967295 16 false true.

Definition get_data_segments (p : t) : list RecordSegment.t := _segments p.
Definition getexec (p : t) : option Z := _exec_addr p.
Definition get_info (p : t) : list byte :=
  match _info p with
  | Some i => RecordSegment.data i
  | None => []
  end.

Definition _verify_address (p : t) (address : Z) : result unit :=
  if (address <? _min_addr p) || (_max_addr p <? address) then
    raise RecordError "Address out of range [0x%08x..0x%08x]: 0x%08x"
  else if address <? _offset p then
    raise RecordError "Invalid address in file: 0x%08x"
  else Ok tt.

Definition _store_segment (p : t) : t :=
  let p :=
    match _seg p with
    | Some s =>
        if negb (RecordSegment.size s =? 0)
        then set_segments p (_segments p ++ [s])
        else p
    | None => p
    end in
  set_seg p None.

(** Body of the [for] loop of [parse] for one yielded record.  The final
    [else: raise RuntimeError] of the source is not reachable with the
    four record types. *)
Definition parse_record (p : t) (record : record_type) (address : Z)
  (value : list byte) : result t :=
  match record with
  | DATA =>
      let addr := address - _offset p in
      let p :=
        match _seg p with
        | Some s =>
            if _gap p <=? Z.abs (addr - RecordSegment.absaddr s)
            then _store_segment p else p
        | None => p
        end in
      let s :=
        match _seg p with
        | Some s => s
        | None => RecordSegment.new addr
        end in
      s <- RecordSegment.write s value (Some addr) ;;
      Ok (set_seg p (Some s))
  | EXECUTE => Ok (set_exec_addr p (Some address))
  | INFO =>
      let i :=
        match _info p with
        | Some i => i
        | None => RecordSegment.new address
        end in
      i <- RecordSegment.write i value (Some address) ;;
      Ok (set_info p (Some i))
  | EOF => Ok p
  end.

Fixpoint parse_loop (p : t) (g : gen chunk) : result t :=
  match g with
  | GStop => Ok p
  | GThrow e => Raise e
  | GYield (record, address, value) rest =>
      p <- parse_record p record address value ;;
      parse_loop p rest
  end.

(** [parse], over the records that [self._get_next_chunk()] yields.  The
    generators of the module read the stream and the configuration only,
    never what the loop body updates, so the sequence they yield does not
    depend on the interleaving with the loop. *)
Definition parse (p : t) (g : gen chunk) : result t :=
  p <- parse_loop p g ;;
  Ok (_store_segment p).

(** The handler that closes each iteration of the line loops:
    [except RecordError as ex: raise ex.__class__(... % (ex, l, line))]. *)
Definition reraise_with_line {A : Type} (r : result A) : result A :=
  match r with
  | Raise (Exn c msg) =>
      if is_RecordError c then Raise (Exn c (msg ++ " @ line %d:'%s'"))
      else r
  | Ok _ => r
  end.

(** The [for (l, line) in enumerate(self._src, start=1)] loop of a line
    parser whose body is [step]: it carries a loop state, and for each
    line continues without a record, yields one, stops ([break] after a
    last record) or raises. *)
Inductive line_outcome (S : Type) : Type :=
| Continue (s : S)
| Emit (s : S) (c : chunk)
| EmitBreak (c : chunk).
Arguments Continue {S} s.
Arguments Emit {S} s c.
Arguments EmitBreak {S} c.

Fixpoint line_loop {S : Type} (step : S -> string -> result (line_outcome S))
  (s : S) (lines : list string) : gen chunk :=
  match lines with
  | [] => GStop
  | line :: rest =>
      match reraise_with_line (step s line) with
      | Raise e => GThrow e
      | Ok (Continue s) => line_loop step s rest
      | Ok (Emit s c) => GYield c (line_loop step s rest)
      | Ok (EmitBreak c) => GYield c GStop
      end
  end.

Definition src_lines (p : t) : list string :=
  Py.readlines (stream_rest (_src p)) [].

End RecordParser.

Import RecordParser.

(** First character of a line known to be non-empty: [line[0]]. *)
Definition first_char_is (line : string) (c : Z) : bool :=
  match line with
  | String a _ => Py.code a =? c
  | EmptyString => false
  end.

(* ===================================================================== *)
(** ** [SRecParser] *)
(* ===================================================================== *)

Module SRecParser.

Definition new := RecordParser.new.
Definition new_default := RecordParser.new_default.

(** One iteration of the line loop of [_get_next_chunk]. *)
Definition line_step (p : RecordParser.t) (_ : unit) (line : string)
  : result (line_outcome unit) :=
  let line := Py.strip line in
  if Py.str_len line <? 5 then Ok (Continue tt)
  else if negb (first_char_is line 83) then
    raise SRecError "Invalid SREC header"
  else
    record <- Py.int (Py.str_slice line (Some 1) (Some 2)) 10 ;;
    '(addrend, address, type_) <-
      (if record =? 1 then
         a <- Py.int (Py.str_slice line (Some 4) (Some 8)) 16 ;;
         Ok (3, a, DATA)
       else if record =? 2 then
         a <- Py.int (Py.str_slice line (Some 4) (Some 10)) 16 ;;
         Ok (4, a, DATA)
       else if record =? 3 then
         a <- Py.int (Py.str_slice line (Some 4) (Some 12)) 16 ;;
         Ok (5, a, DATA)
       else if record =? 7 then
         a <- Py.int (Py.str_slice line (Some 4) (Some 12)) 16 ;;
         Ok (5, a, EXECUTE)
       else if record =? 8 then
         a <- Py.int (Py.str_slice line (Some 4) (Some 10)) 16 ;;
         Ok (4, a, EXECUTE)
       else if record =? 9 then
         a <- Py.int (Py.str_slice line (Some 4) (Some 8)) 16 ;;
         Ok (3, a, EXECUTE)
       else if record =? 0 then
         a <- Py.int (Py.str_slice line (Some 4) (Some 8)) 16 ;;
         Ok (3, a, INFO)
       else raise SRecError "Unsupported SREC record") ;;
    bytes_ <- Py.unhexlify (Py.str_slice line (Some 2) (Some (-2))) ;;
    size <- Py.int (Py.str_slice line (Some 2) (Some 4)) 16 ;;
    let effsize := Py.len bytes_ in
    if negb (size =? effsize) then
      raise SRecError "Expected %d bytes, got %d @ line %d"
    else
      (if _verify p then
         let csum := Py.sum_bytes bytes_ in
         let csum := Z.land csum 255 in
         let csum := Z.lxor csum 255 in
         rsum <- Py.int (Py.str_slice line (Some (-2)) None) 16 ;;
         if negb (rsum =? csum) then
           raise SRecError "Invalid checksum: 0x%02x / 0x%02x"
         else Ok tt
       else Ok tt) ;;;
      (if _verify p && negb (record =? 0)
       then _verify_address p address else Ok tt) ;;;
      Ok (Emit tt (type_, address, Py.slice bytes_ (Some addrend) None)).

Definition _get_next_chunk (p : RecordParser.t) : gen chunk :=
  line_loop (line_step p) tt (src_lines p).

Definition parse (p : RecordParser.t) : result RecordParser.t :=
  RecordParser.parse p (_get_next_chunk p).

End SRecParser.

(* ===================================================================== *)
(** ** [IHexParser] *)
(* ===================================================================== *)

Module IHexParser.

Record t : Type := Make { base : RecordParser.t; _offset_addr : Z }.

Definition new (is_term : bool) (src : stream)
  (offset min_addr max_addr segment_gap : Z) (verbose verify : bool)
  : result t :=
  p <- RecordParser.new is_term src offset min_addr max_addr segment_gap
                        verbose verify ;;
  Ok (Make p 0).

Definition new_default (is_term : bool) (src : stream) : result t :=
  new is_term src 0 0 4294967295 16 false true.

(** One iteration of the line loop of [_get_next_chunk]; the loop state
    is [self._offset_addr]. *)
Definition line_step (p : RecordParser.t) (offset_addr : Z) (line : string)
  : result (line_outcome Z) :=
  let line := Py.strip line in
  if Py.str_len line <? 5 then Ok (Continue offset_addr)
  else if negb (first_char_is line 58) then
    raise IHexError "Invalid IHEX header"
  else
    size <- Py.int (Py.str_slice line (Some 1) (Some 3)) 16 ;;
    address <- Py.int (Py.str_slice line (Some 3) (Some 7)) 16 ;;
    record <- Py.int (Py.str_slice line (Some 7) (Some 9)) 10 ;;
    (* inl: the branch ends in continue; inr: it falls through *)
    branch <-
      (if record =? 0 then Ok (inr (DATA, address))
       else if record =? 1 then Ok (inr (EOF, address))
       else if record =? 2 then
         v <- Py.int (Py.str_slice line (Some 9) (Some (-2))) 16 ;;
         let offset_addr :=
           Z.land offset_addr (Z.lnot (Z.shiftl 1 20 - 1)) in
         Ok (inl (Z.lor offset_addr (Z.shiftl v 4)))
       else if record =? 4 then
         v <- Py.int (Py.str_slice line (Some 9) (Some (-2))) 16 ;;
         Ok (inl (Z.shiftl v 16))
       else if record =? 3 then
         cs <- Py.int (Py.str_slice line (Some 9) (Some 13)) 16 ;;
         ip <- Py.int (Py.str_slice line (Some 13) (Some (-2))) 16 ;;
         Ok (inr (EXECUTE, Z.shiftl cs 4 + ip))
       else raise IHexError "Unsupported IHEX record: %d") ;;
    match branch with
    | inl offset_addr => Ok (Continue offset_addr)
    | inr (type_, address) =>
        bytes_ <- Py.unhexlify (Py.str_slice line (Some 9) (Some (-2))) ;;
        let effsize := Py.len bytes_ in
        if negb (size =? effsize) then
          raise IHexError "Expected %d bytes, got %d @ line %d"
        else
          (if _verify p then
             all <- Py.unhexlify (Py.str_slice line (Some 1) (Some (-2))) ;;
             let csum := Py.sum_bytes all in
             let csum := Z.land (- csum) 255 in
             rsum <- Py.int (Py.str_slice line (Some (-2)) None) 16 ;;
             if negb (rsum =? csum) then
               raise IHexError "Invalid checksum: 0x%02x / 0x%02x"
             else Ok tt
           else Ok tt) ;;;
          let address :=
            match type_ with
            | DATA => address + offset_addr
            | _ => address
            end in
          (if _verify p && negb (record =? 0)
           then _verify_address p address else Ok tt) ;;;
          Ok (Emit offset_addr (type_, address, bytes_))
    end.

Definition _get_next_chunk (p : t) : gen chunk :=
  line_loop (line_step (base p)) (_offset_addr p) (src_lines (base p)).

(** [parse] is inherited from [RecordParser]; the value of
    [_offset_addr] left by the generator is not read afterwards and is
    not tracked. *)
Definition parse (p : t) : result t :=
  b <- RecordParser.parse (base p) (_get_next_chunk p) ;;
  Ok (Make b (_offset_addr p)).

Definition get_data_segments (p : t) := RecordParser.get_data_segments (base p).
Definition getexec (p : t) := RecordParser.getexec (base p).

(** [HEX_CRE.match(line)] for [HEX_CRE = (?i)^:[0-9A-F]+$]: a colon and at
    least one hexadecimal digit of either case, up to the end of the
    string or to a line feed that ends the string. *)
Definition HEX_CRE_match (line : string) : bool :=
  match list_ascii_of_string line with
  | c :: h =>
      let h :=
        match rev h with
        | lf :: r => if Py.code lf =? 10 then rev r else h
        | [] => h
        end in
      (Py.code c =? 58) && negb (Py.len h =? 0)
      && forallb Py.is_hexdigit h
  | [] => false
  end.

(** The [for line in hfp] loop of [is_valid_syntax]; [false] is the
    [return False] inside the loop, [true] the final [return True]. *)
Fixpoint valid_lines (last : bool) (lines : list string) : bool :=
  match lines with
  | [] => true
  | line :: rest =>
      let line := Py.strip line in
      if String.eqb line EmptyString then valid_lines true rest
      else if negb (HEX_CRE_match line) || last then false
      else valid_lines last rest
  end.

(** [is_valid_syntax(file)] for a file-like object, read from its
    current position; reading a stream held in memory raises nothing, so
    the [except Exception] exit is not taken. *)
Definition is_valid_syntax (file : stream) : bool :=
  valid_lines false (Py.readlines (stream_rest file) []).

End IHexParser.

(* ===================================================================== *)
(** ** [IHexFastParser] *)
(* ===================================================================== *)

Module IHexFastParser.

Record t : Type := Make { base : RecordParser.t; _offset_addr : Z }.

Definition new (is_term : bool) (src : stream)
  (offset min_addr max_addr segment_gap : Z) (verbose verify : bool)
  : result t :=
  p <- RecordParser.new is_term src offset min_addr max_addr segment_gap
                        verbose verify ;;
  Ok (Make p 0).

Definition new_default (is_term : bool) (src : stream) : result t :=
  new is_term src 0 0 4294967295 16 false true.

(** [HEXCRE = (?aim)^:((?:[0-9A-F][0-9A-F]){5,})$]: in multi-line mode a
    match is a whole piece of the text between line feeds, made of a
    colon and at least five pairs of hexadecimal digits of either case. *)
Definition HEXCRE_matches (piece : list ascii) : bool :=
  match piece with
  | c :: h =>
      (Py.code c =? 58) && forallb Py.is_hexdigit h
      && Z.even (Py.len h) && (10 <=? Py.len h)
  | [] => false
  end.

(** [HEXCRE.finditer(self._src.read())], each match as [mo.group(0)]. *)
Definition finditer (text : list ascii) : list string :=
  map string_of_list_ascii (filter HEXCRE_matches (Py.split_lf text [])).

(** Body of the loop of [parse] for one match. *)
Definition match_step (p : t) (group0 : string) : result t :=
  let b := base p in
  bvalues <- Py.unhexlify (Py.str_slice group0 (Some 1) None) ;;
  size <- Py.getitem bvalues 0 ;;
  rsum <- Py.getitem bvalues (-1) ;;
  let data := Py.slice bvalues (Some 4) (Some (-1)) in
  if negb (Py.len data =? size) then
    raise IHexError "Invalid line @ %d in HEX file"
  else
    (if _verify b then
       let csum := Py.sum_bytes (Py.slice bvalues None (Some (-1))) in
       let csum := Z.land (- csum) 255 in
       if negb (rsum =? csum) then
         raise IHexError "Invalid checksum: 0x%02x / 0x%02x"
       else Ok tt
     else Ok tt) ;;;
    b1 <- Py.getitem bvalues 1 ;;
    b2 <- Py.getitem bvalues 2 ;;
    let address := Z.shiftl b1 8 + b2 in
    record <- Py.getitem bvalues 3 ;;
    (if _verify b && negb (record =? 0)
     then _verify_address b address else Ok tt) ;;;
    if record =? 0 then
      let address := address + _offset_addr p in
      let addr := address - _offset b in
      let b :=
        match _seg b with
        | Some s =>
            let gap := addr - RecordSegment.absaddr s in
            let gap := if gap <? 0 then - gap else gap in
            if _gap b <=? gap then _store_segment b else b
        | None => b
        end in
      let s :=
        match _seg b with
        | Some s => s
        | None => RecordSegment.new addr
        end in
      s <- RecordSegment.write_with_size s data size (Some addr) ;;
      Ok (Make (set_seg b (Some s)) (_offset_addr p))
    else if record =? 1 then
      (* the warning refers to sys, a name that is not bound here *)
      if negb (address =? 0) then
        raise NameError "name 'sys' is not defined"
      else Ok p
    else if record =? 2 then
      if negb (size =? 2) then raise IHexError "Invalid segment address"
      else
        d0 <- Py.getitem data 0 ;;
        d1 <- Py.getitem data 1 ;;
        let offset_addr :=
          Z.land (_offset_addr p) (Z.lnot (Z.shiftl 1 20 - 1)) in
        Ok (Make b (Z.lor offset_addr (Z.shiftl (Z.shiftl d0 8 + d1) 4)))
    else if record =? 4 then
      if negb (size =? 2) then raise IHexError "Invalid linear address"
      else
        d0 <- Py.getitem data 0 ;;
        d1 <- Py.getitem data 1 ;;
        Ok (Make b (Z.shiftl (Z.shiftl d0 8 + d1) 16))
    else if record =? 3 then
      if negb (size =? 4) then raise IHexError "Invalid start address"
      else
        d0 <- Py.getitem data 0 ;;
        d1 <- Py.getitem data 1 ;;
        d2 <- Py.getitem data 2 ;;
        d3 <- Py.getitem data 3 ;;
        let cs := Z.shiftl d0 8 + d1 in
        let ip := Z.shiftl d2 8 + d3 in
        let address := Z.shiftl cs 4 + ip in
        Ok (Make (set_exec_addr b (Some address)) (_offset_addr p))
    else Ok p.

Fixpoint match_loop (p : t) (matches : list string) : result t :=
  match matches with
  | [] => Ok p
  | mo :: rest => p <- match_step p mo ;; match_loop p rest
  end.

Definition parse (p : t) : result t :=
  let b := base p in
  p <- match_loop p (finditer (stream_rest (_src b))) ;;
  Ok (Make (_store_segment (base p)) (_offset_addr p)).

Definition get_data_segments (p : t) := RecordParser.get_data_segments (base p).
Definition getexec (p : t) := RecordParser.getexec (base p).

(** [HEXCRE.findall(data)]: the first group of each match. *)
Definition findall (text : list ascii) : list string :=
  map (fun group0 => Py.str_slice group0 (Some 1) None) (finditer text).

(** [is_valid_syntax(file)] for a file-like object, read from its
    current position; nothing raises on a stream held in memory. *)
Definition is_valid_syntax (file : stream) : bool :=
  let data := stream_rest file in
  let ihex_count := Py.len (findall data) in
  let lf_count := Py.count 10 data in
  ihex_count =? lf_count.

End IHexFastParser.

(* ===================================================================== *)
(** ** [TItxtParser] *)
(* ===================================================================== *)

Module TItxtParser.

Definition new := RecordParser.new.
Definition new_default := RecordParser.new_default.

(** One iteration of the line loop of [_get_next_chunk]; the loop state
    is the local variable [address], unbound until a line starting with
    [@] has been read. *)
Definition line_step (p : RecordParser.t) (address : option Z)
  (line : string) : result (line_outcome (option Z)) :=
  let line := Py.strip line in
  if first_char_is line 64 then
    a <- Py.int (Py.str_slice line (Some 1) None) 16 ;;
    Ok (Continue (Some a))
  else if String.eqb line "q" then Ok (EmitBreak (EOF, 0, []))
  else
    bytes_ <- Py.unhexlify line ;;
    match address with
    | None =>
        raise UnboundLocalError
              "local variable 'address' referenced before assignment"
    | Some address =>
        _verify_address p address ;;;
        Ok (Emit (Some (address + Py.len bytes_)) (DATA, address, bytes_))
    end.

Definition _get_next_chunk (p : RecordParser.t) : gen chunk :=
  line_loop (line_step p) None (src_lines p).

Definition parse (p : RecordParser.t) : result RecordParser.t :=
  RecordParser.parse p (_get_next_chunk p).

End TItxtParser.

(* ===================================================================== *)
(** ** Builders *)
(* ===================================================================== *)

(** The four class methods a concrete builder provides; a method left
    to [RecordBuilder] raises [NotImplementedError]. *)
Record builder_class : Type := BuilderClass {
  _create_info : RecordSegment.t -> result string;
  _create_data : Z -> RecordSegment.t -> gen string;
  _create_exec : Z -> result string;
  _create_eof : result string
}.

Module RecordBuilder.

Record t : Type := Make { _linesep : string; _buffer : string }.

(** [__init__]; [linesep] is [os.linesep]. *)
Definition new (linesep : string) (crlf : bool) : t :=
  Make (if crlf then String (Py.chr 13) Py.LF else linesep) EmptyString.

Definition write (b : t) (s : string) : t :=
  Make (_linesep b) (_buffer b ++ s).

Definition getvalue (b : t) : string := _buffer b.

Definition not_implemented {A : Type} : result A :=
  raise NotImplementedError EmptyString.

Fixpoint write_lines (b : t) (g : gen string) : result t :=
  match g with
  | GStop => Ok b
  | GThrow e => Raise e
  | GYield line rest =>
      write_lines (write (write b line) (_linesep b)) rest
  end.

Fixpoint write_segments (cls : builder_class) (b : t) (offset : Z)
  (datasegs : list RecordSegment.t) : result t :=
  match datasegs with
  | [] => Ok b
  | dataseg :: rest =>
      b <- write_lines b (_create_data cls offset dataseg) ;;
      write_segments cls b offset rest
  end.

Definition build (cls : builder_class) (b : t)
  (datasegs : list RecordSegment.t) (infoseg : option RecordSegment.t)
  (execaddr : option Z) (offset : Z) : result t :=
  b <- match infoseg with
       | Some infoseg =>
           line <- _create_info cls infoseg ;;
           Ok (write (write b line) (_linesep b))
       | None => Ok b
       end ;;
  b <- write_segments cls b offset datasegs ;;
  b <- match execaddr with
       | Some execaddr =>
           line <- _create_exec cls execaddr ;;
           Ok (write (write b line) (_linesep b))
       | None => Ok b
       end ;;
  eof <- _create_eof cls ;;
  if negb (String.eqb eof EmptyString) then Ok (write (write b eof) (_linesep b))
  else Ok b.

(** The [for pos in range(0, len(data), 16)] loop of a [_create_data]
    generator whose body, given a loop state and the position, yields
    lines and returns the next state. *)
Fixpoint chunk_loop {S : Type}
  (body : S -> Z -> result (list string * S)) (s : S) (positions : list Z)
  : gen string :=
  match positions with
  | [] => GStop
  | pos :: rest =>
      match body s pos with
      | Raise e => GThrow e
      | Ok (lines, s) =>
          fold_right GYield (chunk_loop body s rest) lines
      end
  end.

End RecordBuilder.

Module SRecBuilder.

Definition checksum (hexastr : string) : result Z :=
  bs <- Py.unhexlify hexastr ;;
  ords <- Py.mapM Py.ord_of_int (map Py.byte_val bs) ;;
  let dsum := Py.sum ords in
  let dsum := Z.land dsum 255 in
  Ok (Z.lxor dsum 255).

Definition _create_info (segment : RecordSegment.t) : result string :=
  let msg := Py.slice (RecordSegment.data segment) None (Some 16) in
  let line := ("S0" ++ Py.fmt_hex 2 true (Py.len msg + 2 + 1)
                    ++ Py.fmt_hex 4 true 0)%string in
  line <- Py.str_add_bytes line (Py.hexlify msg) ;;
  c <- checksum (Py.str_slice line (Some 2) None) ;;
  let line := (line ++ Py.fmt_hex 2 false c)%string in
  Ok (Py.upper line).

(** The three prefixes ['S1%02x%04x'], ['S2%02x%06x'], ['S3%02x%08x'] as
    the record digit and the width of the address field; [prefix_fmt] is
    [prefix % (count, address)]. *)
Definition prefix_fmt (digit : Z) (width : nat) (count address : Z)
  : string :=
  ("S" ++ Py.fmt_hex 1 false digit ++ Py.fmt_hex 2 false count
       ++ Py.fmt_hex width false address)%string.

Definition _create_data (offset : Z) (segment : RecordSegment.t)
  : gen string :=
  let data := RecordSegment.data segment in
  let upaddr := RecordSegment.baseaddr segment + Py.len data in
  let '(digit, width) :=
    if upaddr <? Z.shiftl 1 16 then (1, 4%nat)
    else if upaddr <? Z.shiftl 1 24 then (2, 6%nat)
    else (3, 8%nat) in
  RecordBuilder.chunk_loop
    (fun offset pos =>
       let chunk := Py.slice data (Some pos) (Some (pos + 16)) in
       let hexachunk := Py.hexlify chunk in
       line <- Py.str_add_bytes
                 (prefix_fmt digit width (Py.len chunk + digit + 1 + 1)
                             offset)
                 hexachunk ;;
       c <- checksum (Py.str_slice line (Some 2) None) ;;
       let line := (line ++ Py.fmt_hex 2 false c)%string in
       Ok ([Py.upper line], offset + 16))
    offset (Py.range0 (Py.len data) 16).

Definition _create_exec (address : Z) : result string :=
  let line :=
    if address <? Z.shiftl 1 16 then
      ("S903" ++ Py.fmt_hex 4 false address)%string
    else if address <? Z.shiftl 1 24 then
      ("S804" ++ Py.fmt_hex 6 false address)%string
    else ("S705" ++ Py.fmt_hex 8 false address)%string in
  c <- checksum (Py.str_slice line (Some 2) None) ;;
  let line := (line ++ Py.fmt_hex 2 false c)%string in
  Ok (Py.upper line).

Definition _create_eof : result string := Ok EmptyString.

Definition cls : builder_class :=
  BuilderClass _create_info _create_data _create_exec _create_eof.

Definition build := RecordBuilder.build cls.

End SRecBuilder.

Module IHexBuilder.

Definition checksum (hexastr : string) : result Z :=
  bs <- Py.unhexlify hexastr ;;
  let csum := Py.sum_bytes bs in
  let csum := Z.land (- csum) 255 in
  Ok csum.

Definition _create_info (segment : RecordSegment.t) : result string :=
  Ok EmptyString.

(** [_create_line(type_, address=0, data=None)] *)
Definition _create_line (type_ address : Z) (data : option (list byte))
  : result string :=
  let data := match data with Some d => d | None => [] end in
  let hexdat := Py.decode (Py.hexlify data) in
  let length := Py.len data in
  let datastr := (Py.fmt_hex 2 true length ++ Py.fmt_hex 4 true address
                  ++ Py.fmt_hex 2 true type_ ++ hexdat)%string in
  checksum <- checksum datastr ;;
  let line := (":" ++ datastr ++ Py.fmt_hex 2 true checksum)%string in
  Ok (Py.upper line).

Definition _create_data (offset : Z) (segment : RecordSegment.t)
  : gen string :=
  let data := RecordSegment.data segment in
  let address := offset + RecordSegment.baseaddr segment in
  RecordBuilder.chunk_loop
    (fun '(address, high_addr) pos =>
       let high := Z.shiftr address 16 in
       '(first, high_addr) <-
         (if match high_addr with
             | Some h => negb (high =? h)
             | None => true
             end
          then
            hi_bytes <- Py.pack_H high ;;
            line <- _create_line 4 0 (Some hi_bytes) ;;
            Ok ([line], Some high)
          else Ok ([], high_addr)) ;;
       let chunk := Py.slice data (Some pos) (Some (pos + 16)) in
       line <- _create_line 0 (Z.land address 65535) (Some chunk) ;;
       Ok ((first ++ [line])%list, (address + 16, high_addr)))
    (address, None) (Py.range0 (Py.len data) 16).

Definition _create_exec (address : Z) : result string :=
  if address <? Z.shiftl 1 20 then
    let cs := Z.shiftr address 4 in
    let ip := Z.land address 65535 in
    let addr := Z.lor (Z.shiftl cs 16) ip in
    addr <- Py.pack_I addr ;;
    _create_line 3 0 (Some addr)
  else
    addr <- Py.pack_I address ;;
    _create_line 5 0 (Some addr).

Definition _create_eof : result string := _create_line 1 0 None.

Definition cls : builder_class :=
  BuilderClass _create_info _create_data _create_exec _create_eof.

Definition build := RecordBuilder.build cls.

End IHexBuilder.

Module TItxtBuilder.

(** The line yielded for one chunk:
    [' '.join(['%02x' % b for b in chunk]).upper()]. *)
Definition chunk_line (chunk : list byte) : string :=
  let line :=
    Py.join " " (map (fun b => Py.fmt_hex 2 false (Py.byte_val b)) chunk) in
  Py.upper line.

Definition _create_data (offset : Z) (segment : RecordSegment.t)
  : gen string :=
  let data := RecordSegment.data segment in
  let rest :=
    RecordBuilder.chunk_loop
      (fun (_ : unit) pos =>
         let chunk := Py.slice data (Some pos) (Some (pos + 16)) in
         Ok ([chunk_line chunk], tt))
      tt (Py.range0 (Py.len data) 16) in
  match data with
  | [] => rest
  | _ =>
      GYield ("@" ++ Py.fmt_hex 4 false
                       (RecordSegment.baseaddr segment + offset))%string
             rest
  end.

Definition _create_eof : result string := Ok "q"%string.

Definition cls : builder_class :=
  BuilderClass (fun _ => RecordBuilder.not_implemented) _create_data
               (fun _ => RecordBuilder.not_implemented) _create_eof.

Definition build := RecordBuilder.build cls.

End TItxtBuilder.

(* ===================================================================== *)
(** ** The merge driver, [host/bin/mergehex.py] *)
(* ===================================================================== *)

Module mergehex.

(** [segments.sort(key=lambda seg: seg.baseaddr)]: a stable sort. *)
Fixpoint insert_sorted (x : RecordSegment.t) (l : list RecordSegment.t)
  : list RecordSegment.t :=
  match l with
  | [] => [x]
  | y :: r =>
      if RecordSegment.baseaddr x <? RecordSegment.baseaddr y then x :: l
      else y :: insert_sorted x r
  end.

Definition sort_by_baseaddr (l : list RecordSegment.t)
  : list RecordSegment.t :=
  fold_left (fun acc x => insert_sorted x acc) l [].

(** The inner [for seg in segments] loop for the candidate [segment]. *)
Fixpoint check_override (segment : RecordSegment.t)
  (segments : list RecordSegment.t) : result unit :=
  let c_start := RecordSegment.baseaddr segment in
  let c_end := RecordSegment.baseaddr segment + RecordSegment.size segment in
  match segments with
  | [] => Ok tt
  | seg :: rest =>
      let s_start := RecordSegment.baseaddr seg in
      let s_end := RecordSegment.baseaddr seg + RecordSegment.size seg in
      if (s_start <=? c_end) && (c_start <? s_end) then
        raise RuntimeError "Segment override"
      else check_override segment rest
  end.

(** The [for segment in parser.get_data_segments()] loop. *)
Fixpoint add_segments (segments parsed : list RecordSegment.t)
  : result (list RecordSegment.t) :=
  match parsed with
  | [] => Ok segments
  | segment :: rest =>
      check_override segment segments ;;;
      add_segments (sort_by_baseaddr (segments ++ [segment])) rest
  end.

(** What the body of the [for inhex in args.input] loop does once the
    input is parsed. *)
Definition merge_parsed (noexec : bool) (start_addr : option Z)
  (segments : list RecordSegment.t) (exec_addr : option Z)
  (parsed : list RecordSegment.t)
  : result (option Z * list RecordSegment.t) :=
  start_addr <-
    match exec_addr with
    | Some e =>
        if negb noexec then
          match start_addr with
          | Some s =>
              if negb (s =? e) then
                raise RuntimeError "Several start up address are defined"
              else Ok (Some e)
          | None => Ok (Some e)
          end
        else Ok start_addr
    | None => Ok start_addr
    end ;;
  segments <- add_segments segments parsed ;;
  Ok (start_addr, segments).

Fixpoint input_loop (is_term noexec : bool) (start_addr : option Z)
  (segments : list RecordSegment.t) (inputs : list stream)
  : result (option Z * list RecordSegment.t) :=
  match inputs with
  | [] => Ok (start_addr, segments)
  | inhex :: rest =>
      parser <- IHexParser.new_default is_term inhex ;;
      parser <- IHexParser.parse parser ;;
      let exec_addr := IHexParser.getexec parser in
      '(start_addr, segments) <-
        merge_parsed noexec start_addr segments exec_addr
                     (IHexParser.get_data_segments parser) ;;
      input_loop is_term noexec start_addr segments rest
  end.

(** What [main] hands to the builder and what it writes to the output:
    the merged segments, the start address and the generated text. *)
Record merged : Type := Merged {
  merged_segments : list RecordSegment.t;
  merged_start_addr : option Z;
  merged_output : string
}.

(** [main], for the command line options [--noexec] and [--report] and
    the input files in the order given; [linesep] is [os.linesep]. *)
Definition main (linesep : string) (is_term noexec report : bool)
  (inputs : list stream) : result merged :=
  '(start_addr, segments) <- input_loop is_term noexec None [] inputs ;;
  let builder := RecordBuilder.new linesep false in
  let start_addr := if noexec then None else start_addr in
  builder <- IHexBuilder.build builder segments None start_addr 0 ;;
  (if report then
     match segments with
     | [] => raise ValueError "min() arg is an empty sequence"
     | _ => Ok tt
     end
   else Ok tt) ;;;
  Ok (Merged segments start_addr (RecordBuilder.getvalue builder)).

End mergehex.

(* ===================================================================== *)
(** ** [BinaryBuilder] *)
(* ===================================================================== *)

Module BinaryBuilder.

Record t : Type := Make { _iofp : BytesIO.t; _maxsize : Z }.

Definition new (maxsize : Z) : t := Make BytesIO.new maxsize.

(** [sorted(datasegs, key=lambda seg: seg.baseaddr)]: the stable sort
    that [list.sort] performs. *)
Definition sorted_by_baseaddr (datasegs : list RecordSegment.t)
  : list RecordSegment.t :=
  mergehex.sort_by_baseaddr datasegs.

(** The [for segment in sorted(...)] loop of [build]. *)
Fixpoint build_loop (b : t) (addr_offset : option Z)
  (segments : list RecordSegment.t) : result t :=
  match segments with
  | [] => Ok b
  | segment :: rest =>
      let addr_offset :=
        match addr_offset with
        | None => RecordSegment.baseaddr segment
        | Some a => a
        end in
      let offset := RecordSegment.baseaddr segment - addr_offset in
      if negb ((0 <=? offset) && (offset <? _maxsize b)) then
        raise ValueError "Invalid HEX file"
      else if _maxsize b <? offset + RecordSegment.size segment then
        raise ValueError "Invalid HEX file"
      else
        iofp <- BytesIO.seek (_iofp b)
                             (RecordSegment.baseaddr segment - addr_offset) ;;
        let iofp := BytesIO.write iofp (RecordSegment.data segment) in
        build_loop (Make iofp (_maxsize b)) (Some addr_offset) rest
  end.

Definition build (b : t) (datasegs : list RecordSegment.t) : result t :=
  b <- build_loop b None (sorted_by_baseaddr datasegs) ;;
  iofp <- BytesIO.seek (_iofp b) 0 ;;
  Ok (Make iofp (_maxsize b)).

Definition getvalue (b : t) : list byte := BytesIO.getvalue (_iofp b).

Definition io (b : t) : BytesIO.t := _iofp b.

End BinaryBuilder.

(* ===================================================================== *)
(** ** The converter, [host/bin/srec2ti.py] *)
(* ===================================================================== *)

Module srec2ti.

(** The parser [main] sets up: a segment gap of 2 and the address
    window [0xc000, 0xffff]. *)
Definition parser (is_term : bool) (input : stream)
  : result RecordParser.t :=
  SRecParser.new is_term input 0 49152 65535 2 false true.

(** [main], for the input file; [linesep] is [os.linesep].  The result
    is the text written to the output file. *)
Definition main (linesep : string) (is_term : bool) (input : stream)
  : result string :=
  parser <- parser is_term input ;;
  parser <- SRecParser.parse parser ;;
  let builder := RecordBuilder.new linesep false in
  builder <- TItxtBuilder.build builder (get_data_segments parser)
                                None None 0 ;;
  Ok (RecordBuilder.getvalue builder).

End srec2ti.

(* ===================================================================== *)
(** ** Concrete images used below *)
(* ===================================================================== *)

Definition bytes_of_hex (s : string) : list byte :=
  match Py.unhexlify s with
  | Ok b => b
  | Raise _ => []
  end.

(** A segment as a parser leaves it after contiguous writes of [data]
    from [baseaddr] on. *)
Definition segment_of (baseaddr : Z) (data : list byte) : RecordSegment.t :=
  RecordSegment.Make baseaddr (Py.len data)
                     (BytesIO.Make data (Py.len data)).

Definition text_of_lines (lines : list string) : string :=
  String.concat Py.LF lines ++ Py.LF.

(** Sixteen bytes at 0x0000 and sixteen bytes at 0x0010, as Intel HEX
    files: the two images are adjacent and do not intersect. *)
Definition hex_0000_0010 : stream :=
  StringIO (text_of_lines
              [":10000000000102030405060708090A0B0C0D0E0F78";
               ":00000001FF"]%string).
Definition hex_0010_0020 : stream :=
  StringIO (text_of_lines
              [":10001000000102030405060708090A0B0C0D0E0F68";
               ":00000001FF"]%string).

(** The images [0x1000, 0x1010) and [0x1008, 0x1020). *)
Definition hex_1000_1010 : stream :=
  StringIO (text_of_lines
              [":10100000000102030405060708090A0B0C0D0E0F68";
               ":00000001FF"]%string).
Definition hex_1008_1020 : stream :=
  StringIO (text_of_lines
              [":10100800000102030405060708090A0B0C0D0E0F60";
               ":08101800101112131415161734";
               ":00000001FF"]%string).

(** Files that define the start address 0x8000, respectively 0x9000, with
    a start segment address record (CS 0, IP the address). *)
Definition hex_exec_8000 : stream :=
  StringIO (text_of_lines [":040000030000800079"; ":00000001FF"]%string).
Definition hex_exec_9000 : stream :=
  StringIO (text_of_lines [":040000030000900069"; ":00000001FF"]%string).

(** The execution address an input file defines, as the merge driver
    obtains it. *)
Definition parsed_exec (is_term : bool) (inhex : stream)
  : result (option Z) :=
  parser <- IHexParser.new_default is_term inhex ;;
  parser <- IHexParser.parse parser ;;
  Ok (IHexParser.getexec parser).

(** The data segments of an input file, as the merge driver obtains
    them. *)
Definition parsed_segments (is_term : bool) (inhex : stream)
  : result (list RecordSegment.t) :=
  parser <- IHexParser.new_default is_term inhex ;;
  parser <- IHexParser.parse parser ;;
  Ok (IHexParser.get_data_segments parser).

Definition extent (s : RecordSegment.t) : Z * Z :=
  (RecordSegment.baseaddr s, RecordSegment.baseaddr s + RecordSegment.size s).

(** The two S-Record lines of the end-to-end scenario, and the same
    lines with the checksum of the data record recomputed. *)
Definition srec_scenario : stream :=
  StringIO (text_of_lines
              ["S1130000214601360121470136007EFE09D2190140";
               "S9030000FC"]%string).
Definition srec_scenario_3D : stream :=
  StringIO (text_of_lines
              ["S1130000214601360121470136007EFE09D219013D";
               "S9030000FC"]%string).
Definition scenario_payload : list byte :=
  bytes_of_hex "214601360121470136007EFE09D21901".

(** A start linear address record for 0x00100000, alone in a file. *)
Definition hex_type5_line : string := ":0400000500100000E7".
Definition hex_type5 : stream :=
  StringIO (text_of_lines [hex_type5_line; ":00000001FF"]%string).

(** One byte of data at 0x1000 in each of the three formats. *)
Definition hex_data_1000 : stream :=
  StringIO (text_of_lines [":01100000559A"; ":00000001FF"]%string).
Definition srec_data_1000 : stream :=
  StringIO (text_of_lines ["S10410005596"; "S9030000FC"]%string).
Definition titxt_data_1000 : stream :=
  StringIO (text_of_lines ["@1000"; "55"; "q"]%string).

(** Building a text with a builder class, and parsing a text with each
    parser, under the default options and a given segment gap. *)
Definition build_text (cls : builder_class)
  (datasegs : list RecordSegment.t) : result string :=
  b <- RecordBuilder.build cls (RecordBuilder.new Py.LF false) datasegs
                           None None 0 ;;
  Ok (RecordBuilder.getvalue b).

Definition titxt_segments (segment_gap : Z) (text : string)
  : result (list RecordSegment.t) :=
  p <- TItxtParser.new true (StringIO text) 0 0 4294967295 segment_gap
                       false true ;;
  p <- TItxtParser.parse p ;;
  Ok (get_data_segments p).

Definition ihex_segments (segment_gap : Z) (text : string)
  : result (list RecordSegment.t) :=
  p <- IHexParser.new true (StringIO text) 0 0 4294967295 segment_gap
                      false true ;;
  p <- IHexParser.parse p ;;
  Ok (IHexParser.get_data_segments p).

(** The characters of the line the TI-txt builder yields for the chunk
    [b :: chunk]: two digits per byte, a space between bytes. *)
Definition byte_chars (b : byte) : list ascii :=
  map Py.upper_char
      (list_ascii_of_string (Py.fmt_hex 2 false (Py.byte_val b))).

Fixpoint line_chars (b : byte) (chunk : list byte) : list ascii :=
  match chunk with
  | [] => byte_chars b
  | b' :: rest => (byte_chars b ++ " "%char :: line_chars b' rest)%list
  end.

(** Neither white space, nor outside ASCII, nor the [@] sign. *)
Definition plain_char (c : ascii) : Prop :=
  Py.isspace c = false /\ (128 <=? Py.code c) = false
  /\ (Py.code c =? 64) = false.

(** *** Intel HEX text of a segment list *)

(** The upper-case hexadecimal text of a byte sequence. *)
Definition hex_chars (data : list byte) : list ascii :=
  flat_map byte_chars data.

(** The two lower-case digits [hexlify] gives for a byte. *)
Definition lower_chars (b : byte) : list ascii :=
  [Py.hexdigit false (Py.byte_val b / 16);
   Py.hexdigit false (Py.byte_val b mod 16)].

(** [l] is hexadecimal ASCII text for the bytes [bs]. *)
Definition hex_of (l : list ascii) (bs : list byte) : Prop :=
  Py.unhex_pairs l = Some bs
  /\ existsb (fun c => 128 <=? Py.code c) l = false.

(** The [k] upper-case digits of [n], most significant first. *)
Fixpoint digs (k : nat) (n : Z) : list ascii :=
  match k with
  | O => []
  | S k' => digs k' (n / 16) ++ [Py.hexdigit true (n mod 16)]
  end.

(** The value of a byte sequence read as a big-endian number. *)
Definition bytes_value (bs : list byte) (acc : Z) : Z :=
  fold_left (fun a b => a * 256 + Py.byte_val b) bs acc.

(** An Intel HEX record as bytes (count, address, type, data), its
    checksum, and the line that holds it. *)
Definition record_bytes (type_ address : Z) (d : list byte) : list byte :=
  [Py.byte_of (Py.len d); Py.byte_of (address / 256);
   Py.byte_of (address mod 256); Py.byte_of type_] ++ d.

Definition record_sum (type_ address : Z) (d : list byte) : Z :=
  Z.land (- Py.sum_bytes (record_bytes type_ address d)) 255.

Definition ihex_chars (type_ address : Z) (d : list byte) : list ascii :=
  ":"%char
  :: hex_chars (record_bytes type_ address d
                ++ [Py.byte_of (record_sum type_ address d)]).

Definition ihex_line (type_ address : Z) (d : list byte) : string :=
  string_of_list_ascii (ihex_chars type_ address d).

(** The [i]-th chunk of sixteen bytes of [data]. *)
Definition chunk_at (data : list byte) (i : nat) : list byte :=
  firstn 16 (skipn (16 * i) data).

(** The extended linear address record for the upper half [high]. *)
Definition linear_line (high : Z) : string :=
  ihex_line 4 0 [Py.byte_of (high / 256); Py.byte_of (high mod 256)].

(** The lines of a segment from its chunk [i] on, [n] chunks, when the
    last upper half written is [high_addr]. *)
Fixpoint seg_lines (baseaddr : Z) (data : list byte) (high_addr : option Z)
  (i n : nat) : list string :=
  match n with
  | O => []
  | S n' =>
      let address := baseaddr + 16 * Z.of_nat i in
      let high := Z.shiftr address 16 in
      (if match high_addr with
          | Some h => negb (high =? h)
          | None => true
          end
       then [linear_line high] else [])
      ++ ihex_line 0 (Z.land address 65535) (chunk_at data i)
      :: seg_lines baseaddr data (Some high) (S i) n'
  end.

(** The number of chunks of [data]. *)
Definition chunk_count (data : list byte) : nat :=
  Z.to_nat ((Py.len data + 16 - 1) / 16).

(** The generator that yields the items of a list and stops. *)
Definition gen_of_list {A : Type} (l : list A) : gen A :=
  fold_right GYield GStop l.

(** A text as its lines, each ended by a line feed. *)
Definition add_LF (l : string) : string := (l ++ Py.LF)%string.

Fixpoint lines_text (ls : list string) : string :=
  match ls with
  | [] => EmptyString
  | l :: r => (l ++ Py.LF ++ lines_text r)%string
  end.

Definition no_LF (l : string) : Prop :=
  existsb (fun c => Py.code c =? 10) (list_ascii_of_string l) = false.

(** A segment given by its base address and its bytes, the lines the
    builder writes for it, and the end-of-file record. *)
Definition segment_at (s : Z * list byte) : RecordSegment.t :=
  segment_of (fst s) (snd s).

Definition all_lines (s : Z * list byte) : list string :=
  seg_lines (fst s) (snd s) None 0 (chunk_count (snd s)).

(** The segment lies in the 32-bit address space. *)
Definition in_range (s : Z * list byte) : Prop :=
  0 <= fst s /\ fst s + Py.len (snd s) <= 4294967296.

Definition eof_line : string := ihex_line 1 0 [].

(** The state of a parser with default options during a parse: the
    segments stored and the open segment. *)
Definition run_state (src : stream) (gap : Z) (segs : list RecordSegment.t)
  (open : option RecordSegment.t) : RecordParser.t :=
  RecordParser.Make src 0 0 4294967295 false None segs None gap open 0 true.

Definition opt_list {A : Type} (o : option A) : list A :=
  match o with Some a => [a] | None => [] end.

(** The segment [s] starts at least [gap] away from the end of the
    open segment, which is not empty. *)
Definition separated (gap : Z) (open : option RecordSegment.t)
  (s : Z * list byte) : Prop :=
  match open with
  | Some prev =>
      RecordSegment.size prev <> 0
      /\ gap <= Z.abs (fst s - RecordSegment.absaddr prev)
  | None => True
  end.

(** Well-formed segment lists: every segment holds data, lies in the
    address space and is separated from the one before it. *)
Fixpoint chained (gap : Z) (open : option RecordSegment.t)
  (S : list (Z * list byte)) : Prop :=
  match S with
  | [] => True
  | s :: r =>
      in_range s /\ snd s <> [] /\ separated gap open s
      /\ chained gap (Some (segment_at s)) r
  end.

Definition well_formed (gap : Z) (S : list (Z * list byte)) : Prop :=
  chained gap None S.

(** The parser options used by default, over an arbitrary stream. *)
Definition default_parser (src : stream) : RecordParser.t :=
  RecordParser.Make src 0 0 4294967295 false None [] None 16 None 0 true.

(** A segment whose bytes lie within the 32-bit address space. *)
Definition in_address_space (s : RecordSegment.t) : Prop :=
  0 <= RecordSegment.baseaddr s
  /\ RecordSegment.baseaddr s + Py.len (RecordSegment.data s) <= 4294967296.

(** The text written by the merge of an input that defines the start
    address 0x8000 with the image [0x0000, 0x0010). *)
Definition merged_8000_text : string :=
  text_of_lines [":020000040000FA";
                 ":10000000000102030405060708090A0B0C0D0E0F78";
                 ":040000030800800071";
                 ":00000001FF"]%string.

(* ===================================================================== *)
(** ** Notions used by the properties of the parsers and builders *)
(* ===================================================================== *)

(** [p'] has the options of [p]. *)
Definition same_options (p p' : RecordParser.t) : Prop :=
  _src p' = _src p /\ _offset p' = _offset p /\ _min_addr p' = _min_addr p
  /\ _max_addr p' = _max_addr p /\ _gap p' = _gap p
  /\ _verify p' = _verify p /\ _verbose p' = _verbose p.

(** [p'] has the options of [p] and its segments, followed by segments
    of a size other than zero. *)
Definition extends (p p' : RecordParser.t) : Prop :=
  same_options p p'
  /\ exists added,
      _segments p' = (_segments p ++ added)%list
      /\ Forall (fun s => RecordSegment.size s <> 0) added.

(** Every value a generator yields satisfies [P]. *)
Fixpoint gen_all {A : Type} (P : A -> Prop) (g : gen A) : Prop :=
  match g with
  | GYield a rest => P a /\ gen_all P rest
  | _ => True
  end.

(** The address of the last EXECUTE record of a generator, [init] when
    it yields none. *)
Fixpoint last_exec (g : gen chunk) (init : option Z) : option Z :=
  match g with
  | GYield (EXECUTE, address, _) rest => last_exec rest (Some address)
  | GYield _ rest => last_exec rest init
  | _ => init
  end.

(** A record other than a header lies within the window of the parser. *)
Definition in_window (p : RecordParser.t) (c : chunk) : Prop :=
  let '(record, address, _) := c in
  record <> INFO ->
  _min_addr p <= address <= _max_addr p /\ _offset p <= address.

(** The segments stored and the open segment satisfy [Q]. *)
Definition segments_all (Q : RecordSegment.t -> Prop) (p : RecordParser.t)
  : Prop :=
  Forall Q (_segments p) /\ forall s, _seg p = Some s -> Q s.

(** Case analysis on the first call of a sequence that returned. *)
Ltac split_bind H x E :=
  match type of H with
  | bind ?c _ = _ =>
      destruct c as [x|] eqn:E; cbn [bind] in H; [|discriminate H]
  end.

(** [b'] holds the text of [b] followed by [s], with the same line
    separator. *)
Definition appended (b b' : RecordBuilder.t) (s : string) : Prop :=
  RecordBuilder._linesep b' = RecordBuilder._linesep b
  /\ RecordBuilder._buffer b' = (RecordBuilder._buffer b ++ s)%string.

(** [a] ends at or before the address [b] starts at. *)
Definition before (a b : RecordSegment.t) : Prop :=
  RecordSegment.baseaddr a + RecordSegment.size a <= RecordSegment.baseaddr b.

(** The size of the segment is above zero. *)
Definition holds_bytes (s : RecordSegment.t) : Prop :=
  0 < RecordSegment.size s.

(** In ascending order without overlap, every size above zero. *)
Definition ordered (l : list RecordSegment.t) : Prop :=
  StronglySorted before l /\ Forall holds_bytes l.

(** The image of segments laid out from the address [pos] on: the bytes
    of each segment at its address, the holes in between zero filled. *)
Fixpoint layout (pos : Z) (segments : list RecordSegment.t) : list byte :=
  match segments with
  | [] => []
  | s :: rest =>
      (repeat x00 (Z.to_nat (RecordSegment.baseaddr s - pos))
       ++ RecordSegment.data s
       ++ layout (RecordSegment.baseaddr s + Py.len (RecordSegment.data s))
                 rest)%list
  end.

(** The base address of the first segment of a list. *)
Definition first_base (segments : list RecordSegment.t) : Z :=
  match segments with
  | s :: _ => RecordSegment.baseaddr s
  | [] => 0
  end.

(** The bytes of [a] end at or before the address [b] starts at. *)
Definition data_before (a b : RecordSegment.t) : Prop :=
  RecordSegment.baseaddr a + Py.len (RecordSegment.data a)
  <= RecordSegment.baseaddr b.

(** The order [sorted] and [list.sort] are called with. *)
Definition by_base (a b : RecordSegment.t) : Prop :=
  RecordSegment.baseaddr a <= RecordSegment.baseaddr b.

(** A line that holds one Intel HEX record. *)
Definition record_line (l : string) : Prop :=
  exists type_ address d, l = ihex_line type_ address d.

(** The pieces of a text between line feeds that the pattern of the
    fast parser does not match. *)
Definition unmatched_pieces (text : list ascii) : list (list ascii) :=
  filter (fun piece => negb (IHexFastParser.HEXCRE_matches piece))
         (Py.split_lf text []).

(** The record lines [IHexBuilder] writes for data, for the upper half
    of the address, for a start address below 1 MiB and for the end of
    the file. *)
Inductive built_line : string -> Prop :=
| built_data (address : Z) (d : list byte) :
    0 <= address < 65536 -> Py.len d < 256 ->
    built_line (ihex_line 0 address d)
| built_linear (d0 d1 : byte) : built_line (ihex_line 4 0 [d0; d1])
| built_exec (d0 d1 d2 d3 : byte) :
    built_line (ihex_line 3 0 [d0; d1; d2; d3])
| built_eof : built_line eof_line.

(** The options of a parser but for the segment gap are the default
    ones, as far as the parse reads them. *)
Definition default_window (p : RecordParser.t) : Prop :=
  _verify p = true /\ _min_addr p = 0 /\ _max_addr p = 4294967295
  /\ _offset p = 0.

(** The segments the fast parser finds in a text, under the default
    options and a given segment gap. *)
Definition fast_segments (segment_gap : Z) (text : string)
  : result (list RecordSegment.t) :=
  p <- IHexFastParser.new true (StringIO text) 0 0 4294967295 segment_gap
                          false true ;;
  p <- IHexFastParser.parse p ;;
  Ok (IHexFastParser.get_data_segments p).

(** The execution address the fast parser finds, under the default
    options. *)
Definition fast_exec (is_term : bool) (inhex : stream) : result (option Z) :=
  parser <- IHexFastParser.new_default is_term inhex ;;
  parser <- IHexFastParser.parse parser ;;
  Ok (IHexFastParser.getexec parser).

(* ===================================================================== *)
(** * Properties *)
(* ===================================================================== *)

(** ** Segments *)

Section SegmentFacts.

Local Open Scope list_scope.

Lemma len_app (A : Type) (l1 l2 : list A) :
  Py.len (l1 ++ l2) = Py.len l1 + Py.len l2.
Proof. unfold Py.len. rewrite length_app. lia. Qed.

(** Writing at the address a fresh segment starts at stores the bytes. *)
Lemma write_new (addr : Z) (value : list byte) :
  RecordSegment.write (RecordSegment.new addr) value (Some addr)
  = Ok (segment_of addr value).
Proof.
  unfold RecordSegment.write, RecordSegment.write_with_size, segment_of.
  cbn [RecordSegment.new RecordSegment._baseaddr RecordSegment._size
       RecordSegment._buffer].
  rewrite Z.sub_diag. cbn [Z.eqb negb bind].
  destruct value as [|b value]; [reflexivity|].
  unfold BytesIO.write, BytesIO.new. cbn [BytesIO.buf BytesIO.pos].
  cbn [Z.to_nat firstn List.length Nat.sub repeat app].
  rewrite skipn_nil, app_nil_r. reflexivity.
Qed.

(** A write at the end of a buffer appends. *)
Lemma BytesIO_write_at_end (old value : list byte) :
  BytesIO.write (BytesIO.Make old (Py.len old)) value
  = BytesIO.Make (old ++ value) (Py.len (old ++ value)).
Proof.
  destruct value as [|b value].
  - rewrite app_nil_r. reflexivity.
  - unfold BytesIO.write. cbn [BytesIO.buf BytesIO.pos].
    rewrite len_app. f_equal.
    unfold Py.len. rewrite Nat2Z.id, firstn_all, Nat.sub_diag.
    cbn [repeat]. rewrite app_nil_r.
    rewrite skipn_all2 by lia. rewrite app_nil_r. reflexivity.
Qed.

(** Writing at the current end of a segment appends. *)
Lemma write_contiguous (baseaddr : Z) (old value : list byte) :
  RecordSegment.write (segment_of baseaddr old) value
                      (Some (baseaddr + Py.len old))
  = Ok (segment_of baseaddr (old ++ value)).
Proof.
  unfold RecordSegment.write, RecordSegment.write_with_size, segment_of.
  cbn [RecordSegment._baseaddr RecordSegment._size RecordSegment._buffer].
  replace (baseaddr + Py.len old - baseaddr) with (Py.len old) by lia.
  rewrite Z.eqb_refl. cbn [negb bind].
  rewrite BytesIO_write_at_end, len_app. reflexivity.
Qed.

End SegmentFacts.

(** C9 (as stated, refuted).  A write at an address other than the
    current end does not append: ahead of the end the hole is filled
    with zero bytes before the data, behind it earlier bytes are
    replaced and nothing is added. *)
Lemma write_elsewhere_is_not_append :
  let s := segment_of 0 (bytes_of_hex "01020304") in
  let value := bytes_of_hex "09" in
  (6 <> RecordSegment.absaddr s
   /\ exists s', RecordSegment.write s value (Some 6) = Ok s'
        /\ RecordSegment.data s' = bytes_of_hex "01020304000009"
        /\ RecordSegment.data s' <> (RecordSegment.data s ++ value)%list)
  /\ (1 <> RecordSegment.absaddr s
      /\ exists s', RecordSegment.write s value (Some 1) = Ok s'
        /\ RecordSegment.data s' = bytes_of_hex "01090304"
        /\ RecordSegment.data s' <> (RecordSegment.data s ++ value)%list).
Proof.
  cbv zeta. split; (split; [discriminate|]).
  - eexists; split; [vm_compute; reflexivity|].
    split; [reflexivity | vm_compute; discriminate].
  - eexists; split; [vm_compute; reflexivity|].
    split; [reflexivity | vm_compute; discriminate].
Qed.

(** C9 (amended).  A write at an address that differs from the current
    end first seeks to the offset of that address from the base: a
    negative offset raises [ValueError]; otherwise the segment keeps its
    base, its size becomes the offset plus the number of bytes written,
    and non-empty data is stored at that offset, after zero filling when
    the offset lies past the stored bytes and in place of whatever
    earlier bytes it covers. *)
Theorem write_at_offset :
  forall (s : RecordSegment.t) (value : list byte) (at_address : Z),
    at_address <> RecordSegment.absaddr s ->
    let off := at_address - RecordSegment.baseaddr s in
    (off < 0 ->
     raises (RecordSegment.write s value (Some at_address)) ValueError)
    /\ (0 <= off ->
        exists s',
          RecordSegment.write s value (Some at_address) = Ok s'
          /\ RecordSegment.baseaddr s' = RecordSegment.baseaddr s
          /\ RecordSegment.size s' = off + Py.len value
          /\ RecordSegment.data s' =
             match value with
             | [] => RecordSegment.data s
             | _ =>
                 (firstn (Z.to_nat off) (RecordSegment.data s)
                  ++ repeat x00 (Z.to_nat off
                                 - List.length (RecordSegment.data s))
                  ++ value
                  ++ skipn (Z.to_nat off + List.length value)
                           (RecordSegment.data s))%list
             end).
Proof.
  intros s value at_address Hne off. subst off.
  unfold RecordSegment.absaddr, RecordSegment.baseaddr in *.
  unfold RecordSegment.write, RecordSegment.write_with_size.
  assert (Hneq : (at_address - RecordSegment._baseaddr s
                  =? RecordSegment._size s) = false)
    by (apply Z.eqb_neq; lia).
  rewrite Hneq. cbn [negb]. unfold BytesIO.seek. split.
  - intros Hneg. apply Z.ltb_lt in Hneg. rewrite Hneg.
    eexists. reflexivity.
  - intros Hpos. apply Z.ltb_ge in Hpos. rewrite Hpos. cbn [bind].
    eexists. split; [reflexivity|].
    cbn [RecordSegment._baseaddr RecordSegment._size RecordSegment._buffer].
    split; [reflexivity|]. split.
    + unfold RecordSegment.size. cbn [RecordSegment._size]. lia.
    + unfold RecordSegment.data, BytesIO.getvalue.
      cbn [RecordSegment._buffer].
      destruct value as [|b value]; [reflexivity|].
      unfold BytesIO.write. cbn [BytesIO.buf BytesIO.pos].
      rewrite <- app_assoc. reflexivity.
Qed.

Lemma write_at_offset_witness :
  let s := segment_of 16 (bytes_of_hex "0102") in
  exists s',
    RecordSegment.write s (bytes_of_hex "AA") (Some 20) = Ok s'
    /\ RecordSegment.size s' = 5
    /\ RecordSegment.data s' = bytes_of_hex "01020000AA".
Proof.
  cbv zeta.
  destruct (write_at_offset (segment_of 16 (bytes_of_hex "0102"))
              (bytes_of_hex "AA") 20) as [_ H].
  - vm_compute. discriminate.
  - destruct (H ltac:(vm_compute; discriminate)) as (s' & Hw & _ & Hs & Hd).
    exists s'. split; [exact Hw|]. split; [exact Hs | exact Hd].
Defined.

(** ** Construction *)

(** C10.  Every parser constructor rejects a segment gap below one with
    [ValueError], and otherwise returns a parser that holds the stream
    exactly as it was given, position included. *)
Theorem segment_gap_checked_by_constructor :
  forall (is_term : bool) (src : stream)
         (offset min_addr max_addr segment_gap : Z) (verbose verify : bool),
    (segment_gap < 1 ->
     raises (RecordParser.new is_term src offset min_addr max_addr
                              segment_gap verbose verify) ValueError
     /\ raises (SRecParser.new is_term src offset min_addr max_addr
                               segment_gap verbose verify) ValueError
     /\ raises (TItxtParser.new is_term src offset min_addr max_addr
                                segment_gap verbose verify) ValueError
     /\ raises (IHexParser.new is_term src offset min_addr max_addr
                               segment_gap verbose verify) ValueError
     /\ raises (IHexFastParser.new is_term src offset min_addr max_addr
                                   segment_gap verbose verify) ValueError)
    /\ (1 <= segment_gap ->
        (exists p,
            RecordParser.new is_term src offset min_addr max_addr
                             segment_gap verbose verify = Ok p
            /\ SRecParser.new is_term src offset min_addr max_addr
                              segment_gap verbose verify = Ok p
            /\ TItxtParser.new is_term src offset min_addr max_addr
                               segment_gap verbose verify = Ok p
            /\ IHexParser.new is_term src offset min_addr max_addr
                              segment_gap verbose verify
               = Ok (IHexParser.Make p 0)
            /\ IHexFastParser.new is_term src offset min_addr max_addr
                                  segment_gap verbose verify
               = Ok (IHexFastParser.Make p 0)
            /\ _src p = src /\ _gap p = segment_gap
            /\ _segments p = [] /\ _seg p = None /\ _exec_addr p = None)).
Proof.
  intros. unfold IHexParser.new, IHexFastParser.new, SRecParser.new,
    TItxtParser.new, RecordParser.new. split.
  - intros H. apply Z.ltb_lt in H. rewrite H. cbn [bind].
    repeat split; eexists; reflexivity.
  - intros H. apply Z.ltb_ge in H. rewrite H. cbn [bind].
    eexists. repeat split.
Qed.

Lemma segment_gap_checked_by_constructor_witness :
  raises (IHexParser.new true (Stream ":00000001FF" 3) 0 0 4294967295 0
                         false true) ValueError
  /\ exists p, SRecParser.new true (Stream "S9030000FC" 3) 0 0 4294967295 1
                              false true = Ok p
               /\ _src p = Stream "S9030000FC" 3.
Proof.
  split.
  - apply (segment_gap_checked_by_constructor
             true (Stream ":00000001FF" 3) 0 0 4294967295 0 false true).
    lia.
  - destruct (segment_gap_checked_by_constructor
                true (Stream "S9030000FC" 3) 0 0 4294967295 1 false true)
      as [_ H].
    destruct (H ltac:(lia)) as (p & Hp & Hs & _ & _ & _ & Hsrc & _).
    exists p. split; [exact Hs | exact Hsrc].
Defined.

(** ** The open segment *)

Section OpenSegment.

Local Open Scope list_scope.

(** The first DATA record opens a segment at its address. *)
Lemma parse_record_opens (p : RecordParser.t) (address : Z)
  (value : list byte) :
  _seg p = None ->
  parse_record p DATA address value
  = Ok (set_seg p (Some (segment_of (address - _offset p) value))).
Proof.
  intros H. unfold parse_record. rewrite H. cbv beta iota zeta.
  rewrite H, write_new. reflexivity.
Qed.

Lemma store_segment_closes (p : RecordParser.t) :
  _seg (_store_segment p) = None.
Proof.
  unfold _store_segment. destruct p as [? ? ? ? ? ? ? ? ? [s|] ? ?]; cbn;
    [destruct (RecordSegment.size s =? 0)|]; reflexivity.
Qed.

Lemma store_segment_reopen (p : RecordParser.t) (s s' : RecordSegment.t) :
  _seg p = Some s ->
  set_seg (_store_segment p) (Some s')
  = set_seg (set_segments p (_segments p
                             ++ (if RecordSegment.size s =? 0 then []
                                 else [s])))
            (Some s').
Proof.
  unfold _store_segment. intros ->.
  destruct (RecordSegment.size s =? 0); destruct p; cbn;
    rewrite ?app_nil_r; reflexivity.
Qed.

Lemma parse_record_far (p : RecordParser.t) (s : RecordSegment.t)
  (address : Z) (value : list byte) :
  _seg p = Some s ->
  _gap p <= Z.abs (address - _offset p - RecordSegment.absaddr s) ->
  parse_record p DATA address value
  = Ok (set_seg
          (set_segments p (_segments p
                           ++ (if RecordSegment.size s =? 0 then []
                               else [s])))
          (Some (segment_of (address - _offset p) value))).
Proof.
  intros Hs Hfar. unfold parse_record. rewrite Hs.
  apply Z.leb_le in Hfar. rewrite Hfar. cbv beta iota zeta.
  rewrite store_segment_closes, write_new. cbn [bind].
  rewrite (store_segment_reopen p s _ Hs). reflexivity.
Qed.

Lemma parse_record_near (p : RecordParser.t) (s : RecordSegment.t)
  (address : Z) (value : list byte) :
  _seg p = Some s ->
  Z.abs (address - _offset p - RecordSegment.absaddr s) < _gap p ->
  parse_record p DATA address value
  = (s' <- RecordSegment.write s value (Some (address - _offset p)) ;;
     Ok (set_seg p (Some s'))).
Proof.
  intros Hs Hnear. unfold parse_record. rewrite Hs.
  apply Z.leb_gt in Hnear. rewrite Hnear. cbv beta iota zeta.
  rewrite Hs. reflexivity.
Qed.

(** A write at an address that is not before the start of the segment
    returns: the base is kept, the size becomes the offset of the
    address plus the number of bytes, and the bytes are written at that
    offset of the buffer. *)
Lemma write_from_start (s : RecordSegment.t) (value : list byte)
  (addr : Z) :
  RecordSegment.baseaddr s <= addr ->
  exists s',
    RecordSegment.write s value (Some addr) = Ok s'
    /\ RecordSegment.baseaddr s' = RecordSegment.baseaddr s
    /\ RecordSegment.size s'
       = addr - RecordSegment.baseaddr s + Py.len value
    /\ (addr = RecordSegment.absaddr s ->
        RecordSegment.data s'
        = BytesIO.getvalue
            (BytesIO.write (RecordSegment._buffer s) value))
    /\ (addr <> RecordSegment.absaddr s ->
        RecordSegment.data s'
        = BytesIO.getvalue
            (BytesIO.write
               (BytesIO.Make (BytesIO.buf (RecordSegment._buffer s))
                             (addr - RecordSegment.baseaddr s))
               value)).
Proof.
  unfold RecordSegment.baseaddr, RecordSegment.absaddr, RecordSegment.size,
    RecordSegment.data.
  intros Hb. unfold RecordSegment.write, RecordSegment.write_with_size.
  destruct (addr - RecordSegment._baseaddr s =? RecordSegment._size s)
    eqn:E; cbn [negb bind].
  - apply Z.eqb_eq in E. eexists. split; [reflexivity|].
    cbn [RecordSegment._baseaddr RecordSegment._size RecordSegment._buffer].
    split; [reflexivity|]. split; [lia|].
    split; [reflexivity | intros H; lia].
  - apply Z.eqb_neq in E. unfold BytesIO.seek.
    replace (addr - RecordSegment._baseaddr s <? 0) with false
      by (symmetry; apply Z.ltb_ge; lia).
    cbn [bind]. eexists. split; [reflexivity|].
    cbn [RecordSegment._baseaddr RecordSegment._size RecordSegment._buffer].
    split; [reflexivity|]. split; [lia|].
    split; [intros H; lia | reflexivity].
Qed.

Lemma parse_record_keeps_open (p p' : RecordParser.t) (address : Z)
  (value : list byte) :
  parse_record p DATA address value = Ok p' -> exists s', _seg p' = Some s'.
Proof.
  unfold parse_record. cbv zeta.
  match goal with
  | |- bind ?w _ = _ -> _ => destruct w as [s'|e]
  end; cbn [bind]; intros H; [|discriminate].
  injection H as <-. exists s'. reflexivity.
Qed.

(** The fast parser handles a data record as the loop of
    [RecordParser.parse] does. *)
Lemma fast_data_record (p : IHexFastParser.t) (group0 : string)
  (bvalues : list byte) (rsum b1 b2 : Z) :
  let data := Py.slice bvalues (Some 4) (Some (-1)) in
  Py.unhexlify (Py.str_slice group0 (Some 1) None) = Ok bvalues ->
  Py.getitem bvalues 0 = Ok (Py.len data) ->
  Py.getitem bvalues (-1) = Ok rsum ->
  Py.getitem bvalues 1 = Ok b1 ->
  Py.getitem bvalues 2 = Ok b2 ->
  Py.getitem bvalues 3 = Ok 0 ->
  (_verify (IHexFastParser.base p) = true ->
   rsum = Z.land (- Py.sum_bytes (Py.slice bvalues None (Some (-1)))) 255) ->
  IHexFastParser.match_step p group0
  = (b <- parse_record (IHexFastParser.base p) DATA
                       (Z.shiftl b1 8 + b2 + IHexFastParser._offset_addr p)
                       data ;;
     Ok (IHexFastParser.Make b (IHexFastParser._offset_addr p))).
Proof.
  cbv zeta. intros Hb H0 Hr H1 H2 H3 Hsum.
  unfold IHexFastParser.match_step. cbv zeta.
  rewrite Hb. cbn [bind]. rewrite H0, Hr. cbn [bind].
  rewrite Z.eqb_refl. cbn [negb].
  assert (Hcheck :
    (if _verify (IHexFastParser.base p)
     then
       if negb (rsum =? Z.land (- Py.sum_bytes
                                    (Py.slice bvalues None (Some (-1)))) 255)
       then raise IHexError "Invalid checksum: 0x%02x / 0x%02x"
       else Ok tt
     else Ok tt) = Ok tt).
  { destruct (_verify (IHexFastParser.base p)); [|reflexivity].
    rewrite <- (Hsum eq_refl), Z.eqb_refl. reflexivity. }
  rewrite Hcheck. cbn [bind]. rewrite H1, H2. cbn [bind].
  rewrite H3. cbn [bind Z.eqb negb]. rewrite andb_false_r. cbn [bind].
  unfold parse_record, RecordSegment.write.
  set (addr := Z.shiftl b1 8 + b2 + IHexFastParser._offset_addr p
               - _offset (IHexFastParser.base p)).
  destruct (_seg (IHexFastParser.base p)) as [s|] eqn:Hs.
  - replace (if addr - RecordSegment.absaddr s <? 0
             then - (addr - RecordSegment.absaddr s)
             else addr - RecordSegment.absaddr s)
      with (Z.abs (addr - RecordSegment.absaddr s)).
    + destruct (_gap (IHexFastParser.base p)
                <=? Z.abs (addr - RecordSegment.absaddr s)).
      * destruct (RecordSegment.write_with_size _ _ _ _); reflexivity.
      * rewrite Hs.
        destruct (RecordSegment.write_with_size _ _ _ _); reflexivity.
    + destruct (addr - RecordSegment.absaddr s <? 0) eqn:E.
      * apply Z.ltb_lt in E. lia.
      * apply Z.ltb_ge in E. lia.
  - rewrite Hs.
    destruct (RecordSegment.write_with_size _ _ _ _); reflexivity.
Qed.

End OpenSegment.




(** ** The merge driver *)

Section Merge.

Import mergehex.
Local Open Scope list_scope.

Lemma check_override_raises (segment : RecordSegment.t)
  (segments : list RecordSegment.t) :
  (exists seg,
      In seg segments
      /\ RecordSegment.baseaddr seg
         <= RecordSegment.baseaddr segment + RecordSegment.size segment
      /\ RecordSegment.baseaddr segment
         < RecordSegment.baseaddr seg + RecordSegment.size seg)
  <-> check_override segment segments
      = Raise (Exn RuntimeError "Segment override").
Proof.
  induction segments as [|seg rest IH]; cbn [check_override].
  - split; [intros (seg & [] & _) | discriminate].
  - destruct (RecordSegment.baseaddr seg
              <=? RecordSegment.baseaddr segment
                  + RecordSegment.size segment) eqn:Hle;
      destruct (RecordSegment.baseaddr segment
                <? RecordSegment.baseaddr seg + RecordSegment.size seg)
               eqn:Hlt; cbn [andb].
    + split; [reflexivity|]. intros _. exists seg.
      apply Z.leb_le in Hle. apply Z.ltb_lt in Hlt.
      split; [left; reflexivity | split; assumption].
    + rewrite <- IH. apply Z.ltb_ge in Hlt.
      split; intros (s & Hin & H1 & H2).
      * destruct Hin as [<-|Hin]; [lia|]. exists s. auto.
      * exists s. split; [right; exact Hin | auto].
    + rewrite <- IH. apply Z.leb_gt in Hle.
      split; intros (s & Hin & H1 & H2).
      * destruct Hin as [<-|Hin]; [lia|]. exists s. auto.
      * exists s. split; [right; exact Hin | auto].
    + rewrite <- IH. apply Z.leb_gt in Hle.
      split; intros (s & Hin & H1 & H2).
      * destruct Hin as [<-|Hin]; [lia|]. exists s. auto.
      * exists s. split; [right; exact Hin | auto].
Qed.

Variable is_term : bool.

Lemma merge_parsed_noexec (st e : option Z)
  (segs parsed : list RecordSegment.t) :
  merge_parsed true st segs e parsed
  = (segs' <- add_segments segs parsed ;; Ok (st, segs')).
Proof. unfold merge_parsed. destruct e; reflexivity. Qed.

Lemma merge_parsed_exec (st e : option Z)
  (segs parsed : list RecordSegment.t) :
  merge_parsed false st segs e parsed
  = match e, st with
    | Some a, Some s =>
        if s =? a then
          segs' <- add_segments segs parsed ;; Ok (Some a, segs')
        else Raise (Exn RuntimeError "Several start up address are defined")
    | Some a, None =>
        segs' <- add_segments segs parsed ;; Ok (Some a, segs')
    | None, _ => segs' <- add_segments segs parsed ;; Ok (st, segs')
    end.
Proof.
  unfold merge_parsed. destruct e as [a|], st as [s|]; cbn [negb];
    try reflexivity.
  destruct (s =? a); reflexivity.
Qed.

(** One turn of the loop over the inputs either fails while parsing or
    merges what the parser returned. *)
Lemma input_loop_head (noexec : bool) (st : option Z)
  (segs : list RecordSegment.t) (x : stream) (rest : list stream) :
  (exists e, input_loop is_term noexec st segs (x :: rest) = Raise e
             /\ exists e', parsed_exec is_term x = Raise e')
  \/ (exists e parsed,
         parsed_exec is_term x = Ok e
         /\ parsed_segments is_term x = Ok parsed
         /\ forall noexec st segs,
           input_loop is_term noexec st segs (x :: rest)
           = ('(st, segs) <- merge_parsed noexec st segs e parsed ;;
              input_loop is_term noexec st segs rest)).
Proof.
  unfold parsed_exec, parsed_segments. cbn [input_loop].
  destruct (IHexParser.new_default is_term x) as [p0|e0]; cbn [bind];
    [|left; eauto].
  destruct (IHexParser.parse p0) as [p|e1]; cbn [bind]; [|left; eauto].
  right. exists (IHexParser.getexec p), (IHexParser.get_data_segments p).
  repeat split; reflexivity.
Qed.

Lemma input_loop_step (x : stream) (rest : list stream) (e : option Z) :
  parsed_exec is_term x = Ok e ->
  exists parsed,
    parsed_segments is_term x = Ok parsed
    /\ forall noexec st segs,
      input_loop is_term noexec st segs (x :: rest)
      = ('(st, segs) <- merge_parsed noexec st segs e parsed ;;
         input_loop is_term noexec st segs rest).
Proof.
  intros He.
  destruct (input_loop_head false None [] x rest)
    as [(e0 & _ & e' & H)|(e1 & parsed & H & Hp & Hstep)].
  - rewrite He in H. discriminate.
  - rewrite He in H. injection H as <-. exists parsed. auto.
Qed.

(** Once a start address is recorded, a later input that defines another
    one stops the merge. *)
Lemma conflict_after_start (inputs : list stream) :
  forall (a : Z) (segs : list RecordSegment.t) (y : stream) (b : Z),
    In y inputs -> parsed_exec is_term y = Ok (Some b) -> a <> b ->
    is_ok (input_loop is_term false (Some a) segs inputs) = false.
Proof.
  induction inputs as [|x rest IH]; intros a segs y b Hin Hy Hab;
    [destruct Hin|].
  destruct (input_loop_head false (Some a) segs x rest)
    as [(e0 & -> & _)|(e & parsed & He & _ & Hstep)]; [reflexivity|].
  rewrite Hstep, merge_parsed_exec.
  destruct e as [c|].
  - destruct (a =? c) eqn:Hac; [|reflexivity].
    apply Z.eqb_eq in Hac. subst c.
    destruct (add_segments segs parsed) as [segs'|e']; cbn [bind];
      [|reflexivity].
    destruct Hin as [->|Hin].
    + rewrite He in Hy. injection Hy as ->. contradiction.
    + eapply IH; eassumption.
  - destruct (add_segments segs parsed) as [segs'|e']; cbn [bind];
      [|reflexivity].
    destruct Hin as [->|Hin].
    + rewrite He in Hy. discriminate.
    + eapply IH; eassumption.
Qed.

Lemma conflict_stops_merge (pre mid post : list stream) (x y : stream)
  (a b : Z) :
  parsed_exec is_term x = Ok (Some a) ->
  parsed_exec is_term y = Ok (Some b) ->
  a <> b ->
  forall (st : option Z) (segs : list RecordSegment.t),
    is_ok (input_loop is_term false st segs
                      (pre ++ x :: mid ++ y :: post)) = false.
Proof.
  intros Hx Hy Hab. induction pre as [|z pre IH]; intros st segs.
  - cbn [app]. destruct (input_loop_step x (mid ++ y :: post) _ Hx)
      as (parsed & _ & Hstep).
    rewrite Hstep, merge_parsed_exec.
    assert (Hgo : forall segs',
               is_ok (input_loop is_term false (Some a) segs'
                                 (mid ++ y :: post)) = false).
    { intros segs'. apply (conflict_after_start _ a segs' y b); auto.
      apply in_or_app. right. left. reflexivity. }
    destruct st as [s|].
    + destruct (s =? a); [|reflexivity].
      destruct (add_segments segs parsed); cbn [bind]; [apply Hgo|reflexivity].
    + destruct (add_segments segs parsed); cbn [bind]; [apply Hgo|reflexivity].
  - cbn [app].
    destruct (input_loop_head false st segs z
                              (pre ++ x :: mid ++ y :: post))
      as [(e0 & -> & _)|(e & parsed & He & _ & Hstep)]; [reflexivity|].
    rewrite Hstep.
    destruct (merge_parsed false st segs e parsed) as [[st' segs']|e'];
      cbn [bind]; [apply IH | reflexivity].
Qed.

(** When every address defined is [a], the checks on execution addresses
    never fire, and [a] is recorded once it has been met. *)
Lemma same_exec_after_start (a : Z) (inputs : list stream) :
  (forall x, In x inputs ->
             parsed_exec is_term x = Ok None
             \/ parsed_exec is_term x = Ok (Some a)) ->
  forall (st0 r0 : option Z) (segs segs' : list RecordSegment.t),
    input_loop is_term true st0 segs inputs = Ok (r0, segs') ->
    input_loop is_term false (Some a) segs inputs = Ok (Some a, segs').
Proof.
  induction inputs as [|x rest IH]; intros Hall st0 r0 segs segs' Hrun.
  - cbn in *. injection Hrun as _ <-. reflexivity.
  - destruct (Hall x (or_introl eq_refl)) as [Hx|Hx];
      destruct (input_loop_step x rest _ Hx) as (parsed & _ & Hstep);
      rewrite Hstep in Hrun |- *;
      rewrite merge_parsed_noexec in Hrun; rewrite merge_parsed_exec;
      rewrite ?Z.eqb_refl;
      destruct (add_segments segs parsed) as [segs1|e1]; cbn [bind] in *;
      try discriminate;
      (eapply IH; [intros z Hz; apply Hall; right; exact Hz | exact Hrun]).
Qed.

Lemma same_exec_merges (a : Z) (inputs : list stream) :
  (forall x, In x inputs ->
             parsed_exec is_term x = Ok None
             \/ parsed_exec is_term x = Ok (Some a)) ->
  (exists x, In x inputs /\ parsed_exec is_term x = Ok (Some a)) ->
  forall (st0 r0 : option Z) (segs segs' : list RecordSegment.t),
    input_loop is_term true st0 segs inputs = Ok (r0, segs') ->
    input_loop is_term false None segs inputs = Ok (Some a, segs').
Proof.
  induction inputs as [|x rest IH]; intros Hall (y & Hin & Hy)
    st0 r0 segs segs' Hrun; [destruct Hin|].
  assert (Hrest : forall z, In z rest ->
             parsed_exec is_term z = Ok None
             \/ parsed_exec is_term z = Ok (Some a))
    by (intros z Hz; apply Hall; right; exact Hz).
  destruct (Hall x (or_introl eq_refl)) as [Hx|Hx];
    destruct (input_loop_step x rest _ Hx) as (parsed & _ & Hstep);
    rewrite Hstep in Hrun |- *;
    rewrite merge_parsed_noexec in Hrun; rewrite merge_parsed_exec;
    destruct (add_segments segs parsed) as [segs1|e1]; cbn [bind] in *;
    try discriminate.
  - destruct Hin as [->|Hin]; [rewrite Hx in Hy; discriminate|].
    eapply IH; [exact Hrest | exists y; auto | exact Hrun].
  - eapply same_exec_after_start; [exact Hrest | exact Hrun].
Qed.

End Merge.

(** C5.  The overlap test of the merge driver, evaluated.  A candidate is
    refused when some accepted segment starts at or below the candidate's
    end and ends above its start.  The images [0x1000, 0x1010) and
    [0x1008, 0x1020) are refused in either order.  The adjacent images
    [0x0000, 0x0010) and [0x0010, 0x0020), which share no address, merge
    when the lower one comes first and are refused with "Segment
    override" when the upper one comes first. *)
Theorem adjacent_segments_refused_in_one_order :
  (forall (segment : RecordSegment.t) (segments : list RecordSegment.t),
      (exists seg,
          In seg segments
          /\ RecordSegment.baseaddr seg
             <= RecordSegment.baseaddr segment + RecordSegment.size segment
          /\ RecordSegment.baseaddr segment
             < RecordSegment.baseaddr seg + RecordSegment.size seg)
      <-> mergehex.check_override segment segments
          = Raise (Exn RuntimeError "Segment override"))
  /\ mergehex.main Py.LF true false false [hex_1000_1010; hex_1008_1020]
     = Raise (Exn RuntimeError "Segment override")
  /\ mergehex.main Py.LF true false false [hex_1008_1020; hex_1000_1010]
     = Raise (Exn RuntimeError "Segment override")
  /\ (forall a : Z, ~ (0 <= a < 16 /\ 16 <= a < 32))
  /\ (exists m,
         mergehex.main Py.LF true false false [hex_0000_0010; hex_0010_0020]
         = Ok m
         /\ map extent (mergehex.merged_segments m) = [(0, 16); (16, 32)])
  /\ mergehex.main Py.LF true false false [hex_0010_0020; hex_0000_0010]
     = Raise (Exn RuntimeError "Segment override").
Proof.
  split; [exact check_override_raises|].
  split; [vm_compute; reflexivity|].
  split; [vm_compute; reflexivity|].
  split; [intros a; lia|].
  split; [|vm_compute; reflexivity].
  eexists. split; vm_compute; reflexivity.
Qed.

(** ** The three formats *)

Section Formats.

Local Open Scope list_scope.

Lemma range0_pos (stop : Z) :
  0 < stop -> exists rest, Py.range0 stop 16 = 0 :: rest.
Proof.
  intros H. unfold Py.range0.
  assert (Hq : 1 <= (stop + 16 - 1) / 16)
    by (apply Z.div_le_lower_bound; lia).
  destruct (Z.to_nat ((stop + 16 - 1) / 16)) as [|k] eqn:Hk; [lia|].
  cbn [seq map]. eexists. reflexivity.
Qed.

(** The S-Record builder raises on the first chunk of any segment that
    holds data. *)
Lemma SRecBuilder_data_raises (offset baseaddr : Z) (b : byte)
  (data : list byte) :
  SRecBuilder._create_data offset (segment_of baseaddr (b :: data))
  = GThrow (Exn TypeError "can only concatenate str (not 'bytes') to str").
Proof.
  unfold SRecBuilder._create_data.
  cbn [RecordSegment.data segment_of BytesIO.getvalue RecordSegment._buffer
       BytesIO.buf].
  destruct (range0_pos (Py.len (b :: data))) as [rest ->].
  { unfold Py.len. cbn [List.length]. lia. }
  match goal with
  | |- (let '(_, _) := ?c in _) = _ => destruct c as [digit width]
  end.
  reflexivity.
Qed.

(** What the Intel HEX line parser makes of a line whose record type
    reads 0 does not depend on the address bounds. *)
Lemma ihex_data_line_ignores_bounds (p : RecordParser.t)
  (min_addr max_addr offset_addr : Z) (line : string) :
  Py.int (Py.str_slice (Py.strip line) (Some 7) (Some 9)) 10 = Ok 0 ->
  IHexParser.line_step (set_bounds p min_addr max_addr) offset_addr line
  = IHexParser.line_step p offset_addr line.
Proof.
  intros Hrec. unfold IHexParser.line_step. cbv zeta.
  rewrite Hrec.
  destruct (Py.str_len (Py.strip line) <? 5); [reflexivity|].
  destruct (negb (first_char_is (Py.strip line) 58)); [reflexivity|].
  destruct (Py.int (Py.str_slice (Py.strip line) (Some 1) (Some 3)) 16)
    as [size|e]; [|reflexivity].
  destruct (Py.int (Py.str_slice (Py.strip line) (Some 3) (Some 7)) 16)
    as [address|e]; [|reflexivity].
  cbn [bind Z.eqb].
  destruct (Py.unhexlify (Py.str_slice (Py.strip line) (Some 9) (Some (-2))))
    as [bytes_|e]; [|reflexivity].
  cbn [bind].
  destruct (negb (size =? Py.len bytes_)); [reflexivity|].
  cbn [set_bounds _verify negb]. rewrite andb_false_r. reflexivity.
Qed.

Lemma verify_address_ok (p : RecordParser.t) (address : Z) (u : unit) :
  _verify_address p address = Ok u ->
  _min_addr p <= address <= _max_addr p /\ _offset p <= address.
Proof.
  unfold _verify_address.
  destruct (address <? _min_addr p) eqn:H1; [discriminate|].
  destruct (_max_addr p <? address) eqn:H2; [discriminate|].
  destruct (address <? _offset p) eqn:H3; [discriminate|].
  intros _. apply Z.ltb_ge in H1, H2, H3. lia.
Qed.

(** Case analysis on the first call of a sequence that returned. *)
Tactic Notation "split_result" hyp(H) "as" ident(x) ident(E) :=
  match type of H with
  | bind ?c _ = _ =>
      destruct c as [x|] eqn:E; cbn [bind] in H; [|discriminate H]
  end.

(** With verification enabled, a DATA record that the S-Record line
    parser yields lies within the bounds. *)
Lemma srec_data_in_bounds (p : RecordParser.t) (line : string)
  (address : Z) (value : list byte) :
  _verify p = true ->
  SRecParser.line_step p tt line = Ok (Emit tt (DATA, address, value)) ->
  _min_addr p <= address <= _max_addr p.
Proof.
  intros Hv H. unfold SRecParser.line_step in H. cbv zeta in H.
  rewrite Hv in H.
  destruct (Py.str_len (Py.strip line) <? 5); [discriminate|].
  destruct (negb (first_char_is (Py.strip line) 83)); [discriminate|].
  split_result H as record Erec.
  split_result H as kind Ekind.
  destruct kind as [[addrend a] type_].
  split_result H as bytes_ Ebytes.
  split_result H as size Esize.
  destruct (negb (size =? Py.len bytes_)); [discriminate|].
  split_result H as u Esum.
  assert (Hdata : type_ = DATA -> record <> 0).
  { intros ->. repeat match type of Ekind with
      | (if ?c then _ else _) = _ => destruct c eqn:?
      | bind ?c _ = _ => destruct c; cbn [bind] in Ekind
      end; try discriminate; lia. }
  cbn [andb] in H.
  destruct (negb (record =? 0)) eqn:Hz.
  - split_result H as v Everify. injection H as H1 H2 H3. subst.
    apply verify_address_ok in Everify. tauto.
  - injection H as H1 H2 H3. subst.
    apply Bool.negb_false_iff, Z.eqb_eq in Hz.
    elim (Hdata eq_refl). exact Hz.
Qed.

(** A DATA record that the TI-txt line parser yields lies within the
    bounds. *)
Lemma titxt_data_in_bounds (p : RecordParser.t) (st st' : option Z)
  (line : string) (address : Z) (value : list byte) :
  TItxtParser.line_step p st line = Ok (Emit st' (DATA, address, value)) ->
  _min_addr p <= address <= _max_addr p.
Proof.
  intros H. unfold TItxtParser.line_step in H. cbv zeta in H.
  destruct (first_char_is (Py.strip line) 64).
  - split_result H as a Ea. discriminate.
  - destruct (String.eqb (Py.strip line) "q"); [discriminate|].
    split_result H as bytes_ Ebytes. destruct st as [a0|]; [|discriminate].
    split_result H as v Everify. injection H as H1 H2 H3. subst.
    apply verify_address_ok in Everify. tauto.
Qed.

Lemma length_list_ascii (s : string) :
  List.length (list_ascii_of_string s) = String.length s.
Proof.
  induction s as [|c s IH]; cbn; [reflexivity | rewrite IH; reflexivity].
Qed.

Lemma short_line_has_no_type (s : string) (v : Z) :
  (Py.str_len s <? 5) = true ->
  Py.int (Py.str_slice s (Some 7) (Some 9)) 10 <> Ok v.
Proof.
  intros Hlen. apply Z.ltb_lt in Hlen. unfold Py.str_len in Hlen.
  assert (Hs : Py.str_slice s (Some 7) (Some 9) = EmptyString).
  { unfold Py.str_slice, Py.slice, Py.clamp. cbn [Z.ltb Z.compare].
    rewrite length_list_ascii.
    rewrite !Z.min_r by lia. rewrite Z.sub_diag. reflexivity. }
  rewrite Hs. discriminate.
Qed.

(** The line parser rejects every line whose record type reads 5. *)
Lemma ihex_type5_line_unsupported (p : RecordParser.t) (offset_addr : Z)
  (line : string) (size address : Z) :
  first_char_is (Py.strip line) 58 = true ->
  Py.int (Py.str_slice (Py.strip line) (Some 1) (Some 3)) 16 = Ok size ->
  Py.int (Py.str_slice (Py.strip line) (Some 3) (Some 7)) 16 = Ok address ->
  Py.int (Py.str_slice (Py.strip line) (Some 7) (Some 9)) 10 = Ok 5 ->
  IHexParser.line_step p offset_addr line
  = Raise (Exn IHexError "Unsupported IHEX record: %d").
Proof.
  intros Hc Hsize Haddr Hrec. unfold IHexParser.line_step. cbv zeta.
  destruct (Py.str_len (Py.strip line) <? 5) eqn:Hlen.
  - elim (short_line_has_no_type _ 5 Hlen). exact Hrec.
  - rewrite Hc, Hsize, Haddr, Hrec. reflexivity.
Qed.

(** The fast parser, when it does not raise on a match whose record type
    is 5, leaves its whole state as it was. *)
Lemma fast_type5_match_changes_nothing (p : IHexFastParser.t)
  (group0 : string) (bvalues : list byte) (q : IHexFastParser.t) :
  Py.unhexlify (Py.str_slice group0 (Some 1) None) = Ok bvalues ->
  Py.getitem bvalues 3 = Ok 5 ->
  IHexFastParser.match_step p group0 = Ok q ->
  q = p.
Proof.
  intros Hb Hrec H. unfold IHexFastParser.match_step in H. cbv zeta in H.
  rewrite Hb in H. cbn [bind] in H.
  split_result H as size Esize.
  split_result H as rsum Ersum.
  destruct (negb (Py.len (Py.slice bvalues (Some 4) (Some (-1))) =? size));
    [discriminate|].
  split_result H as u Esum.
  split_result H as b1 E1.
  split_result H as b2 E2.
  rewrite Hrec in H. cbn [bind] in H.
  split_result H as v Everify.
  cbn [Z.eqb] in H. injection H as <-. reflexivity.
Qed.

Lemma byte_chars_plain (b : byte) :
  exists c1 c2, byte_chars b = [c1; c2] /\ plain_char c1 /\ plain_char c2.
Proof.
  destruct b; do 2 eexists; (split; [vm_compute; reflexivity|]);
    split; repeat split; reflexivity.
Qed.

Lemma list_ascii_app (s1 s2 : string) :
  list_ascii_of_string (s1 ++ s2)
  = list_ascii_of_string s1 ++ list_ascii_of_string s2.
Proof.
  induction s1 as [|c s1 IH]; cbn; [reflexivity | rewrite IH; reflexivity].
Qed.

Lemma chunk_line_chars (b : byte) (chunk : list byte) :
  list_ascii_of_string (TItxtBuilder.chunk_line (b :: chunk))
  = line_chars b chunk.
Proof.
  unfold TItxtBuilder.chunk_line, Py.upper. cbv zeta.
  rewrite list_ascii_of_string_of_list_ascii.
  revert b. induction chunk as [|b' rest IH]; intros b.
  - reflexivity.
  - cbn [map Py.join line_chars] in *.
    rewrite !list_ascii_app, !map_app. cbn [list_ascii_of_string map app].
    rewrite <- IH. reflexivity.
Qed.

Lemma line_chars_ascii (chunk : list byte) :
  forall b, existsb (fun c => 128 <=? Py.code c) (line_chars b chunk) = false.
Proof.
  induction chunk as [|b' rest IH]; intros b; cbn [line_chars];
    destruct (byte_chars_plain b) as (c1 & c2 & -> & (_ & H1 & _) & (_ & H2 & _)).
  - cbn [existsb]. rewrite H1, H2. reflexivity.
  - cbn [existsb app]. rewrite H1, H2, IH. reflexivity.
Qed.

Lemma line_chars_last (chunk : list byte) :
  forall b, exists init c,
    line_chars b chunk = init ++ [c] /\ Py.isspace c = false.
Proof.
  induction chunk as [|b' rest IH]; intros b; cbn [line_chars];
    destruct (byte_chars_plain b) as (c1 & c2 & -> & _ & (H2 & _)).
  - exists [c1], c2. split; [reflexivity | exact H2].
  - destruct (IH b') as (init & c & -> & Hc).
    exists ([c1; c2] ++ " "%char :: init), c.
    split; [|exact Hc]. cbn [app]. reflexivity.
Qed.

Lemma strip_plain (c d : ascii) (l init : list ascii) :
  Py.isspace c = false -> Py.isspace d = false ->
  c :: l = init ++ [d] ->
  rev (Py.lstrip (rev (Py.lstrip (c :: l)))) = c :: l.
Proof.
  intros Hc Hd Heq. cbn [Py.lstrip]. rewrite Hc, Heq, rev_app_distr.
  cbn [rev app Py.lstrip]. rewrite Hd.
  change (d :: rev init) with (rev [d] ++ rev init).
  rewrite <- rev_app_distr, rev_involutive. reflexivity.
Qed.

(** The TI-txt line parser raises on every line the TI-txt builder
    yields for a chunk of two bytes or more. *)
Lemma titxt_chunk_line_rejected (p : RecordParser.t) (st : option Z)
  (b1 b2 : byte) (chunk : list byte) :
  exists msg,
    TItxtParser.line_step p st (TItxtBuilder.chunk_line (b1 :: b2 :: chunk))
    = Raise (Exn binascii_Error msg).
Proof.
  set (line := TItxtBuilder.chunk_line (b1 :: b2 :: chunk)).
  assert (Hchars : list_ascii_of_string line = line_chars b1 (b2 :: chunk))
    by apply chunk_line_chars.
  cbn [line_chars] in Hchars.
  destruct (byte_chars_plain b1)
    as (c1 & c2 & Hb1 & (Hs1 & Ha1 & Hat) & (_ & Ha2 & _)).
  rewrite Hb1 in Hchars. cbn [app] in Hchars.
  assert (Hstrip : Py.strip line = line).
  { unfold Py.strip.
    destruct (line_chars_last (b2 :: chunk) b1) as (init & d & Hlast & Hd).
    cbn [line_chars] in Hlast. rewrite Hb1 in Hlast. cbn [app] in Hlast.
    rewrite Hchars, (strip_plain c1 d _ init Hs1 Hd Hlast), <- Hchars.
    apply string_of_list_ascii_of_string. }
  assert (Hline : line = string_of_list_ascii
                           (c1 :: c2 :: " "%char :: line_chars b2 chunk)).
  { rewrite <- Hchars. symmetry. apply string_of_list_ascii_of_string. }
  unfold TItxtParser.line_step. cbv zeta. rewrite Hstrip.
  assert (Hfirst : first_char_is line 64 = false).
  { rewrite Hline. cbn [string_of_list_ascii first_char_is]. exact Hat. }
  assert (Hq : String.eqb line "q" = false).
  { rewrite Hline. cbn [string_of_list_ascii String.eqb].
    destruct (Ascii.eqb c1 "q"); reflexivity. }
  rewrite Hfirst, Hq.
  unfold Py.unhexlify. cbv zeta. rewrite Hchars.
  cbn [existsb]. rewrite Ha1, Ha2, line_chars_ascii. cbn [orb].
  change (128 <=? Py.code " ") with false. cbn [orb bind].
  destruct (Z.odd _); [eexists; reflexivity|].
  assert (Hnone : Py.unhex_pairs
                    (c1 :: c2 :: " "%char :: line_chars b2 chunk) = None).
  { destruct (line_chars_last chunk b2) as (init & d & Hlast & _).
    destruct (line_chars b2 chunk) as [|x rest] eqn:Hx.
    - destruct init; discriminate.
    - cbn [Py.unhex_pairs].
      change (Py.digit_val " ") with (@None Z).
      destruct (Py.digit_val c1), (Py.digit_val c2); reflexivity. }
  rewrite Hnone. eexists. reflexivity.
Qed.

End Formats.

(** ** The Intel HEX round trip *)

Section IntelHexRoundTrip.

Local Open Scope list_scope.

(** *** Hexadecimal text *)

Lemma byte_val_of (v : Z) : 0 <= v < 256 -> Py.byte_val (Py.byte_of v) = v.
Proof.
  intros Hv. unfold Py.byte_val, Py.byte_of.
  destruct (Byte.of_N (Z.to_N v)) as [b|] eqn:E.
  - apply Byte.to_of_N in E. rewrite E. lia.
  - apply Byte.of_N_None_iff in E. lia.
Qed.

Lemma byte_of_val (b : byte) : Py.byte_of (Py.byte_val b) = b.
Proof.
  unfold Py.byte_val, Py.byte_of. rewrite N2Z.id, Byte.of_to_N. reflexivity.
Qed.

Lemma byte_val_range (b : byte) : 0 <= Py.byte_val b < 256.
Proof.
  unfold Py.byte_val. pose proof (Byte.to_N_bounded b). lia.
Qed.

Lemma fmt2_chars (v : Z) :
  0 <= v < 256 ->
  map Py.upper_char (list_ascii_of_string (Py.fmt_hex 2 true v))
  = byte_chars (Py.byte_of v)
  /\ hex_of (list_ascii_of_string (Py.fmt_hex 2 true v)) [Py.byte_of v].
Proof.
  intros Hv. rewrite <- (byte_val_of v Hv). generalize (Py.byte_of v).
  intros b. rewrite byte_of_val.
  destruct b; (split; [|split]); vm_compute; reflexivity.
Qed.

Lemma byte_chars_hex (b : byte) :
  hex_of (byte_chars b) [b]
  /\ map Py.upper_char (lower_chars b) = byte_chars b
  /\ hex_of (lower_chars b) [b]
  /\ Py.int (string_of_list_ascii (byte_chars b)) 16 = Ok (Py.byte_val b)
  /\ existsb (fun c => (Py.code c =? 10) || Py.isspace c) (byte_chars b)
     = false.
Proof.
  destruct b; repeat split; vm_compute; reflexivity.
Qed.

Lemma unhex_pairs_app (b1 : list byte) :
  forall l1, Py.unhex_pairs l1 = Some b1 ->
  forall l2 b2, Py.unhex_pairs l2 = Some b2 ->
  Py.unhex_pairs (l1 ++ l2) = Some (b1 ++ b2).
Proof.
  induction b1 as [|x t IH]; intros l1 H1 l2 b2 H2.
  - destruct l1 as [|h [|lo r]]; cbn [Py.unhex_pairs] in H1;
      [exact H2 | discriminate|].
    destruct (Py.digit_val h), (Py.digit_val lo), (Py.unhex_pairs r);
      try discriminate.
    destruct ((z <? 16) && (z0 <? 16)); discriminate.
  - destruct l1 as [|h [|lo r]]; cbn [Py.unhex_pairs] in H1;
      [discriminate | discriminate|].
    cbn [app Py.unhex_pairs].
    destruct (Py.digit_val h), (Py.digit_val lo); try discriminate;
      destruct (Py.unhex_pairs r) as [t'|] eqn:Hr; try discriminate.
    destruct ((z <? 16) && (z0 <? 16)); [|discriminate].
    injection H1 as <- <-. rewrite (IH r Hr l2 b2 H2). reflexivity.
Qed.

Lemma hex_of_app (l1 l2 : list ascii) (b1 b2 : list byte) :
  hex_of l1 b1 -> hex_of l2 b2 -> hex_of (l1 ++ l2) (b1 ++ b2).
Proof.
  intros [H1 A1] [H2 A2]. split.
  - eapply unhex_pairs_app; eassumption.
  - rewrite existsb_app, A1, A2. reflexivity.
Qed.

Lemma hex_of_nil : hex_of [] [].
Proof. split; reflexivity. Qed.

Lemma hex_of_hex_chars (data : list byte) : hex_of (hex_chars data) data.
Proof.
  induction data as [|b data IH]; [exact hex_of_nil|].
  change (hex_of (byte_chars b ++ hex_chars data) ([b] ++ data)).
  apply hex_of_app; [apply byte_chars_hex | exact IH].
Qed.

Lemma hex_of_lower (data : list byte) :
  hex_of (flat_map lower_chars data) data.
Proof.
  induction data as [|b data IH]; [exact hex_of_nil|].
  change (hex_of (lower_chars b ++ flat_map lower_chars data) ([b] ++ data)).
  apply hex_of_app; [apply byte_chars_hex | exact IH].
Qed.

Lemma hex_of_length (bs : list byte) :
  forall l, Py.unhex_pairs l = Some bs ->
            List.length l = (2 * List.length bs)%nat.
Proof.
  induction bs as [|x t IH]; intros l H.
  - destruct l as [|h [|lo r]]; cbn [Py.unhex_pairs] in H;
      [reflexivity | discriminate|].
    destruct (Py.digit_val h), (Py.digit_val lo), (Py.unhex_pairs r);
      try discriminate.
    destruct ((z <? 16) && (z0 <? 16)); discriminate.
  - destruct l as [|h [|lo r]]; cbn [Py.unhex_pairs] in H;
      [discriminate | discriminate|].
    destruct (Py.digit_val h), (Py.digit_val lo); try discriminate;
      destruct (Py.unhex_pairs r) as [t'|] eqn:Hr; try discriminate.
    destruct ((z <? 16) && (z0 <? 16)); [|discriminate].
    injection H as _ <-. cbn [List.length]. rewrite (IH r Hr). lia.
Qed.

Lemma hex_of_unhexlify (l : list ascii) (bs : list byte) :
  hex_of l bs -> Py.unhexlify (string_of_list_ascii l) = Ok bs.
Proof.
  intros [H A]. unfold Py.unhexlify. cbv zeta.
  rewrite list_ascii_of_string_of_list_ascii, A, H.
  unfold Py.len. rewrite (hex_of_length bs l H).
  replace (Z.odd (Z.of_nat (2 * List.length bs))) with false; [reflexivity|].
  symmetry. rewrite Nat2Z.inj_mul. change (Z.of_nat 2) with 2.
  rewrite Z.odd_mul. reflexivity.
Qed.

Lemma hex_chars_length (data : list byte) :
  List.length (hex_chars data) = (2 * List.length data)%nat.
Proof. apply hex_of_length, hex_of_hex_chars. Qed.

Lemma hex_chars_app (d1 d2 : list byte) :
  hex_chars (d1 ++ d2) = hex_chars d1 ++ hex_chars d2.
Proof. apply flat_map_app. Qed.

Lemma hex_digits_acc (fuel : nat) (upper : bool) :
  forall n acc,
    Py.hex_digits fuel upper n acc = Py.hex_digits fuel upper n [] ++ acc.
Proof.
  induction fuel as [|f IH]; intros n acc; [reflexivity|].
  cbn [Py.hex_digits]. cbv zeta.
  destruct (n / 16 =? 0); [reflexivity|].
  rewrite (IH _ (_ :: acc)), (IH _ [_]), <- app_assoc. reflexivity.
Qed.

Lemma digs_zero (k : nat) : digs k 0 = repeat "0"%char k.
Proof.
  induction k as [|k IH]; [reflexivity|].
  cbn [digs]. change (0 / 16) with 0. rewrite IH.
  change (Py.hexdigit true (0 mod 16)) with "0"%char.
  change ["0"%char] with (repeat "0"%char 1).
  rewrite <- repeat_app. f_equal. lia.
Qed.

Lemma digs_length (k : nat) : forall n, List.length (digs k n) = k.
Proof.
  induction k as [|k IH]; intros n; [reflexivity|].
  cbn [digs]. rewrite length_app, IH. cbn. lia.
Qed.

Lemma hex_digits_padded (k : nat) :
  forall (fuel : nat) (n : Z),
    (1 <= k)%nat ->
    0 <= n < 16 ^ Z.of_nat k -> n < 16 ^ Z.of_nat fuel -> (1 <= fuel)%nat ->
    let ds := Py.hex_digits fuel true n [] in
    repeat "0"%char (k - List.length ds) ++ ds = digs k n
    /\ (List.length ds <= Nat.max k 1)%nat.
Proof.
  induction k as [|k IH]; intros fuel n Hk Hn Hf H1; cbv zeta; [lia|].
  - destruct fuel as [|f]; [lia|].
    cbn [Py.hex_digits digs]. cbv zeta.
    destruct (n / 16 =? 0) eqn:E.
    + apply Z.eqb_eq in E. rewrite E, digs_zero. cbn [List.length].
      replace (S k - 1)%nat with k by lia. split; [reflexivity | lia].
    + apply Z.eqb_neq in E.
      rewrite Nat2Z.inj_succ, Z.pow_succ_r in Hn, Hf by lia.
      assert (Hq : 0 <= n / 16 < 16 ^ Z.of_nat k)
        by (split; [apply Z.div_pos; lia
                   | apply Z.div_lt_upper_bound; lia]).
      assert (Hq' : n / 16 < 16 ^ Z.of_nat f)
        by (apply Z.div_lt_upper_bound; lia).
      assert (Hf1 : (1 <= f)%nat).
      { destruct f; [|lia]. change (16 ^ Z.of_nat 0) with 1 in Hq'. lia. }
      assert (Hk1 : (1 <= k)%nat).
      { destruct k; [|lia]. change (16 ^ Z.of_nat 0) with 1 in Hq. lia. }
      destruct (IH f (n / 16) Hk1 Hq Hq' Hf1) as [Hpad Hlen].
      rewrite hex_digits_acc, length_app. cbn [List.length].
      replace (S k - (List.length (Py.hex_digits f true (n / 16) []) + 1))%nat
        with (k - List.length (Py.hex_digits f true (n / 16) []))%nat by lia.
      rewrite app_assoc, Hpad. split; [reflexivity | lia].
Qed.

Lemma fmt_hex_digs (k : nat) (n : Z) :
  (1 <= k)%nat -> 0 <= n < 16 ^ Z.of_nat k ->
  Py.fmt_hex k true n = string_of_list_ascii (digs k n).
Proof.
  intros Hk Hn. unfold Py.fmt_hex. cbv zeta.
  rewrite Z.abs_eq by lia.
  replace (n <? 0) with false by (symmetry; apply Z.ltb_ge; lia).
  cbn [app]. f_equal.
  apply hex_digits_padded; [exact Hk | exact Hn | | lia].
  destruct (Z.eq_dec n 0) as [->|Hn0].
  - apply Z.pow_pos_nonneg; lia.
  - pose proof (Z.log2_spec n ltac:(lia)) as [_ Hlog].
    pose proof (Z.log2_nonneg n) as Hl0.
    rewrite Nat2Z.inj_succ, Z2Nat.id by lia.
    eapply Z.lt_le_trans; [exact Hlog|].
    apply Z.pow_le_mono_l. lia.
Qed.

Lemma string_of_app (l1 l2 : list ascii) :
  string_of_list_ascii (l1 ++ l2)
  = (string_of_list_ascii l1 ++ string_of_list_ascii l2)%string.
Proof.
  induction l1 as [|c l1 IH]; cbn; [reflexivity | rewrite IH; reflexivity].
Qed.

Lemma fmt4_split (v : Z) :
  0 <= v < 65536 ->
  Py.fmt_hex 4 true v
  = (Py.fmt_hex 2 true (v / 256) ++ Py.fmt_hex 2 true (v mod 256))%string.
Proof.
  intros Hv.
  assert (H1 : 0 <= v / 256 < 256)
    by (split; [apply Z.div_pos; lia | apply Z.div_lt_upper_bound; lia]).
  assert (H2 : 0 <= v mod 256 < 256) by (apply Z.mod_pos_bound; lia).
  rewrite !fmt_hex_digs by (try lia; assumption).
  rewrite <- string_of_app. f_equal. cbn [digs app].
  repeat (f_equal; [f_equal; Z.div_mod_to_equations; lia|]).
  do 2 f_equal. Z.div_mod_to_equations. lia.
Qed.

Lemma byte_chars_shape (b : byte) :
  exists c1 c2,
    byte_chars b = [c1; c2]
    /\ (Py.code c1 =? 45) = false /\ (Py.code c1 =? 43) = false
    /\ (Py.code c2 =? 120) = false /\ (Py.code c2 =? 88) = false
    /\ Py.isspace c1 = false /\ Py.isspace c2 = false.
Proof.
  destruct b; do 2 eexists; (split; [vm_compute; reflexivity|]);
    repeat split; reflexivity.
Qed.

Lemma byte_chars_digits (b : byte) :
  exists c1 c2 d1 d2,
    byte_chars b = [c1; c2]
    /\ (Py.code c1 =? 95) = false /\ (Py.code c2 =? 95) = false
    /\ Py.digit_val c1 = Some d1 /\ Py.digit_val c2 = Some d2
    /\ (d1 <? 16) = true /\ (d2 <? 16) = true
    /\ Py.byte_val b = 16 * d1 + d2.
Proof.
  destruct b; do 4 eexists; (split; [vm_compute; reflexivity|]);
    repeat split; reflexivity.
Qed.

Lemma int_digits_byte (b : byte) :
  forall (acc : Z) (after_digit : bool) (rest : list ascii),
    Py.int_digits 16 acc after_digit (byte_chars b ++ rest)
    = Py.int_digits 16 (acc * 256 + Py.byte_val b) true rest.
Proof.
  intros acc after_digit rest.
  destruct (byte_chars_digits b)
    as (c1 & c2 & d1 & d2 & -> & U1 & U2 & D1 & D2 & L1 & L2 & ->).
  cbn [app Py.int_digits]. rewrite U1, U2, D1, D2, L1, L2.
  f_equal. lia.
Qed.

Lemma int_digits_bytes (bs : list byte) :
  forall (acc : Z) (after_digit : bool),
    Py.int_digits 16 acc after_digit (hex_chars bs)
    = if after_digit || negb (Nat.eqb (List.length bs) 0)
      then Some (bytes_value bs acc) else None.
Proof.
  induction bs as [|b bs IH]; intros acc after_digit.
  - cbn. destruct after_digit; reflexivity.
  - cbn [hex_chars flat_map]. fold (hex_chars bs). rewrite int_digits_byte, IH.
    cbn [orb List.length Nat.eqb negb]. rewrite orb_true_r. reflexivity.
Qed.

Lemma hex_chars_last (bs : list byte) :
  forall b, exists init d,
    hex_chars (b :: bs) = init ++ [d] /\ Py.isspace d = false.
Proof.
  induction bs as [|b' bs IH]; intros b.
  - destruct (byte_chars_shape b) as (c1 & c2 & H & _ & _ & _ & _ & _ & H2).
    exists [c1], c2. cbn [hex_chars flat_map]. rewrite H. split; [reflexivity|exact H2].
  - destruct (IH b') as (init & d & H & Hd).
    exists (byte_chars b ++ init), d. split; [|exact Hd].
    change (hex_chars (b :: b' :: bs)) with (byte_chars b ++ hex_chars (b' :: bs)).
    rewrite H, app_assoc. reflexivity.
Qed.

(** [int] reads hexadecimal text of bytes as their big-endian value. *)
Lemma int_hex_chars (b : byte) (bs : list byte) :
  Py.int (string_of_list_ascii (hex_chars (b :: bs))) 16
  = Ok (bytes_value (b :: bs) 0).
Proof.
  destruct (hex_chars_last bs b) as (init & d & Hlast & Hd).
  pose proof (int_digits_bytes (b :: bs) 0 false) as Hdig.
  cbn [hex_chars flat_map] in *. fold (hex_chars bs) in *.
  destruct (byte_chars_shape b)
    as (c1 & c2 & Hb & Hm & Hp & Hx & HX & Hs1 & _).
  rewrite Hb in *. cbn [app] in *.
  unfold Py.int, Py.strip. cbv zeta.
  rewrite !list_ascii_of_string_of_list_ascii.
  rewrite (strip_plain c1 d _ init Hs1 Hd Hlast).
  rewrite Hm, Hp, Hx, HX. cbn [orb andb].
  rewrite andb_false_r. rewrite Hdig. reflexivity.
Qed.

Lemma fmt4_chars (v : Z) :
  0 <= v < 65536 ->
  map Py.upper_char (list_ascii_of_string (Py.fmt_hex 4 true v))
  = hex_chars [Py.byte_of (v / 256); Py.byte_of (v mod 256)]
  /\ hex_of (list_ascii_of_string (Py.fmt_hex 4 true v))
            [Py.byte_of (v / 256); Py.byte_of (v mod 256)].
Proof.
  intros Hv.
  rewrite (fmt4_split v Hv).
  assert (H1 : 0 <= v / 256 < 256)
    by (split; [apply Z.div_pos; lia | apply Z.div_lt_upper_bound; lia]).
  assert (H2 : 0 <= v mod 256 < 256) by (apply Z.mod_pos_bound; lia).
  destruct (fmt2_chars _ H1) as [U1 X1], (fmt2_chars _ H2) as [U2 X2].
  rewrite list_ascii_app, map_app, U1, U2. split.
  - cbn [hex_chars flat_map]. rewrite app_nil_r. reflexivity.
  - change [Py.byte_of (v / 256); Py.byte_of (v mod 256)]
      with ([Py.byte_of (v / 256)] ++ [Py.byte_of (v mod 256)]).
    apply hex_of_app; assumption.
Qed.

Lemma int4 (v : Z) :
  0 <= v < 65536 ->
  Py.int (string_of_list_ascii
            (hex_chars [Py.byte_of (v / 256); Py.byte_of (v mod 256)])) 16
  = Ok v.
Proof.
  intros Hv.
  assert (H1 : 0 <= v / 256 < 256)
    by (split; [apply Z.div_pos; lia | apply Z.div_lt_upper_bound; lia]).
  assert (H2 : 0 <= v mod 256 < 256) by (apply Z.mod_pos_bound; lia).
  rewrite int_hex_chars. unfold bytes_value. cbn [fold_left].
  rewrite !byte_val_of by assumption. f_equal.
  Z.div_mod_to_equations. lia.
Qed.

(** *** The lines the builder writes *)

Lemma land_255_range (x : Z) : 0 <= Z.land x 255 < 256.
Proof.
  change 255 with (Z.ones 8). rewrite Z.land_ones by lia.
  apply Z.mod_pos_bound. reflexivity.
Qed.

Lemma decode_hexlify (d : list byte) :
  list_ascii_of_string (Py.decode (Py.hexlify d)) = flat_map lower_chars d.
Proof.
  unfold Py.decode, string_of_list_byte.
  rewrite list_ascii_of_string_of_list_ascii.
  induction d as [|b d IH]; [reflexivity|].
  cbn [Py.hexlify flat_map map app]. rewrite !ascii_of_byte_of_ascii.
  unfold Py.hexlify in IH. rewrite IH. reflexivity.
Qed.

Lemma upper_lower (d : list byte) :
  map Py.upper_char (flat_map lower_chars d) = hex_chars d.
Proof.
  induction d as [|b d IH]; [reflexivity|].
  cbn [flat_map hex_chars]. rewrite map_app, IH.
  destruct (byte_chars_hex b) as (_ & -> & _). reflexivity.
Qed.

Lemma create_line_eq (type_ address : Z) (d : list byte) :
  0 <= type_ < 256 -> 0 <= address < 65536 -> Py.len d < 256 ->
  IHexBuilder._create_line type_ address (Some d)
  = Ok (ihex_line type_ address d).
Proof.
  intros Ht Ha Hd.
  assert (Hl : 0 <= Py.len d < 256) by (unfold Py.len in *; lia).
  destruct (fmt2_chars _ Hl) as [Ul Xl], (fmt2_chars _ Ht) as [Ut Xt],
    (fmt4_chars _ Ha) as [Ua Xa].
  unfold IHexBuilder._create_line. cbv zeta.
  set (datastr := (Py.fmt_hex 2 true (Py.len d) ++ Py.fmt_hex 4 true address
                   ++ Py.fmt_hex 2 true type_
                   ++ Py.decode (Py.hexlify d))%string).
  assert (Hchars : list_ascii_of_string datastr
                   = list_ascii_of_string (Py.fmt_hex 2 true (Py.len d))
                     ++ list_ascii_of_string (Py.fmt_hex 4 true address)
                     ++ list_ascii_of_string (Py.fmt_hex 2 true type_)
                     ++ flat_map lower_chars d).
  { unfold datastr. rewrite !list_ascii_app, decode_hexlify. reflexivity. }
  assert (Hhex : hex_of (list_ascii_of_string datastr)
                        (record_bytes type_ address d)).
  { rewrite Hchars. unfold record_bytes.
    change ([Py.byte_of (Py.len d); Py.byte_of (address / 256);
             Py.byte_of (address mod 256); Py.byte_of type_] ++ d)
      with ([Py.byte_of (Py.len d)]
            ++ [Py.byte_of (address / 256); Py.byte_of (address mod 256)]
            ++ [Py.byte_of type_] ++ d).
    repeat apply hex_of_app; try assumption. apply hex_of_lower. }
  unfold IHexBuilder.checksum.
  rewrite <- (string_of_list_ascii_of_string datastr) at 1.
  rewrite (hex_of_unhexlify _ _ Hhex). cbn [bind].
  fold (record_sum type_ address d).
  destruct (fmt2_chars _ (land_255_range
              (- Py.sum_bytes (record_bytes type_ address d)))) as [Uc _].
  fold (record_sum type_ address d) in Uc.
  f_equal. unfold Py.upper, ihex_line, ihex_chars. f_equal.
  rewrite list_ascii_app. cbn [list_ascii_of_string app map].
  rewrite list_ascii_app, map_app, Hchars, !map_app, Ul, Ua, Ut, Uc,
    upper_lower.
  unfold record_bytes. rewrite !hex_chars_app. cbn [hex_chars flat_map app].
  rewrite !app_nil_r, <- !app_assoc. reflexivity.
Qed.

(** *** The fields the line parser reads *)

Lemma slice_pos (A : Type) (l : list A) (lo hi : Z) :
  0 <= lo <= hi -> hi <= Py.len l ->
  Py.slice l (Some lo) (Some hi)
  = firstn (Z.to_nat (hi - lo)) (skipn (Z.to_nat lo) l).
Proof.
  intros H1 H2. unfold Py.slice, Py.clamp, Py.len in *.
  destruct (lo <? 0) eqn:E1; [apply Z.ltb_lt in E1; lia|].
  destruct (hi <? 0) eqn:E2; [apply Z.ltb_lt in E2; lia|].
  rewrite !Z.min_l by lia. reflexivity.
Qed.

Lemma slice_neg (A : Type) (l : list A) (lo hi : Z) :
  0 <= lo -> hi < 0 -> lo <= Py.len l + hi ->
  Py.slice l (Some lo) (Some hi)
  = firstn (Z.to_nat (Py.len l + hi - lo)) (skipn (Z.to_nat lo) l).
Proof.
  intros H1 H2 H3. unfold Py.slice, Py.clamp, Py.len in *.
  destruct (lo <? 0) eqn:E1; [apply Z.ltb_lt in E1; lia|].
  destruct (hi <? 0) eqn:E2; [|apply Z.ltb_ge in E2; lia].
  rewrite Z.min_l, Z.max_r by lia. f_equal. f_equal. lia.
Qed.

Lemma slice_tail (A : Type) (l : list A) (lo : Z) :
  lo < 0 -> 0 <= Py.len l + lo ->
  Py.slice l (Some lo) None = skipn (Z.to_nat (Py.len l + lo)) l.
Proof.
  intros H H'. unfold Py.slice, Py.clamp, Py.len in *.
  destruct (lo <? 0) eqn:E2; [|apply Z.ltb_ge in E2; lia].
  rewrite Z.max_r by lia.
  rewrite firstn_all2; [f_equal; lia|].
  rewrite length_skipn. lia.
Qed.

Lemma firstn_exact (A : Type) (l1 l2 : list A) (n : nat) :
  n = List.length l1 -> firstn n (l1 ++ l2) = l1.
Proof.
  intros ->. rewrite firstn_app, Nat.sub_diag, firstn_all. cbn.
  apply app_nil_r.
Qed.

Lemma skipn_exact (A : Type) (l1 l2 : list A) (n : nat) :
  n = List.length l1 -> skipn n (l1 ++ l2) = l2.
Proof.
  intros ->. rewrite skipn_app, Nat.sub_diag, skipn_all. reflexivity.
Qed.

Lemma byte_chars_pair (b : byte) : exists x y, byte_chars b = [x; y].
Proof.
  destruct (byte_chars_plain b) as (x & y & H & _). exists x, y. exact H.
Qed.

(** The fields the line parser cuts out of a built line. *)
Lemma ihex_line_fields (type_ address : Z) (d : list byte) :
  let line := ihex_line type_ address d in
  Py.str_slice line (Some 1) (Some 3)
  = string_of_list_ascii (byte_chars (Py.byte_of (Py.len d)))
  /\ Py.str_slice line (Some 3) (Some 7)
     = string_of_list_ascii
         (hex_chars [Py.byte_of (address / 256); Py.byte_of (address mod 256)])
  /\ Py.str_slice line (Some 7) (Some 9)
     = string_of_list_ascii (byte_chars (Py.byte_of type_))
  /\ Py.str_slice line (Some 9) (Some (-2)) = string_of_list_ascii (hex_chars d)
  /\ Py.str_slice line (Some 1) (Some (-2))
     = string_of_list_ascii (hex_chars (record_bytes type_ address d))
  /\ Py.str_slice line (Some (-2)) None
     = string_of_list_ascii
         (byte_chars (Py.byte_of (record_sum type_ address d)))
  /\ Py.str_len line = 11 + 2 * Py.len d.
Proof.
  cbv zeta. unfold Py.str_slice, Py.str_len, ihex_line.
  rewrite <- length_list_ascii.
  rewrite !list_ascii_of_string_of_list_ascii.
  unfold ihex_chars, record_bytes. rewrite hex_chars_app.
  cbn [hex_chars flat_map app]. rewrite app_nil_r.
  destruct (byte_chars_pair (Py.byte_of (Py.len d))) as (x0 & y0 & ->),
    (byte_chars_pair (Py.byte_of (address / 256))) as (x1 & y1 & ->),
    (byte_chars_pair (Py.byte_of (address mod 256))) as (x2 & y2 & ->),
    (byte_chars_pair (Py.byte_of type_)) as (x3 & y3 & ->),
    (byte_chars_pair (Py.byte_of (record_sum type_ address d)))
      as (xc & yc & Hc).
  fold (hex_chars d).
  replace (record_sum type_ address d) with
    (Z.land (- Py.sum_bytes ([Py.byte_of (Py.len d);
                              Py.byte_of (address / 256);
                              Py.byte_of (address mod 256);
                              Py.byte_of type_] ++ d)) 255) in Hc
    by reflexivity.
  unfold record_sum, record_bytes. rewrite Hc.
  cbn [app].
  set (L := ":"%char :: x0 :: y0 :: x1 :: y1 :: x2 :: y2 :: x3 :: y3
            :: hex_chars d ++ [xc; yc]).
  assert (HL : Py.len L = 11 + 2 * Py.len d).
  { unfold L, Py.len. cbn [List.length]. rewrite length_app, hex_chars_length.
    cbn [List.length]. lia. }
  assert (Hd : List.length (hex_chars d) = Z.to_nat (2 * Py.len d)).
  { rewrite hex_chars_length. unfold Py.len. lia. }
  pose proof (Nat2Z.is_nonneg (List.length d)) as Hn. fold (Py.len d) in Hn.
  repeat split.
  - rewrite slice_pos by lia. reflexivity.
  - rewrite slice_pos by lia. reflexivity.
  - rewrite slice_pos by lia. reflexivity.
  - rewrite (slice_neg _ L 9 (-2)) by lia. rewrite HL.
    change (Z.to_nat 9) with 9%nat. unfold L. cbn [skipn].
    rewrite firstn_exact; [reflexivity|]. rewrite Hd. f_equal. lia.
  - rewrite (slice_neg _ L 1 (-2)) by lia. rewrite HL.
    change (Z.to_nat 1) with 1%nat. unfold L. cbn [skipn].
    change (x0 :: y0 :: x1 :: y1 :: x2 :: y2 :: x3 :: y3 :: hex_chars d ++ [xc; yc])
      with ((x0 :: y0 :: x1 :: y1 :: x2 :: y2 :: x3 :: y3 :: hex_chars d)
            ++ [xc; yc]).
    rewrite firstn_exact; [reflexivity|]. cbn [List.length]. rewrite Hd. lia.
  - rewrite (slice_tail _ L (-2)) by lia. rewrite HL. unfold L.
    change (":"%char :: x0 :: y0 :: x1 :: y1 :: x2 :: y2 :: x3 :: y3
            :: hex_chars d ++ [xc; yc])
      with ((":"%char :: x0 :: y0 :: x1 :: y1 :: x2 :: y2 :: x3 :: y3 :: hex_chars d)
            ++ [xc; yc]).
    rewrite skipn_exact; [reflexivity|]. cbn [List.length]. rewrite Hd. lia.
  - fold (Py.len L). exact HL.
Qed.

Lemma byte_chars_no_space (b : byte) :
  exists x y, byte_chars b = [x; y]
              /\ Py.isspace x = false /\ Py.isspace y = false
              /\ (Py.code x =? 10) = false /\ (Py.code y =? 10) = false.
Proof.
  destruct (byte_chars_pair b) as (x & y & H).
  destruct (byte_chars_hex b) as (_ & _ & _ & _ & E).
  rewrite H in E. cbn [existsb] in E.
  apply orb_false_iff in E. destruct E as [Ex E].
  apply orb_false_iff in E. destruct E as [Ey _].
  apply orb_false_iff in Ex, Ey.
  exists x, y. tauto.
Qed.

Lemma list_ascii_LF : list_ascii_of_string Py.LF = [Py.chr 10].
Proof. reflexivity. Qed.

Lemma strip_line (type_ address : Z) (d : list byte) :
  Py.strip (ihex_line type_ address d ++ Py.LF) = ihex_line type_ address d.
Proof.
  unfold Py.strip, ihex_line.
  rewrite list_ascii_app, list_ascii_of_string_of_list_ascii, list_ascii_LF.
  f_equal. unfold ihex_chars. rewrite hex_chars_app. cbn [hex_chars flat_map].
  rewrite app_nil_r.
  destruct (byte_chars_no_space (Py.byte_of (record_sum type_ address d)))
    as (x & y & -> & _ & Hy & _).
  set (M := hex_chars (record_bytes type_ address d)).
  cbn [app Py.lstrip].
  change (Py.isspace ":") with false. cbv iota.
  change (":"%char :: (M ++ [x; y]) ++ [Py.chr 10])
    with ((":"%char :: M ++ [x; y]) ++ [Py.chr 10]).
  rewrite rev_app_distr. cbn [rev app Py.lstrip].
  change (Py.isspace (Py.chr 10)) with true. cbv iota.
  replace (M ++ [x; y]) with ((M ++ [x]) ++ [y])
    by (rewrite <- app_assoc; reflexivity).
  rewrite rev_app_distr. cbn [rev app Py.lstrip]. rewrite Hy.
  rewrite rev_app_distr. cbn [rev app].
  rewrite rev_app_distr, rev_involutive. cbn [rev app]. reflexivity.
Qed.

Lemma int_byte_chars (v : Z) :
  0 <= v < 256 ->
  Py.int (string_of_list_ascii (byte_chars (Py.byte_of v))) 16 = Ok v.
Proof.
  intros Hv. destruct (byte_chars_hex (Py.byte_of v)) as (_ & _ & _ & -> & _).
  rewrite byte_val_of by exact Hv. reflexivity.
Qed.

Lemma first_char_line (type_ address : Z) (d : list byte) :
  first_char_is (ihex_line type_ address d) 58 = true.
Proof. reflexivity. Qed.

Lemma len_byte_bound (d : list byte) : 0 <= Py.len d.
Proof. unfold Py.len. lia. Qed.

(** A built data record, read back by the line parser. *)
Lemma line_step_data (p : RecordParser.t) (offset_addr address : Z)
  (d : list byte) :
  _verify p = true -> 0 <= address < 65536 -> Py.len d < 256 ->
  IHexParser.line_step p offset_addr (ihex_line 0 address d ++ Py.LF)
  = Ok (Emit offset_addr (DATA, address + offset_addr, d)).
Proof.
  intros Hv Ha Hd. pose proof (len_byte_bound d) as Hd0.
  unfold IHexParser.line_step. cbv zeta. rewrite strip_line.
  destruct (ihex_line_fields 0 address d)
    as (F1 & F2 & F3 & F4 & F5 & F6 & Flen).
  rewrite Flen, first_char_line, F1, F2, F3, F4, F5, F6.
  replace (11 + 2 * Py.len d <? 5) with false by (symmetry; apply Z.ltb_ge; lia).
  cbn [negb].
  rewrite (int_byte_chars (Py.len d)) by lia.
  rewrite int4 by exact Ha.
  change (Py.int (string_of_list_ascii (byte_chars (Py.byte_of 0))) 10)
    with (@Ok Z 0).
  cbn [bind Z.eqb].
  rewrite (hex_of_unhexlify _ _ (hex_of_hex_chars d)). cbn [bind].
  rewrite Z.eqb_refl. cbn [negb]. rewrite Hv.
  rewrite (hex_of_unhexlify _ _ (hex_of_hex_chars (record_bytes 0 address d))).
  cbn [bind]. fold (record_sum 0 address d).
  rewrite (int_byte_chars (record_sum 0 address d))
    by apply land_255_range.
  cbn [bind]. rewrite Z.eqb_refl. cbn [negb bind andb]. reflexivity.
Qed.

(** The end-of-file record, read back. *)
Lemma line_step_eof (p : RecordParser.t) (offset_addr : Z) :
  _verify p = true -> _verify_address p 0 = Ok tt ->
  IHexParser.line_step p offset_addr (ihex_line 1 0 [] ++ Py.LF)
  = Ok (Emit offset_addr (EOF, 0, [])).
Proof.
  intros Hv Hva.
  unfold IHexParser.line_step. cbv zeta. rewrite strip_line.
  destruct (ihex_line_fields 1 0 [])
    as (F1 & F2 & F3 & F4 & F5 & F6 & Flen).
  rewrite Flen, first_char_line, F1, F2, F3, F4, F5, F6.
  change (Py.len (@nil byte)) with 0.
  rewrite (int_byte_chars 0) by lia.
  change (0 / 256) with 0. change (0 mod 256) with 0.
  change (Py.int (string_of_list_ascii
                    (hex_chars [Py.byte_of 0; Py.byte_of 0])) 16) with (@Ok Z 0).
  change (Py.int (string_of_list_ascii (byte_chars (Py.byte_of 1))) 10)
    with (@Ok Z 1).
  change (11 + 2 * 0 <? 5) with false.
  cbn [bind Z.eqb Pos.eqb negb].
  rewrite (hex_of_unhexlify _ _ (hex_of_hex_chars [])). cbn [bind].
  change (0 =? Py.len (@nil byte)) with true. cbn [negb]. rewrite Hv.
  rewrite (hex_of_unhexlify _ _ (hex_of_hex_chars (record_bytes 1 0 []))).
  cbn [bind]. fold (record_sum 1 0 []).
  rewrite (int_byte_chars (record_sum 1 0 []))
    by apply land_255_range.
  cbn [bind]. rewrite Z.eqb_refl. cbn [negb bind andb].
  rewrite Hva. reflexivity.
Qed.

(** A built extended linear address record, read back. *)
Lemma line_step_linear (p : RecordParser.t) (offset_addr high : Z) :
  0 <= high < 65536 ->
  IHexParser.line_step p offset_addr
    (ihex_line 4 0 [Py.byte_of (high / 256); Py.byte_of (high mod 256)]
     ++ Py.LF)
  = Ok (Continue (Z.shiftl high 16)).
Proof.
  intros Hh.
  unfold IHexParser.line_step. cbv zeta. rewrite strip_line.
  set (d := [Py.byte_of (high / 256); Py.byte_of (high mod 256)]).
  destruct (ihex_line_fields 4 0 d)
    as (F1 & F2 & F3 & F4 & F5 & F6 & Flen).
  rewrite Flen, first_char_line, F1, F2, F3, F4.
  change (Py.len d) with 2.
  rewrite (int_byte_chars 2) by lia.
  change (0 / 256) with 0. change (0 mod 256) with 0.
  change (Py.int (string_of_list_ascii
                    (hex_chars [Py.byte_of 0; Py.byte_of 0])) 16) with (@Ok Z 0).
  change (Py.int (string_of_list_ascii (byte_chars (Py.byte_of 4))) 10)
    with (@Ok Z 4).
  change (11 + 2 * 2 <? 5) with false.
  cbn [bind Z.eqb Pos.eqb negb].
  unfold d. rewrite (int4 high Hh). reflexivity.
Qed.

(** *** The lines of a segment *)

Lemma firstn_add (A : Type) (a b : nat) :
  forall l : list A, firstn (a + b) l = firstn a l ++ firstn b (skipn a l).
Proof.
  induction a as [|a IH]; intros l; [reflexivity|].
  destruct l as [|x l]; cbn [Nat.add firstn skipn app].
  - rewrite firstn_nil. reflexivity.
  - rewrite IH. reflexivity.
Qed.

Lemma slice_chunk (data : list byte) (i : nat) :
  16 * Z.of_nat i < Py.len data ->
  Py.slice data (Some (16 * Z.of_nat i)) (Some (16 * Z.of_nat i + 16))
  = chunk_at data i.
Proof.
  intros H. unfold Py.slice, Py.clamp, chunk_at, Py.len in *.
  destruct (16 * Z.of_nat i <? 0) eqn:E1; [apply Z.ltb_lt in E1; lia|].
  destruct (16 * Z.of_nat i + 16 <? 0) eqn:E2; [apply Z.ltb_lt in E2; lia|].
  rewrite (Z.min_l (16 * Z.of_nat i)) by lia.
  replace (Z.to_nat (16 * Z.of_nat i)) with (16 * i)%nat by lia.
  destruct (Z.le_gt_cases (16 * Z.of_nat i + 16) (Z.of_nat (List.length data)))
    as [Hle|Hgt].
  - rewrite Z.min_l by lia. f_equal. lia.
  - rewrite Z.min_r by lia.
    rewrite !firstn_all2; [reflexivity | |]; rewrite length_skipn; lia.
Qed.

Lemma chunk_at_len (data : list byte) (i : nat) :
  16 * Z.of_nat i < Py.len data ->
  0 < Py.len (chunk_at data i) <= 16.
Proof.
  intros H. unfold chunk_at, Py.len in *.
  rewrite length_firstn, length_skipn. lia.
Qed.

Lemma firstn_chunk (data : list byte) (i : nat) :
  firstn (16 * i) data ++ chunk_at data i = firstn (16 * S i) data.
Proof.
  unfold chunk_at. rewrite <- firstn_add. f_equal. lia.
Qed.

Lemma split_addr (a : Z) :
  0 <= a -> Z.land a 65535 + Z.shiftl (Z.shiftr a 16) 16 = a.
Proof.
  intros Ha. change 65535 with (Z.ones 16).
  rewrite Z.land_ones, Z.shiftr_div_pow2, Z.shiftl_mul_pow2 by lia.
  pose proof (Z.div_mod a (2 ^ 16) ltac:(lia)). lia.
Qed.

Lemma high_range (a : Z) :
  0 <= a < 4294967296 -> 0 <= Z.shiftr a 16 < 65536.
Proof.
  intros Ha. rewrite Z.shiftr_div_pow2 by lia. change (2 ^ 16) with 65536.
  split; [apply Z.div_pos; lia | apply Z.div_lt_upper_bound; lia].
Qed.

Lemma low_range (a : Z) : 0 <= Z.land a 65535 < 65536.
Proof.
  change 65535 with (Z.ones 16). rewrite Z.land_ones by lia.
  apply Z.mod_pos_bound. reflexivity.
Qed.

Lemma create_linear_line (high : Z) :
  0 <= high < 65536 ->
  (hi_bytes <- Py.pack_H high ;;
   IHexBuilder._create_line 4 0 (Some hi_bytes))
  = Ok (linear_line high).
Proof.
  intros H. unfold Py.pack_H.
  replace ((0 <=? high) && (high <=? 65535)) with true
    by (symmetry; apply andb_true_iff; split; apply Z.leb_le; lia).
  cbn [bind]. rewrite create_line_eq; [reflexivity | lia | lia | ].
  unfold Py.len. cbn [List.length]. lia.
Qed.

(** The lines the Intel HEX builder yields for a segment, from its
    chunk [i] on. *)
Lemma create_data_from (baseaddr : Z) (data : list byte) (n : nat) :
  forall (i : nat) (high_addr : option Z),
    0 <= baseaddr ->
    baseaddr + Py.len data <= 4294967296 ->
    16 * Z.of_nat (i + n) < Py.len data + 16 ->
    RecordBuilder.chunk_loop
      (fun '(address, high_addr) pos =>
         let high := Z.shiftr address 16 in
         '(first, high_addr) <-
           (if match high_addr with
               | Some h => negb (high =? h)
               | None => true
               end
            then
              hi_bytes <- Py.pack_H high ;;
              line <- IHexBuilder._create_line 4 0 (Some hi_bytes) ;;
              Ok ([line], Some high)
            else Ok ([], high_addr)) ;;
         let chunk := Py.slice data (Some pos) (Some (pos + 16)) in
         line <- IHexBuilder._create_line 0 (Z.land address 65535)
                                          (Some chunk) ;;
         Ok ((first ++ [line])%list, (address + 16, high_addr)))
      (baseaddr + 16 * Z.of_nat i, high_addr)
      (map (fun k => 16 * Z.of_nat k) (seq i n))
    = gen_of_list (seg_lines baseaddr data high_addr i n).
Proof.
  induction n as [|n IH]; intros i high_addr Hb Hmax Hn; [reflexivity|].
  cbn [seq map RecordBuilder.chunk_loop seg_lines]. cbv zeta.
  assert (Hi : 16 * Z.of_nat i < Py.len data) by lia.
  pose proof (chunk_at_len data i Hi) as Hc.
  pose proof (high_range (baseaddr + 16 * Z.of_nat i) ltac:(lia)) as Hh.
  pose proof (low_range (baseaddr + 16 * Z.of_nat i)) as Hl.
  rewrite slice_chunk by exact Hi.
  rewrite (create_line_eq 0 _ (chunk_at data i)) by lia.
  replace (baseaddr + 16 * Z.of_nat i + 16)
    with (baseaddr + 16 * Z.of_nat (S i)) by lia.
  set (high := Z.shiftr (baseaddr + 16 * Z.of_nat i) 16) in *.
  destruct (match high_addr with
            | Some h => negb (high =? h)
            | None => true
            end) eqn:Hcond.
  - pose proof (create_linear_line high Hh) as Hlin.
    destruct (Py.pack_H high) as [hi|e]; cbn [bind] in Hlin |- *;
      [|discriminate].
    rewrite Hlin. cbn [bind app fold_right gen_of_list].
    rewrite IH by lia. reflexivity.
  - cbn [bind app fold_right gen_of_list].
    destruct high_addr as [h|]; [|discriminate].
    apply negb_false_iff, Z.eqb_eq in Hcond. subst h.
    rewrite IH by lia. reflexivity.
Qed.

Lemma range0_seq (data : list byte) :
  Py.range0 (Py.len data) 16
  = map (fun k => 16 * Z.of_nat k) (seq 0 (chunk_count data)).
Proof. reflexivity. Qed.

Lemma chunk_count_bounds (data : list byte) :
  16 * Z.of_nat (chunk_count data) < Py.len data + 16
  /\ Py.len data <= 16 * Z.of_nat (chunk_count data).
Proof.
  unfold chunk_count. pose proof (len_byte_bound data) as H.
  rewrite Z2Nat.id by (apply Z.div_pos; lia).
  pose proof (Z.div_mod (Py.len data + 16 - 1) 16 ltac:(lia)).
  pose proof (Z.mod_pos_bound (Py.len data + 16 - 1) 16 ltac:(lia)).
  lia.
Qed.

Lemma create_data_lines (baseaddr : Z) (data : list byte) :
  0 <= baseaddr -> baseaddr + Py.len data <= 4294967296 ->
  IHexBuilder._create_data 0 (segment_of baseaddr data)
  = gen_of_list (seg_lines baseaddr data None 0 (chunk_count data)).
Proof.
  intros Hb Hmax. unfold IHexBuilder._create_data.
  cbn [RecordSegment.data RecordSegment.baseaddr segment_of BytesIO.getvalue
       RecordSegment._buffer RecordSegment._baseaddr BytesIO.buf].
  rewrite range0_seq.
  pose proof (create_data_from baseaddr data (chunk_count data) 0 None
                Hb Hmax) as H.
  replace (baseaddr + 16 * Z.of_nat 0) with (0 + baseaddr) in H by lia.
  apply H. pose proof (chunk_count_bounds data). lia.
Qed.

(** *** The text and its lines *)

Lemma str_app_assoc (s1 s2 s3 : string) :
  ((s1 ++ s2) ++ s3 = s1 ++ s2 ++ s3)%string.
Proof.
  induction s1 as [|c s1 IH]; cbn; [reflexivity | rewrite IH; reflexivity].
Qed.

Lemma str_app_nil_r (s : string) : (s ++ EmptyString)%string = s.
Proof.
  induction s as [|c s IH]; cbn; [reflexivity | rewrite IH; reflexivity].
Qed.

Lemma lines_text_app (l1 l2 : list string) :
  lines_text (l1 ++ l2) = (lines_text l1 ++ lines_text l2)%string.
Proof.
  induction l1 as [|l l1 IH]; cbn [app lines_text]; [reflexivity|].
  rewrite IH, !str_app_assoc. reflexivity.
Qed.

Lemma write_lines_list (ls : list string) :
  forall buffer,
    RecordBuilder.write_lines (RecordBuilder.Make Py.LF buffer)
                              (gen_of_list ls)
    = Ok (RecordBuilder.Make Py.LF (buffer ++ lines_text ls)%string).
Proof.
  induction ls as [|l ls IH]; intros buffer.
  - cbn. rewrite str_app_nil_r. reflexivity.
  - cbn [gen_of_list fold_right RecordBuilder.write_lines lines_text].
    unfold RecordBuilder.write.
    cbn [RecordBuilder._linesep RecordBuilder._buffer].
    fold (gen_of_list ls). rewrite IH, !str_app_assoc. reflexivity.
Qed.

Lemma write_segments_lines (S : list (Z * list byte)) :
  Forall in_range S ->
  forall buffer,
    RecordBuilder.write_segments IHexBuilder.cls
      (RecordBuilder.Make Py.LF buffer) 0 (map segment_at S)
    = Ok (RecordBuilder.Make Py.LF
            (buffer ++ lines_text (flat_map all_lines S))%string).
Proof.
  induction 1 as [|s S [Hb Hmax] _ IH]; intros buffer.
  - cbn. rewrite str_app_nil_r. reflexivity.
  - cbn [map RecordBuilder.write_segments flat_map].
    cbn [_create_data IHexBuilder.cls]. unfold segment_at at 1.
    rewrite create_data_lines by assumption.
    rewrite write_lines_list. cbn [bind].
    rewrite IH, lines_text_app, str_app_assoc. reflexivity.
Qed.

Lemma build_text_lines (S : list (Z * list byte)) :
  Forall in_range S ->
  build_text IHexBuilder.cls (map segment_at S)
  = Ok (lines_text (flat_map all_lines S ++ [eof_line])).
Proof.
  intros HS. unfold build_text, RecordBuilder.build, RecordBuilder.new.
  cbn [bind]. rewrite (write_segments_lines S HS). cbn [bind].
  change (_create_eof IHexBuilder.cls) with (@Ok string eof_line).
  cbn [bind]. change (String.eqb eof_line EmptyString) with false.
  cbn [negb]. unfold RecordBuilder.write, RecordBuilder.getvalue.
  cbn [RecordBuilder._buffer RecordBuilder._linesep append].
  rewrite lines_text_app. cbn [lines_text].
  rewrite str_app_nil_r, !str_app_assoc. reflexivity.
Qed.

Lemma readlines_line (l1 : list ascii) :
  existsb (fun c => Py.code c =? 10) l1 = false ->
  forall rest cur,
    Py.readlines (l1 ++ Py.chr 10 :: rest) cur
    = string_of_list_ascii (rev cur ++ l1 ++ [Py.chr 10])
      :: Py.readlines rest [].
Proof.
  induction l1 as [|c l1 IH]; intros H rest cur.
  - cbn [app Py.readlines]. change (Py.code (Py.chr 10) =? 10) with true.
    cbv iota. cbn [rev]. reflexivity.
  - cbn [existsb] in H. apply orb_false_iff in H. destruct H as [Hc H].
    cbn [app Py.readlines]. rewrite Hc, (IH H). cbn [rev].
    rewrite <- !app_assoc. reflexivity.
Qed.

Lemma readlines_text (ls : list string) :
  Forall no_LF ls ->
  Py.readlines (list_ascii_of_string (lines_text ls)) [] = map add_LF ls.
Proof.
  induction 1 as [|l ls Hl _ IH]; [reflexivity|].
  cbn [lines_text map]. rewrite !list_ascii_app, list_ascii_LF.
  cbn [app]. rewrite (readlines_line _ Hl), IH. cbn [rev app].
  f_equal. unfold add_LF. rewrite string_of_app, string_of_list_ascii_of_string.
  reflexivity.
Qed.

Lemma hex_chars_no_LF (bs : list byte) :
  existsb (fun c => Py.code c =? 10) (hex_chars bs) = false.
Proof.
  induction bs as [|b bs IH]; [reflexivity|].
  cbn [hex_chars flat_map]. rewrite existsb_app. fold (hex_chars bs). rewrite IH.
  destruct (byte_chars_no_space b) as (x & y & -> & _ & _ & Hx & Hy).
  cbn [existsb]. rewrite Hx, Hy. reflexivity.
Qed.

Lemma ihex_line_no_LF (type_ address : Z) (d : list byte) :
  no_LF (ihex_line type_ address d).
Proof.
  unfold no_LF, ihex_line. rewrite list_ascii_of_string_of_list_ascii.
  unfold ihex_chars. cbn [existsb]. rewrite hex_chars_no_LF. reflexivity.
Qed.

Lemma seg_lines_no_LF (baseaddr : Z) (data : list byte) (n : nat) :
  forall i high_addr, Forall no_LF (seg_lines baseaddr data high_addr i n).
Proof.
  induction n as [|n IH]; intros i high_addr; cbn [seg_lines];
    [constructor|].
  cbv zeta. apply Forall_app. split.
  - destruct (match high_addr with
              | Some h => _
              | None => true
              end); repeat constructor. apply ihex_line_no_LF.
  - constructor; [apply ihex_line_no_LF | apply IH].
Qed.

Lemma all_lines_no_LF (S : list (Z * list byte)) :
  Forall no_LF (flat_map all_lines S ++ [eof_line]).
Proof.
  apply Forall_app. split.
  - apply Forall_flat_map. apply Forall_forall. intros s _.
    apply seg_lines_no_LF.
  - constructor; [apply ihex_line_no_LF | constructor].
Qed.

(** *** The parse of the built text *)

Section Run.

Variable src : stream.
Variable gap : Z.
Hypothesis gap_pos : 1 <= gap.

Let P0 := run_state src gap [] None.
Let step := IHexParser.line_step P0.

Lemma line_loop_emit (oa oa' : Z) (line : string) (c : chunk)
  (rest : list string) :
  step oa line = Ok (Emit oa' c) ->
  line_loop step oa (line :: rest) = GYield c (line_loop step oa' rest).
Proof. intros H. cbn [line_loop]. rewrite H. reflexivity. Qed.

Lemma line_loop_continue (oa oa' : Z) (line : string) (rest : list string) :
  step oa line = Ok (Continue oa') ->
  line_loop step oa (line :: rest) = line_loop step oa' rest.
Proof. intros H. cbn [line_loop]. rewrite H. reflexivity. Qed.

Lemma len_firstn_chunks (data : list byte) (i : nat) :
  16 * Z.of_nat i <= Py.len data ->
  Py.len (firstn (16 * i) data) = 16 * Z.of_nat i.
Proof.
  intros H. unfold Py.len in *. rewrite length_firstn. lia.
Qed.

(** The chunks of a segment after the first are appended to the open
    segment. *)
Lemma parse_rest_of_segment (baseaddr : Z) (data : list byte) (n : nat) :
  0 <= baseaddr -> baseaddr + Py.len data <= 4294967296 ->
  forall (i : nat) (h oa : Z) (segs : list RecordSegment.t)
         (rest : list string),
    (1 <= i)%nat ->
    16 * Z.of_nat (i + n) < Py.len data + 16 ->
    oa = Z.shiftl h 16 ->
    exists oa',
      parse_loop
        (run_state src gap segs
           (Some (segment_of baseaddr (firstn (16 * i) data))))
        (line_loop step oa
           (map add_LF (seg_lines baseaddr data (Some h) i n) ++ rest))
      = parse_loop
          (run_state src gap segs
             (Some (segment_of baseaddr (firstn (16 * (i + n)) data))))
          (line_loop step oa' rest).
Proof.
  intros Hb Hmax. induction n as [|n IH]; intros i h oa segs rest Hi Hn Hoa.
  - exists oa. rewrite Nat.add_0_r. reflexivity.
  - cbn [seg_lines]. cbv zeta.
    set (a := baseaddr + 16 * Z.of_nat i).
    set (high := Z.shiftr a 16).
    assert (Hlt : 16 * Z.of_nat i < Py.len data) by lia.
    assert (Ha : 0 <= a < 4294967296) by (unfold a; lia).
    pose proof (high_range a Ha) as Hh. fold high in Hh.
    pose proof (chunk_at_len data i Hlt) as Hc.
    assert (Hdata :
      forall oa0, oa0 = Z.shiftl high 16 ->
        exists oa',
          parse_loop
            (run_state src gap segs
               (Some (segment_of baseaddr (firstn (16 * i) data))))
            (line_loop step oa0
               (map add_LF
                  (ihex_line 0 (Z.land a 65535) (chunk_at data i)
                   :: seg_lines baseaddr data (Some high) (S i) n) ++ rest))
          = parse_loop
              (run_state src gap segs
                 (Some (segment_of baseaddr
                                   (firstn (16 * (i + S n)) data))))
              (line_loop step oa' rest)).
    { intros oa0 ->. cbn [map app].
      rewrite (line_loop_emit _ (Z.shiftl high 16) _
                 (DATA, Z.land a 65535 + Z.shiftl high 16, chunk_at data i));
        [|apply line_step_data;
          [reflexivity | apply low_range | lia]].
      unfold high. rewrite split_addr by lia. fold high.
      cbn [parse_loop].
      rewrite (parse_record_near _ (segment_of baseaddr
                                      (firstn (16 * i) data)));
        [|reflexivity|].
      2:{ cbn [_offset _gap run_state]. unfold RecordSegment.absaddr.
          cbn [segment_of RecordSegment._baseaddr RecordSegment._size].
          rewrite len_firstn_chunks by lia. unfold a.
          replace (baseaddr + 16 * Z.of_nat i - 0
                   - (baseaddr + 16 * Z.of_nat i)) with 0 by lia.
          cbn. lia. }
      cbn [_offset run_state].
      replace (a - 0) with
        (baseaddr + Py.len (firstn (16 * i) data))
        by (rewrite len_firstn_chunks by lia; unfold a; lia).
      rewrite write_contiguous, firstn_chunk. cbn [bind].
      destruct (IH (S i) high (Z.shiftl high 16) segs rest
                  ltac:(lia) ltac:(lia) eq_refl) as [oa' Heq].
      exists oa'. replace (i + S n)%nat with (S i + n)%nat by lia.
      exact Heq. }
    destruct (negb (high =? h)) eqn:Hcond.
    + cbn [app map].
      rewrite (line_loop_continue oa (Z.shiftl high 16));
        [|apply line_step_linear; exact Hh].
      apply Hdata. reflexivity.
    + cbn [app]. apply Hdata.
      apply negb_false_iff, Z.eqb_eq in Hcond. subst. reflexivity.
Qed.

Lemma chunk_count_pos (data : list byte) :
  data <> [] -> exists n, chunk_count data = S n.
Proof.
  intros H. pose proof (chunk_count_bounds data) as [_ Hc].
  destruct (chunk_count data) as [|n]; [|exists n; reflexivity].
  destruct data; [contradiction|]. unfold Py.len in Hc. cbn in Hc. lia.
Qed.

(** The lines of one segment close the open segment, if any, and leave
    the segment read back as the open one. *)
Lemma parse_segment (s : Z * list byte) (segs : list RecordSegment.t)
  (open : option RecordSegment.t) (rest : list string) (oa : Z) :
  in_range s -> snd s <> [] -> separated gap open s ->
  exists oa',
    parse_loop (run_state src gap segs open)
               (line_loop step oa (map add_LF (all_lines s) ++ rest))
    = parse_loop (run_state src gap (segs ++ opt_list open)
                            (Some (segment_at s)))
                 (line_loop step oa' rest).
Proof.
  destruct s as [baseaddr data]. unfold in_range, segment_at, all_lines.
  cbn [fst snd]. intros [Hb Hmax] Hne Hsep.
  destruct (chunk_count_pos data Hne) as [n Hn].
  pose proof (chunk_count_bounds data) as [Hc1 Hc2]. rewrite Hn in *.
  cbn [seg_lines]. cbv zeta.
  replace (baseaddr + 16 * Z.of_nat 0) with baseaddr by lia.
  set (high := Z.shiftr baseaddr 16).
  assert (Hlen : 0 < Py.len data)
    by (destruct data; [contradiction | unfold Py.len; cbn; lia]).
  pose proof (high_range baseaddr ltac:(lia)) as Hh. fold high in Hh.
  pose proof (chunk_at_len data 0 ltac:(lia)) as Hc.
  cbn [app map].
  rewrite (line_loop_continue oa (Z.shiftl high 16));
    [|apply line_step_linear; exact Hh].
  rewrite (line_loop_emit _ (Z.shiftl high 16) _
             (DATA, Z.land baseaddr 65535 + Z.shiftl high 16,
              chunk_at data 0));
    [|apply line_step_data; [reflexivity | apply low_range | lia]].
  unfold high. rewrite split_addr by lia. fold high.
  cbn [parse_loop].
  assert (Hfirst :
    parse_record (run_state src gap segs open) DATA baseaddr
                 (chunk_at data 0)
    = Ok (run_state src gap (segs ++ opt_list open)
                    (Some (segment_of baseaddr (firstn (16 * 1) data))))).
  { destruct open as [prev|]; cbn [separated opt_list] in *.
    - destruct Hsep as [Hsize Hfar].
      rewrite (parse_record_far _ prev); [|reflexivity|].
      + cbn [_offset _segments run_state set_segments set_seg].
        apply Z.eqb_neq in Hsize. rewrite Hsize.
        replace (baseaddr - 0) with baseaddr by lia. reflexivity.
      + cbn [_offset _gap run_state].
        replace (baseaddr - 0) with baseaddr by lia. exact Hfar.
    - rewrite parse_record_opens by reflexivity.
      cbn [_offset run_state set_seg].
      replace (baseaddr - 0) with baseaddr by lia.
      rewrite app_nil_r. reflexivity. }
  rewrite Hfirst. cbn [bind].
  destruct (parse_rest_of_segment baseaddr data n Hb Hmax 1%nat high
              (Z.shiftl high 16) (segs ++ opt_list open) rest
              ltac:(lia) ltac:(lia) eq_refl) as [oa' Heq].
  exists oa'. rewrite Heq.
  rewrite (firstn_all2 (n := (16 * (1 + n))%nat)); [reflexivity|].
  unfold Py.len in Hc2. lia.
Qed.

Lemma seg_size (s : Z * list byte) :
  snd s <> [] -> RecordSegment.size (segment_at s) <> 0.
Proof.
  destruct s as [b [|x d]]; [contradiction|]. intros _.
  unfold segment_at, RecordSegment.size, Py.len. cbn. lia.
Qed.

(** The lines of a list of segments, read back. *)
Lemma parse_segments (S : list (Z * list byte)) (rest : list string) :
  forall (segs : list RecordSegment.t) (open : option RecordSegment.t)
         (oa : Z),
    chained gap open S ->
    (forall o, open = Some o -> RecordSegment.size o <> 0) ->
    exists oa' segs' open',
      parse_loop (run_state src gap segs open)
                 (line_loop step oa
                            (map add_LF (flat_map all_lines S) ++ rest))
      = parse_loop (run_state src gap segs' open')
                   (line_loop step oa' rest)
      /\ segs' ++ opt_list open' = segs ++ opt_list open ++ map segment_at S
      /\ (forall o, open' = Some o -> RecordSegment.size o <> 0).
Proof.
  induction S as [|s S IH]; intros segs open oa Hchain Hopen.
  - exists oa, segs, open. cbn [flat_map map app].
    rewrite app_nil_r. auto.
  - destruct Hchain as (Hfits & Hne & Hsep & Hchain).
    cbn [flat_map]. rewrite map_app, <- app_assoc.
    destruct (parse_segment s segs open
                (map add_LF (flat_map all_lines S) ++ rest) oa
                Hfits Hne Hsep) as [oa1 H1].
    destruct (IH (segs ++ opt_list open) (Some (segment_at s)) oa1 Hchain)
      as (oa' & segs' & open' & H2 & Hsegs & Hopen').
    { intros o [= <-]. apply seg_size. exact Hne. }
    exists oa', segs', open'. split; [rewrite H1; exact H2|].
    split; [|exact Hopen'].
    rewrite Hsegs. cbn [opt_list map app]. rewrite <- !app_assoc.
    reflexivity.
Qed.

End Run.

(** The round trip through the Intel HEX builder and line parser: the
    text built from a well-formed segment list parses back, with the
    same segment gap, to that list. *)
Lemma ihex_round_trip (gap : Z) (S : list (Z * list byte)) :
  1 <= gap -> well_formed gap S ->
  exists text,
    build_text IHexBuilder.cls (map segment_at S) = Ok text
    /\ ihex_segments gap text = Ok (map segment_at S).
Proof.
  unfold well_formed. intros Hgap Hchain.
  assert (Hfits : Forall in_range S).
  { clear Hgap. revert Hchain. generalize (@None RecordSegment.t).
    induction S as [|s S IH]; intros o H; constructor.
    - apply H.
    - apply (IH (Some (segment_at s))). apply H. }
  exists (lines_text (flat_map all_lines S ++ [eof_line])).
  split; [apply build_text_lines; exact Hfits|].
  unfold ihex_segments, IHexParser.new, RecordParser.new.
  replace (gap <? 1) with false by (symmetry; apply Z.ltb_ge; lia).
  cbn [bind andb]. unfold IHexParser.parse, IHexParser._get_next_chunk.
  cbn [IHexParser.base IHexParser._offset_addr].
  unfold src_lines, stream_rest. cbn [_src stream_pos stream_text StringIO skipn].
  rewrite readlines_text by apply all_lines_no_LF.
  rewrite map_app. cbn [map].
  set (src := StringIO (lines_text (flat_map all_lines S ++ [eof_line]))).
  fold (run_state src gap [] None).
  destruct (parse_segments src gap Hgap S [add_LF eof_line] [] None 0 Hchain)
    as (oa' & segs' & open' & Hrun & Hsegs & Hopen); [discriminate|].
  unfold RecordParser.parse. rewrite Hrun.
  rewrite (line_loop_emit src gap oa' oa' _ (EOF, 0, []));
    [|apply line_step_eof; reflexivity].
  cbn [line_loop parse_loop parse_record bind].
  unfold IHexParser.get_data_segments, get_data_segments.
  cbn [IHexParser.base]. cbn [app opt_list] in Hsegs. rewrite <- Hsegs.
  unfold _store_segment. destruct open' as [o|]; cbn [_seg run_state].
  - specialize (Hopen o eq_refl). apply Z.eqb_neq in Hopen. rewrite Hopen.
    reflexivity.
  - cbn. rewrite app_nil_r. reflexivity.
Qed.

End IntelHexRoundTrip.

(** C4 (as stated, refuted).  Under the default options the parse of the
    two lines of the scenario stops on the first one: its last byte, 40,
    is not the checksum of the record, which is 3D.  And the S-Record
    builder, given the segment and the execution address of the
    scenario, raises instead of writing the lines. *)
Lemma scenario_lines_fail_checksum :
  (p <- SRecParser.new_default true srec_scenario ;; SRecParser.parse p)
  = Raise (Exn SRecError
               "Invalid checksum: 0x%02x / 0x%02x @ line %d:'%s'")
  /\ Z.lxor (Z.land (Py.sum_bytes
                       (bytes_of_hex "130000214601360121470136007EFE09D21901"))
                    255) 255 = 61
  /\ Py.int "40" 16 = Ok 64
  /\ SRecBuilder.build (RecordBuilder.new Py.LF false)
                       [segment_of 0 scenario_payload] None (Some 0) 0
     = Raise (Exn TypeError "can only concatenate str (not 'bytes') to str").
Proof. repeat split; vm_compute; reflexivity. Qed.

(** C4 (amended).  With the checksum of the data record corrected to 3D,
    or with the lines as given and checksum verification disabled, the
    parse yields exactly one segment, at base address 0x0000, holding the
    16 payload bytes, and the execution address 0x0000. *)
Theorem scenario_parses_once_checksum_is_right :
  forall (is_term : bool),
    Py.len scenario_payload = 16
    /\ (exists p,
           (p <- SRecParser.new_default is_term srec_scenario_3D ;;
            SRecParser.parse p) = Ok p
           /\ get_data_segments p = [segment_of 0 scenario_payload]
           /\ getexec p = Some 0)
    /\ (exists p,
           (p <- SRecParser.new is_term srec_scenario 0 0 4294967295 16
                                false false ;;
            SRecParser.parse p) = Ok p
           /\ get_data_segments p = [segment_of 0 scenario_payload]
           /\ getexec p = Some 0).
Proof.
  intros is_term. split; [reflexivity|].
  destruct is_term; split; eexists; (split; [vm_compute; reflexivity|]);
    split; reflexivity.
Qed.

(** C1.  The round trip, evaluated on the single segment that holds the
    bytes 21 46 at address 0, with a segment gap of 16.  The TI-txt
    builder writes the two bytes separated by a space and the TI-txt
    parser raises on that line, as it does on every line built for a
    chunk of two bytes or more; the S-Record builder raises before it
    produces a line, as it does for every list whose first segment holds
    data; the Intel HEX text parses back to the segment, as it does for
    every well-formed segment list and every segment gap. *)
Theorem round_trip_on_two_bytes :
  let S := [segment_of 0 (bytes_of_hex "2146")] in
  (forall (gap : Z) (S : list (Z * list byte)),
      1 <= gap -> well_formed gap S ->
      exists text,
        build_text IHexBuilder.cls (map segment_at S) = Ok text
        /\ ihex_segments gap text = Ok (map segment_at S))
  /\
  (forall (baseaddr : Z) (b : byte) (data : list byte)
          (rest : list RecordSegment.t),
      build_text SRecBuilder.cls (segment_of baseaddr (b :: data) :: rest)
      = Raise (Exn TypeError
                   "can only concatenate str (not 'bytes') to str"))
  /\ (forall (p : RecordParser.t) (st : option Z) (b1 b2 : byte)
             (chunk : list byte),
         exists msg,
           TItxtParser.line_step p st
             (TItxtBuilder.chunk_line (b1 :: b2 :: chunk))
           = Raise (Exn binascii_Error msg))
  /\
  build_text TItxtBuilder.cls S
  = Ok (text_of_lines ["@0000"; "21 46"; "q"]%string)
  /\ titxt_segments 16 (text_of_lines ["@0000"; "21 46"; "q"]%string)
     = Raise (Exn binascii_Error "Odd-length string")
  /\ build_text SRecBuilder.cls S
     = Raise (Exn TypeError "can only concatenate str (not 'bytes') to str")
  /\ SRecBuilder.checksum "030000"
     = Raise (Exn TypeError
                  "ord() expected string of length 1, but int found")
  /\ build_text IHexBuilder.cls S
     = Ok (text_of_lines
             [":020000040000FA"; ":02000000214697"; ":00000001FF"]%string)
  /\ ihex_segments 16
       (text_of_lines
          [":020000040000FA"; ":02000000214697"; ":00000001FF"]%string)
     = Ok S.
Proof.
  cbv zeta. split; [exact ihex_round_trip|]. split.
  - intros baseaddr b data rest. unfold build_text, RecordBuilder.build.
    cbn [bind RecordBuilder.write_segments _create_data SRecBuilder.cls].
    rewrite SRecBuilder_data_raises. reflexivity.
  - split; [exact titxt_chunk_line_rejected|].
    repeat split; vm_compute; reflexivity.
Qed.

(** C2.  Address validation of DATA records.  With verification
    enabled, a DATA record that the S-Record line parser yields lies
    within [min_addr, max_addr], and so does every DATA record of the
    TI-txt line parser.  The Intel HEX line parser treats a line whose
    record type reads 0 in the same way whatever the bounds are.
    Evaluated with the bounds [0, 0xFF] and one byte of data at 0x1000:
    the S-Record and TI-txt parsers raise [RecordError]; both Intel HEX
    parsers accept the record and return the segment [0x1000, 0x1001). *)
Theorem intel_hex_data_address_is_not_validated :
  (forall (p : RecordParser.t) (line : string) (address : Z)
          (value : list byte),
      _verify p = true ->
      SRecParser.line_step p tt line = Ok (Emit tt (DATA, address, value)) ->
      _min_addr p <= address <= _max_addr p)
  /\ (forall (p : RecordParser.t) (st st' : option Z) (line : string)
             (address : Z) (value : list byte),
         TItxtParser.line_step p st line
         = Ok (Emit st' (DATA, address, value)) ->
         _min_addr p <= address <= _max_addr p)
  /\ (forall (p : RecordParser.t) (min_addr max_addr offset_addr : Z)
             (line : string),
         Py.int (Py.str_slice (Py.strip line) (Some 7) (Some 9)) 10 = Ok 0 ->
         IHexParser.line_step (set_bounds p min_addr max_addr) offset_addr
                              line
         = IHexParser.line_step p offset_addr line)
  /\ (p <- SRecParser.new true srec_data_1000 0 0 255 16 false true ;;
      SRecParser.parse p)
     = Raise (Exn RecordError
         "Address out of range [0x%08x..0x%08x]: 0x%08x @ line %d:'%s'")
  /\ (p <- TItxtParser.new true titxt_data_1000 0 0 255 16 false true ;;
      TItxtParser.parse p)
     = Raise (Exn RecordError
         "Address out of range [0x%08x..0x%08x]: 0x%08x @ line %d:'%s'")
  /\ (exists p,
         (p <- IHexParser.new true hex_data_1000 0 0 255 16 false true ;;
          IHexParser.parse p) = Ok p
         /\ _verify (IHexParser.base p) = true
         /\ _max_addr (IHexParser.base p) = 255
         /\ map extent (IHexParser.get_data_segments p) = [(4096, 4097)])
  /\ (exists p,
         (p <- IHexFastParser.new true hex_data_1000 0 0 255 16 false true ;;
          IHexFastParser.parse p) = Ok p
         /\ _verify (IHexFastParser.base p) = true
         /\ _max_addr (IHexFastParser.base p) = 255
         /\ map extent (IHexFastParser.get_data_segments p)
            = [(4096, 4097)]).
Proof.
  split; [exact srec_data_in_bounds|].
  split; [exact titxt_data_in_bounds|].
  split; [exact ihex_data_line_ignores_bounds|].
  split; [vm_compute; reflexivity|].
  split; [vm_compute; reflexivity|].
  split; eexists; (split; [vm_compute; reflexivity|]);
    repeat split; reflexivity.
Qed.

(** C3.  The two Intel HEX parsers, evaluated with identical options on
    the same text.  On a file that holds a start linear address record
    the line parser raises [IHexError] and the fast parser returns
    without an error.  With the upper bound 0xFF, on a file that defines
    the start address 0x8000, the line parser raises [RecordError] and
    the fast parser returns that start address. *)
Theorem fast_parser_accepts_what_line_parser_rejects :
  (p <- IHexParser.new_default true hex_type5 ;; IHexParser.parse p)
  = Raise (Exn IHexError "Unsupported IHEX record: %d @ line %d:'%s'")
  /\ (exists p,
         (p <- IHexFastParser.new_default true hex_type5 ;;
          IHexFastParser.parse p) = Ok p
         /\ IHexFastParser.get_data_segments p = []
         /\ IHexFastParser.getexec p = None)
  /\ (p <- IHexParser.new true hex_exec_8000 0 0 255 16 false true ;;
      IHexParser.parse p)
     = Raise (Exn RecordError
         "Address out of range [0x%08x..0x%08x]: 0x%08x @ line %d:'%s'")
  /\ (exists p,
         (p <- IHexFastParser.new true hex_exec_8000 0 0 255 16 false true ;;
          IHexFastParser.parse p) = Ok p
         /\ IHexFastParser.getexec p = Some 32768).
Proof.
  split; [vm_compute; reflexivity|].
  split; [eexists; split; [vm_compute; reflexivity | split; reflexivity]|].
  split; [vm_compute; reflexivity|].
  eexists; split; [vm_compute; reflexivity | reflexivity].
Qed.

(** C7.  A start linear address record (type 05).  The line parser
    rejects as unsupported every line whose record type reads 5, and the
    fast parser, when it does not raise on a match of record type 5,
    leaves its state, execution address included, as it was.  Evaluated:
    the builder writes such a record for the execution address
    0x00100000; read back, the line parser raises [IHexError] and the
    fast parser steps over the record with no execution address set. *)
Theorem start_linear_address_record_is_not_read :
  forall (src : stream),
    (forall (p : RecordParser.t) (offset_addr : Z) (line : string)
            (size address : Z),
        first_char_is (Py.strip line) 58 = true ->
        Py.int (Py.str_slice (Py.strip line) (Some 1) (Some 3)) 16
        = Ok size ->
        Py.int (Py.str_slice (Py.strip line) (Some 3) (Some 7)) 16
        = Ok address ->
        Py.int (Py.str_slice (Py.strip line) (Some 7) (Some 9)) 10 = Ok 5 ->
        IHexParser.line_step p offset_addr line
        = Raise (Exn IHexError "Unsupported IHEX record: %d"))
    /\ (forall (p q : IHexFastParser.t) (group0 : string)
               (bvalues : list byte),
           Py.unhexlify (Py.str_slice group0 (Some 1) None) = Ok bvalues ->
           Py.getitem bvalues 3 = Ok 5 ->
           IHexFastParser.match_step p group0 = Ok q ->
           q = p)
    /\ IHexBuilder._create_exec 1048576 = Ok hex_type5_line
    /\ IHexParser.line_step (default_parser src) 0 hex_type5_line
       = Raise (Exn IHexError "Unsupported IHEX record: %d")
    /\ IHexFastParser.finditer (list_ascii_of_string hex_type5_line)
       = [hex_type5_line]
    /\ IHexFastParser.match_step
         (IHexFastParser.Make (default_parser src) 0) hex_type5_line
       = Ok (IHexFastParser.Make (default_parser src) 0)
    /\ _exec_addr (default_parser src) = None.
Proof.
  intros src.
  split; [exact ihex_type5_line_unsupported|].
  split; [intros p q group0 bvalues Hb Hrec H;
          exact (fast_type5_match_changes_nothing p group0 bvalues q
                   Hb Hrec H)|].
  repeat split; vm_compute; reflexivity.
Qed.

(** ** The start address in the merge *)

Section MergeOutput.

Import mergehex.
Local Open Scope list_scope.

Variable is_term : bool.

Lemma input_loop_app (noexec : bool) (l1 l2 : list stream) :
  forall (st : option Z) (segs : list RecordSegment.t),
    input_loop is_term noexec st segs (l1 ++ l2)
    = ('(st', segs') <- input_loop is_term noexec st segs l1 ;;
       input_loop is_term noexec st' segs' l2).
Proof.
  induction l1 as [|x l1 IH]; intros st segs; cbn [app input_loop bind];
    [reflexivity|].
  destruct (IHexParser.new_default is_term x) as [p0|e0]; cbn [bind];
    [|reflexivity].
  destruct (IHexParser.parse p0) as [p|e1]; cbn [bind]; [|reflexivity].
  destruct (merge_parsed noexec st segs _ _) as [[st' segs']|e2];
    cbn [bind]; [apply IH | reflexivity].
Qed.

(** An input that defines another start address than the one recorded
    stops the merge with the conflict error. *)
Lemma conflict_raises (pre post : list stream) (y : stream) (a b : Z)
  (segs : list RecordSegment.t) :
  input_loop is_term false None [] pre = Ok (Some a, segs) ->
  parsed_exec is_term y = Ok (Some b) -> a <> b ->
  input_loop is_term false None [] (pre ++ y :: post)
  = Raise (Exn RuntimeError "Several start up address are defined").
Proof.
  intros Hpre Hy Hab. rewrite input_loop_app, Hpre. cbn [bind].
  destruct (input_loop_step is_term y post _ Hy) as (parsed & _ & Hstep).
  rewrite Hstep, merge_parsed_exec.
  apply Z.eqb_neq in Hab. rewrite Hab. reflexivity.
Qed.

Lemma write_lines_of_list (ls : list string) :
  forall b,
    exists text,
      RecordBuilder.write_lines b (gen_of_list ls)
      = Ok (RecordBuilder.Make (RecordBuilder._linesep b)
                               (RecordBuilder._buffer b ++ text)%string).
Proof.
  induction ls as [|l ls IH]; intros b.
  - exists EmptyString. cbn. rewrite str_app_nil_r. destruct b; reflexivity.
  - cbn [gen_of_list fold_right RecordBuilder.write_lines].
    fold (gen_of_list ls).
    destruct (IH (RecordBuilder.write (RecordBuilder.write b l)
                                      (RecordBuilder._linesep b)))
      as [text ->].
    exists (l ++ RecordBuilder._linesep b ++ text)%string.
    unfold RecordBuilder.write.
    cbn [RecordBuilder._linesep RecordBuilder._buffer].
    rewrite !str_app_assoc. reflexivity.
Qed.

Lemma create_data_of_segment (s : RecordSegment.t) :
  IHexBuilder._create_data 0 s
  = IHexBuilder._create_data
      0 (segment_of (RecordSegment.baseaddr s) (RecordSegment.data s)).
Proof. reflexivity. Qed.

Lemma write_segments_in_space (segments : list RecordSegment.t) :
  Forall in_address_space segments ->
  forall b,
    exists text,
      RecordBuilder.write_segments IHexBuilder.cls b 0 segments
      = Ok (RecordBuilder.Make (RecordBuilder._linesep b)
                               (RecordBuilder._buffer b ++ text)%string).
Proof.
  induction 1 as [|s rest [Hb Hmax] _ IH]; intros b;
    cbn [RecordBuilder.write_segments].
  - exists EmptyString. rewrite str_app_nil_r. destruct b; reflexivity.
  - cbn [_create_data IHexBuilder.cls].
    rewrite create_data_of_segment, (create_data_lines _ _ Hb Hmax).
    destruct (write_lines_of_list
                (seg_lines (RecordSegment.baseaddr s) (RecordSegment.data s)
                           None 0 (chunk_count (RecordSegment.data s))) b)
      as [t1 ->].
    cbn [bind].
    destruct (IH (RecordBuilder.Make (RecordBuilder._linesep b)
                                     (RecordBuilder._buffer b ++ t1)%string))
      as [t2 ->].
    exists (t1 ++ t2)%string.
    cbn [RecordBuilder._linesep RecordBuilder._buffer].
    rewrite str_app_assoc. reflexivity.
Qed.

Lemma lor_high_low (cs ip : Z) :
  0 <= cs -> 0 <= ip < 65536 ->
  Z.lor (Z.shiftl cs 16) ip = cs * 65536 + ip.
Proof.
  intros Hcs Hip.
  rewrite <- Z.lxor_lor, <- Z.add_nocarry_lxor.
  - rewrite Z.shiftl_mul_pow2 by lia. reflexivity.
  - apply Z.bits_inj'. intros n Hn.
    rewrite Z.land_spec, Z.bits_0, Z.shiftl_spec by exact Hn.
    destruct (Z.ltb_spec n 16) as [Hlt|Hge].
    + rewrite Z.testbit_neg_r by lia. reflexivity.
    + destruct (Z.eq_dec ip 0) as [->|Hnz];
        [rewrite Z.bits_0; apply andb_false_r|].
      rewrite (Z.bits_above_log2 ip n); [apply andb_false_r | lia|].
      apply Z.log2_lt_pow2; [lia|].
      apply Z.lt_le_trans with (2 ^ 16); [exact (proj2 Hip)|].
      apply Z.pow_le_mono_r; lia.
  - apply Z.bits_inj'. intros n Hn.
    rewrite Z.land_spec, Z.bits_0, Z.shiftl_spec by exact Hn.
    destruct (Z.ltb_spec n 16) as [Hlt|Hge].
    + rewrite Z.testbit_neg_r by lia. reflexivity.
    + destruct (Z.eq_dec ip 0) as [->|Hnz];
        [rewrite Z.bits_0; apply andb_false_r|].
      rewrite (Z.bits_above_log2 ip n); [apply andb_false_r | lia|].
      apply Z.log2_lt_pow2; [lia|].
      apply Z.lt_le_trans with (2 ^ 16); [exact (proj2 Hip)|].
      apply Z.pow_le_mono_r; lia.
Qed.

Lemma pack_I_ok (v : Z) :
  0 <= v < 4294967296 ->
  exists d0 d1 d2 d3, Py.pack_I v = Ok [d0; d1; d2; d3].
Proof.
  intros Hv. unfold Py.pack_I.
  replace ((0 <=? v) && (v <=? 4294967295)) with true.
  - do 4 eexists. reflexivity.
  - symmetry. apply andb_true_iff. split; apply Z.leb_le; lia.
Qed.

(** The builder writes a start record for every 32-bit address. *)
Lemma create_exec_ok (a : Z) :
  0 <= a < 4294967296 -> exists line, IHexBuilder._create_exec a = Ok line.
Proof.
  intros Ha. unfold IHexBuilder._create_exec. cbv zeta.
  destruct (a <? Z.shiftl 1 20) eqn:E.
  - apply Z.ltb_lt in E. change (Z.shiftl 1 20) with 1048576 in E.
    assert (Hcs : 0 <= Z.shiftr a 4 < 65536).
    { rewrite Z.shiftr_div_pow2 by lia. change (2 ^ 4) with 16.
      Z.div_mod_to_equations. lia. }
    pose proof (low_range a) as Hip.
    rewrite lor_high_low by lia.
    destruct (pack_I_ok (Z.shiftr a 4 * 65536 + Z.land a 65535))
      as (d0 & d1 & d2 & d3 & ->); [lia|].
    cbn [bind]. rewrite create_line_eq; [eexists; reflexivity|lia|lia|].
    unfold Py.len. cbn. lia.
  - destruct (pack_I_ok a Ha) as (d0 & d1 & d2 & d3 & ->).
    cbn [bind]. rewrite create_line_eq; [eexists; reflexivity|lia|lia|].
    unfold Py.len. cbn. lia.
Qed.

(** The text the builder writes for segments within the address space
    and a start address: the data, the start record, the end-of-file
    record. *)
Lemma build_with_start (linesep : string) (crlf : bool)
  (segments : list RecordSegment.t) (a : Z) :
  Forall in_address_space segments -> 0 <= a < 4294967296 ->
  let b := RecordBuilder.new linesep crlf in
  exists line body,
    IHexBuilder._create_exec a = Ok line
    /\ IHexBuilder.build b segments None (Some a) 0
       = Ok (RecordBuilder.Make
               (RecordBuilder._linesep b)
               (body ++ line ++ RecordBuilder._linesep b
                ++ ":00000001FF" ++ RecordBuilder._linesep b)%string).
Proof.
  intros Hs Ha b.
  destruct (create_exec_ok a Ha) as [line Hline].
  destruct (write_segments_in_space segments Hs b) as [body Hbody].
  exists line, body. split; [exact Hline|].
  unfold IHexBuilder.build, RecordBuilder.build. cbn [bind].
  rewrite Hbody. cbn [bind _create_exec IHexBuilder.cls]. rewrite Hline.
  cbn [bind].
  change (_create_eof IHexBuilder.cls)
    with (@Ok string ":00000001FF"%string).
  cbn [bind].
  change (String.eqb ":00000001FF" EmptyString) with false. cbn [negb].
  unfold RecordBuilder.write.
  cbn [RecordBuilder._linesep RecordBuilder._buffer].
  unfold b, RecordBuilder.new.
  cbn [RecordBuilder._linesep RecordBuilder._buffer].
  change (EmptyString ++ body)%string with body.
  rewrite !str_app_assoc. reflexivity.
Qed.

(** When every address defined is [a] and the inputs and their segments
    are accepted, [main] returns. *)
Lemma main_with_start (linesep : string) (report : bool)
  (inputs : list stream) (a : Z) (segments : list RecordSegment.t) :
  (forall x, In x inputs ->
             parsed_exec is_term x = Ok None
             \/ parsed_exec is_term x = Ok (Some a)) ->
  (exists x, In x inputs /\ parsed_exec is_term x = Ok (Some a)) ->
  input_loop is_term true None [] inputs = Ok (None, segments) ->
  Forall in_address_space segments -> 0 <= a < 4294967296 ->
  (report = true -> segments <> []) ->
  exists line body,
    IHexBuilder._create_exec a = Ok line
    /\ main linesep is_term false report inputs
       = Ok (Merged segments (Some a)
                    (body ++ line ++ linesep ++ ":00000001FF"
                     ++ linesep)%string).
Proof.
  intros Hall Hex Hrun Hs Ha Hrep.
  destruct (build_with_start linesep false segments a Hs Ha)
    as (line & body & Hline & Hbuild).
  exists line, body. split; [exact Hline|].
  unfold main.
  rewrite (same_exec_merges is_term a inputs Hall Hex _ _ _ _ Hrun).
  cbn [bind]. rewrite Hbuild. cbn [bind].
  destruct report.
  - destruct segments as [|s rest]; [elim (Hrep eq_refl); reflexivity|].
    reflexivity.
  - reflexivity.
Qed.

End MergeOutput.




(** ** What a parse adds to the parser *)

Section ParseFacts.

Local Open Scope list_scope.

Lemma same_options_refl (p : RecordParser.t) : same_options p p.
Proof. repeat split. Qed.

Lemma same_options_trans (p q r : RecordParser.t) :
  same_options p q -> same_options q r -> same_options p r.
Proof.
  unfold same_options. intros (A1 & A2 & A3 & A4 & A5 & A6 & A7)
                              (B1 & B2 & B3 & B4 & B5 & B6 & B7).
  repeat split; congruence.
Qed.

Lemma extends_refl (p : RecordParser.t) : extends p p.
Proof.
  split; [apply same_options_refl|]. exists []. rewrite app_nil_r.
  split; [reflexivity | constructor].
Qed.

Lemma extends_trans (p q r : RecordParser.t) :
  extends p q -> extends q r -> extends p r.
Proof.
  intros [Ho (a1 & E1 & F1)] [Ho' (a2 & E2 & F2)].
  split; [eapply same_options_trans; eassumption|].
  exists (a1 ++ a2). rewrite E2, E1, app_assoc.
  split; [reflexivity | apply Forall_app; split; assumption].
Qed.

Lemma store_segment_extends (p : RecordParser.t) :
  extends p (_store_segment p).
Proof.
  unfold _store_segment.
  destruct p as [src off mn mx vb ex segs info gap [s|] by_ vf];
    cbn [_seg]; [|apply extends_refl].
  destruct (RecordSegment.size s =? 0) eqn:E; cbn [negb].
  - split; [repeat split|]. exists []. cbn. rewrite app_nil_r.
    split; [reflexivity | constructor].
  - split; [repeat split|]. exists [s]. cbn.
    split; [reflexivity|]. constructor; [|constructor].
    apply Z.eqb_neq. exact E.
Qed.

Lemma set_seg_extends (p : RecordParser.t) (o : option RecordSegment.t) :
  extends p (set_seg p o).
Proof.
  split; [repeat split|]. exists []. cbn. rewrite app_nil_r.
  split; [reflexivity | constructor].
Qed.

Lemma parse_record_extends (p p' : RecordParser.t) (record : record_type)
  (address : Z) (value : list byte) :
  parse_record p record address value = Ok p' -> extends p p'.
Proof.
  destruct record; cbn [parse_record].
  - match goal with
    | |- bind ?w _ = _ -> _ => destruct w as [i|e]
    end; cbn [bind]; intros H; [|discriminate].
    injection H as <-. split; [repeat split|]. exists []. cbn.
    rewrite app_nil_r. split; [reflexivity | constructor].
  - cbv zeta.
    set (q := match _seg p with
              | Some s =>
                  if _gap p <=? Z.abs (address - _offset p
                                       - RecordSegment.absaddr s)
                  then _store_segment p else p
              | None => p
              end).
    assert (Hq : extends p q).
    { subst q. destruct (_seg p) as [s|]; [|apply extends_refl].
      destruct (_gap p <=? _); [apply store_segment_extends
                               | apply extends_refl]. }
    match goal with
    | |- bind ?w _ = _ -> _ => destruct w as [s'|e]
    end; cbn [bind]; intros H; [|discriminate].
    injection H as <-.
    eapply extends_trans; [exact Hq | apply set_seg_extends].
  - intros H. injection H as <-. split; [repeat split|]. exists []. cbn.
    rewrite app_nil_r. split; [reflexivity | constructor].
  - intros H. injection H as <-. apply extends_refl.
Qed.

Lemma parse_loop_extends (g : gen chunk) :
  forall p p', parse_loop p g = Ok p' -> extends p p'.
Proof.
  induction g as [|[[record address] value] rest IH|e]; cbn [parse_loop];
    intros p p' H.
  - injection H as <-. apply extends_refl.
  - destruct (parse_record p record address value) as [q|] eqn:E;
      cbn [bind] in H; [|discriminate].
    eapply extends_trans; [eapply parse_record_extends; exact E|].
    apply IH. exact H.
  - discriminate.
Qed.

Lemma match_step_extends (p p' : IHexFastParser.t) (group0 : string) :
  IHexFastParser.match_step p group0 = Ok p' ->
  extends (IHexFastParser.base p) (IHexFastParser.base p').
Proof.
  unfold IHexFastParser.match_step. cbv zeta. intros H.
  repeat match type of H with
         | bind ?c _ = _ =>
             destruct c eqn:?; cbn [bind] in H; [|discriminate H]
         | (if ?c then _ else _) = _ => destruct c eqn:?
         | raise _ _ = Ok _ => discriminate H
         end;
    try (injection H as <-; cbn [IHexFastParser.base]);
    try apply extends_refl.
  - (* data *)
    match goal with
    | |- extends ?b (set_seg ?q _) =>
        apply (extends_trans b q); [|apply set_seg_extends]
    end.
    destruct (_seg (IHexFastParser.base p)) as [s|]; [|apply extends_refl].
    destruct (_gap _ <=? _); [apply store_segment_extends
                             | apply extends_refl].
  - split; [repeat split|]. exists []. cbn. rewrite app_nil_r.
    split; [reflexivity | constructor].
Qed.

Lemma match_loop_extends (matches : list string) :
  forall p p', IHexFastParser.match_loop p matches = Ok p' ->
               extends (IHexFastParser.base p) (IHexFastParser.base p').
Proof.
  induction matches as [|mo rest IH]; cbn [IHexFastParser.match_loop];
    intros p p' H.
  - injection H as <-. apply extends_refl.
  - destruct (IHexFastParser.match_step p mo) as [q|] eqn:E;
      cbn [bind] in H; [|discriminate].
    eapply extends_trans; [eapply match_step_extends; exact E|].
    apply IH. exact H.
Qed.

Lemma parse_extends (p p' : RecordParser.t) (g : gen chunk) :
  RecordParser.parse p g = Ok p' -> _seg p' = None /\ extends p p'.
Proof.
  unfold RecordParser.parse.
  destruct (parse_loop p g) as [q|] eqn:E; cbn [bind]; [|discriminate].
  intros H. injection H as <-.
  split; [apply store_segment_closes|].
  eapply extends_trans; [eapply parse_loop_extends; exact E|].
  apply store_segment_extends.
Qed.

End ParseFacts.

(** X1.  A parse that returns, by the line parsers or by the fast
    Intel HEX parser, leaves no segment open, keeps the options of the
    parser and the segments it already held, in their order, and adds
    after them only segments of a size other than zero. *)
Theorem parse_appends_nonempty_segments :
  (forall (p p' : RecordParser.t) (g : gen chunk),
      RecordParser.parse p g = Ok p' ->
      _seg p' = None /\ extends p p')
  /\ (forall p p' : IHexFastParser.t,
         IHexFastParser.parse p = Ok p' ->
         _seg (IHexFastParser.base p') = None
         /\ extends (IHexFastParser.base p) (IHexFastParser.base p')).
Proof.
  split.
  - intros p p' g. apply parse_extends.
  - intros p p'. unfold IHexFastParser.parse. cbv zeta.
    destruct (IHexFastParser.match_loop p _) as [q|] eqn:E; cbn [bind];
      [|discriminate].
    intros H. injection H as <-. cbn [IHexFastParser.base].
    split; [apply store_segment_closes|].
    eapply extends_trans; [eapply match_loop_extends; exact E|].
    apply store_segment_extends.
Qed.

(** ** Invariants of the parse loop, and the S-Record window *)

Section Invariant.

Local Open Scope list_scope.

Variable Q : RecordSegment.t -> Prop.
Variable A : Z -> Prop.
Hypothesis Q_new : forall addr, A addr -> Q (RecordSegment.new addr).
Hypothesis Q_write :
  forall s v off s', Q s -> RecordSegment.write s v off = Ok s' -> Q s'.

Let inv := segments_all Q.

Lemma store_segment_inv (p : RecordParser.t) : inv p -> inv (_store_segment p).
Proof.
  intros [Hs Ho]. unfold _store_segment.
  destruct p as [src off mn mx vb ex segs info gap [s|] by_ vf];
    cbn [_seg _segments] in *.
  - destruct (negb (RecordSegment.size s =? 0)); split; cbn;
      try discriminate; try assumption.
    apply Forall_app. split; [assumption|].
    constructor; [apply Ho; reflexivity | constructor].
  - split; cbn; [assumption | discriminate].
Qed.

Lemma parse_record_inv (p p' : RecordParser.t) (record : record_type)
  (address : Z) (value : list byte) :
  inv p -> (record = DATA -> A (address - _offset p)) ->
  parse_record p record address value = Ok p' -> inv p'.
Proof.
  intros Hinv HA. destruct record; cbn [parse_record].
  - match goal with
    | |- bind ?w _ = _ -> _ => destruct w as [i|e]
    end; cbn [bind]; intros H; [|discriminate].
    injection H as <-. exact Hinv.
  - cbv zeta.
    set (q := match _seg p with
              | Some s =>
                  if _gap p <=? Z.abs (address - _offset p
                                       - RecordSegment.absaddr s)
                  then _store_segment p else p
              | None => p
              end).
    assert (Hq : inv q).
    { subst q. destruct (_seg p) as [s|]; [|exact Hinv].
      destruct (_gap p <=? _); [apply store_segment_inv|]; exact Hinv. }
    destruct (RecordSegment.write _ value _) as [s'|e] eqn:E;
      cbn [bind]; intros H; [|discriminate].
    injection H as <-. destruct Hq as [Hs Ho]. split.
    + destruct q; exact Hs.
    + intros s Es. destruct q; cbn in Es. injection Es as <-.
      eapply Q_write; [|exact E]. cbn [_seg] in *.
      match goal with
      | |- Q match ?o with _ => _ end => destruct o as [s0|]
      end; [apply Ho; reflexivity | apply Q_new, HA; reflexivity].
  - intros H. injection H as <-. destruct p; exact Hinv.
  - intros H. injection H as <-. exact Hinv.
Qed.

Lemma parse_loop_inv (off : Z) (g : gen chunk) :
  forall p p',
    _offset p = off -> inv p ->
    gen_all (fun c => let '(r, a, _) := c in r = DATA -> A (a - off)) g ->
    parse_loop p g = Ok p' -> inv p'.
Proof.
  induction g as [|[[record address] value] rest IH|e]; cbn [parse_loop];
    intros p p' Hoff Hinv Hg H.
  - injection H as <-. exact Hinv.
  - destruct Hg as [Hc Hg].
    destruct (parse_record p record address value) as [q|] eqn:E;
      cbn [bind] in H; [|discriminate].
    apply (IH q p'); [| |exact Hg|exact H].
    + destruct (parse_record_extends _ _ _ _ _ E) as [(_ & Ho & _) _].
      congruence.
    + eapply parse_record_inv; [exact Hinv| |exact E].
      rewrite Hoff. exact Hc.
  - discriminate.
Qed.

Lemma parse_inv (p p' : RecordParser.t) (g : gen chunk) :
  inv p ->
  gen_all (fun c => let '(r, a, _) := c in r = DATA -> A (a - _offset p)) g ->
  RecordParser.parse p g = Ok p' -> Forall Q (_segments p').
Proof.
  intros Hinv Hg. unfold RecordParser.parse.
  destruct (parse_loop p g) as [q|] eqn:E; cbn [bind]; [|discriminate].
  intros H. injection H as <-.
  apply store_segment_inv.
  eapply parse_loop_inv; [reflexivity|exact Hinv|exact Hg|exact E].
Qed.

End Invariant.

Section Sizes.

Lemma write_size_nonneg (s s' : RecordSegment.t) (v : list byte)
  (off : option Z) :
  0 <= RecordSegment.size s -> RecordSegment.write s v off = Ok s' ->
  0 <= RecordSegment.size s'.
Proof.
  unfold RecordSegment.write, RecordSegment.write_with_size,
    RecordSegment.size.
  intros Hs. pose proof (Zle_0_nat (List.length v)) as Hl.
  fold (Py.len v) in Hl.
  destruct off as [o|].
  - destruct (negb (o - RecordSegment._baseaddr s =? RecordSegment._size s)).
    + unfold BytesIO.seek.
      destruct (o - RecordSegment._baseaddr s <? 0) eqn:E; cbn [bind];
        [discriminate|].
      apply Z.ltb_ge in E. intros H. injection H as <-. cbn. lia.
    + cbn [bind]. intros H. injection H as <-. cbn. lia.
  - cbn [bind]. intros H. injection H as <-. cbn. lia.
Qed.

Lemma write_baseaddr (s s' : RecordSegment.t) (v : list byte)
  (off : option Z) :
  RecordSegment.write s v off = Ok s' ->
  RecordSegment.baseaddr s' = RecordSegment.baseaddr s.
Proof.
  unfold RecordSegment.write, RecordSegment.write_with_size,
    RecordSegment.baseaddr.
  destruct off as [o|].
  - destruct (negb (o - RecordSegment._baseaddr s =? RecordSegment._size s)).
    + destruct (BytesIO.seek _ _); cbn [bind]; [|discriminate].
      intros H. injection H as <-. reflexivity.
    + cbn [bind]. intros H. injection H as <-. reflexivity.
  - cbn [bind]. intros H. injection H as <-. reflexivity.
Qed.

End Sizes.

Section LineLoop.

Lemma line_loop_all (S : Type) (P : chunk -> Prop)
  (step : S -> string -> result (line_outcome S)) :
  (forall s line s' c, step s line = Ok (Emit s' c) -> P c) ->
  (forall s line c, step s line = Ok (EmitBreak c) -> P c) ->
  forall lines s, gen_all P (line_loop step s lines).
Proof.
  intros He Hb. induction lines as [|line rest IH]; intros s;
    cbn [line_loop gen_all]; [exact I|].
  destruct (step s line) as [[s'|s' c|c]|[cl msg]] eqn:E;
    cbn [reraise_with_line].
  - apply IH.
  - split; [eapply He; exact E | apply IH].
  - split; [eapply Hb; exact E | exact I].
  - destruct (is_RecordError cl); exact I.
Qed.

(** With verification enabled, every record but a header that the
    S-Record line parser yields lies within the window. *)
Lemma srec_record_in_window (p : RecordParser.t) (line : string)
  (c : chunk) :
  _verify p = true ->
  SRecParser.line_step p tt line = Ok (Emit tt c) -> in_window p c.
Proof.
  intros Hv H. unfold SRecParser.line_step in H. cbv zeta in H.
  rewrite Hv in H.
  destruct (Py.str_len (Py.strip line) <? 5); [discriminate|].
  destruct (negb (first_char_is (Py.strip line) 83)); [discriminate|].
  split_bind H record Erec.
  split_bind H kind Ekind.
  destruct kind as [[addrend a] type_].
  split_bind H bytes_ Ebytes.
  split_bind H size Esize.
  destruct (negb (size =? Py.len bytes_)); [discriminate|].
  split_bind H u Esum.
  assert (Hdata : type_ <> INFO -> record <> 0).
  { intros Hne. repeat match type of Ekind with
      | (if ?c then _ else _) = _ => destruct c eqn:?
      | bind ?c _ = _ => destruct c; cbn [bind] in Ekind
      end; try discriminate; try lia.
    injection Ekind as _ _ <-. elim Hne. reflexivity. }
  cbn [andb] in H.
  destruct (negb (record =? 0)) eqn:Hz.
  - split_bind H v Everify. injection H as <-.
    apply verify_address_ok in Everify. intros _. exact Everify.
  - injection H as <-.
    apply Bool.negb_false_iff, Z.eqb_eq in Hz.
    intros Hne. elim (Hdata Hne). exact Hz.
Qed.

Lemma srec_step_no_break (p : RecordParser.t) (line : string) (c : chunk) :
  SRecParser.line_step p tt line <> Ok (EmitBreak c).
Proof.
  intros H. unfold SRecParser.line_step in H. cbv zeta in H.
  destruct (Py.str_len (Py.strip line) <? 5); [discriminate|].
  destruct (negb (first_char_is (Py.strip line) 83)); [discriminate|].
  split_bind H record Erec.
  split_bind H kind Ekind.
  destruct kind as [[addrend a] type_].
  split_bind H bytes_ Ebytes.
  split_bind H size Esize.
  destruct (negb (size =? Py.len bytes_)); [discriminate|].
  split_bind H u Esum.
  split_bind H v Ev. discriminate.
Qed.

Lemma srec_chunks_in_window (p : RecordParser.t) :
  _verify p = true ->
  gen_all (in_window p) (SRecParser._get_next_chunk p).
Proof.
  intros Hv. unfold SRecParser._get_next_chunk. apply line_loop_all.
  - intros [] line [] c H. eapply srec_record_in_window; eassumption.
  - intros [] line c H. elim (srec_step_no_break _ _ _ H).
Qed.

Lemma gen_all_impl (A : Type) (P Q : A -> Prop) (g : gen A) :
  (forall a, P a -> Q a) -> gen_all P g -> gen_all Q g.
Proof.
  intros HPQ. induction g as [|a rest IH|e]; cbn [gen_all]; try exact id.
  intros [Ha Hr]. split; [apply HPQ, Ha | apply IH, Hr].
Qed.

Lemma parse_loop_exec (g : gen chunk) :
  forall p p',
    parse_loop p g = Ok p' -> getexec p' = last_exec g (getexec p).
Proof.
  induction g as [|[[record address] value] rest IH|e];
    cbn [parse_loop last_exec]; intros p p' H.
  - injection H as <-. reflexivity.
  - destruct (parse_record p record address value) as [q|] eqn:E;
      cbn [bind] in H; [|discriminate].
    rewrite (IH _ _ H). destruct record; cbn [parse_record] in E.
    + split_bind E i Ei. injection E as <-. reflexivity.
    + cbv zeta in E. split_bind E s' Es. injection E as <-.
      unfold getexec. cbn.
      destruct (_seg p) as [s|]; [|reflexivity].
      destruct (_gap p <=? _); [|reflexivity].
      unfold _store_segment.
      destruct p as [src off mn mx vb ex segs info gap [s0|] by_ vf]; cbn;
        [destruct (negb (RecordSegment.size s0 =? 0))|]; reflexivity.
    + injection E as <-. reflexivity.
    + injection E as <-. reflexivity.
  - discriminate.
Qed.

Lemma store_segment_exec (p : RecordParser.t) :
  getexec (_store_segment p) = getexec p.
Proof.
  unfold _store_segment, getexec.
  destruct p as [src off mn mx vb ex segs info gap [s0|] by_ vf]; cbn;
    [destruct (negb (RecordSegment.size s0 =? 0))|]; reflexivity.
Qed.

Lemma gen_all_exec (P : Z -> Prop) (g : gen chunk) :
  forall init,
    gen_all (fun c => let '(r, a, _) := c in r = EXECUTE -> P a) g ->
    (forall a, init = Some a -> P a) ->
    forall a, last_exec g init = Some a -> P a.
Proof.
  induction g as [|[[record address] value] rest IH|e]; cbn [last_exec gen_all];
    intros init Hg Hi a; try apply Hi.
  destruct Hg as [Hc Hg]. destruct record; try (apply IH; assumption).
  apply IH; [exact Hg|]. intros a' E. injection E as <-. apply Hc.
  reflexivity.
Qed.

Lemma parse_exec (p p' : RecordParser.t) (g : gen chunk) :
  RecordParser.parse p g = Ok p' -> getexec p' = last_exec g (getexec p).
Proof.
  unfold RecordParser.parse.
  destruct (parse_loop p g) as [q|] eqn:E; cbn [bind]; [|discriminate].
  intros H. injection H as <-. rewrite store_segment_exec.
  apply parse_loop_exec. exact E.
Qed.

(** With verification enabled, the segments the S-Record parser returns
    start within the window and hold bytes, and so does the execution
    address. *)
Lemma srec_window (p p' : RecordParser.t) :
  _verify p = true -> _segments p = [] -> _seg p = None ->
  _exec_addr p = None ->
  SRecParser.parse p = Ok p' ->
  Forall (fun s =>
            _min_addr p <= RecordSegment.baseaddr s + _offset p
                        <= _max_addr p
            /\ 0 <= RecordSegment.baseaddr s
            /\ 0 < RecordSegment.size s)
         (get_data_segments p')
  /\ (forall a, getexec p' = Some a ->
                _min_addr p <= a <= _max_addr p /\ _offset p <= a).
Proof.
  intros Hv Hsegs Hseg Hex H. unfold SRecParser.parse in H.
  pose proof (srec_chunks_in_window p Hv) as Hw.
  split.
  - assert (H1 : Forall (fun s =>
                _min_addr p <= RecordSegment.baseaddr s + _offset p
                            <= _max_addr p
                /\ 0 <= RecordSegment.baseaddr s
                /\ 0 <= RecordSegment.size s) (_segments p')).
    { apply (parse_inv _ (fun a => _min_addr p <= a + _offset p <= _max_addr p
                                   /\ 0 <= a))
        with (p := p) (g := SRecParser._get_next_chunk p).
      - intros addr Ha. cbn. lia.
      - intros s v off s' Hq Hwr.
        rewrite (write_baseaddr _ _ _ _ Hwr).
        pose proof (write_size_nonneg s s' v off) as Hn. intuition.
      - split; [rewrite Hsegs; constructor | rewrite Hseg; discriminate].
      - eapply gen_all_impl; [|exact Hw].
        intros [[r a] v] Hc ->.
        destruct (Hc ltac:(discriminate)) as [Hb Ho]. lia.
      - exact H. }
    destruct (parse_extends _ _ _ H) as [_ [_ (added & Ea & Fa)]].
    rewrite Hsegs in Ea. cbn in Ea. unfold get_data_segments.
    rewrite Ea in *. rewrite Forall_forall in *.
    intros s Hs. specialize (H1 s Hs). specialize (Fa s Hs). cbn in *. lia.
  - intros a Ha.
    rewrite (parse_exec _ _ _ H) in Ha.
    revert a Ha. apply gen_all_exec.
    + eapply gen_all_impl; [|exact Hw].
      intros [[r a] v] Hc ->. apply Hc. discriminate.
    + unfold getexec. rewrite Hex. discriminate.
Qed.

End LineLoop.

(** X2.  After a parse that returns, the execution address of the parser
    is the address of the last EXECUTE record the reader yielded, and the
    address the parser held before when there was none. *)
Theorem exec_address_is_last_execute_record :
  forall (p p' : RecordParser.t) (g : gen chunk),
    RecordParser.parse p g = Ok p' ->
    getexec p' = last_exec g (getexec p).
Proof. exact parse_exec. Qed.

Lemma exec_address_is_last_execute_record_witness :
  getexec (set_exec_addr
             (default_parser (StringIO EmptyString)) (Some 256)) = Some 256.
Proof.
  apply (exec_address_is_last_execute_record
           (default_parser (StringIO EmptyString)) _
           (GYield (EXECUTE, 16, []) (GYield (DATA, 0, [])
              (GYield (EXECUTE, 256, []) GStop)))).
  reflexivity.
Defined.

(** X3.  The S-Record parser with address verification on, started
    without segments: after a parse that returns, every data segment
    starts at an address that, the offset added back, lies between
    [min_addr] and [max_addr], is not negative and has a size above
    zero; and an execution address, when one is set, lies in the same
    window and is not below the offset. *)
Theorem srec_segments_start_in_window :
  forall (p p' : RecordParser.t),
    _verify p = true -> _segments p = [] -> _seg p = None ->
    _exec_addr p = None ->
    SRecParser.parse p = Ok p' ->
    Forall (fun s =>
              _min_addr p <= RecordSegment.baseaddr s + _offset p
                          <= _max_addr p
              /\ 0 <= RecordSegment.baseaddr s
              /\ 0 < RecordSegment.size s)
           (get_data_segments p')
    /\ (forall a, getexec p' = Some a ->
                  _min_addr p <= a <= _max_addr p /\ _offset p <= a).
Proof. exact srec_window. Qed.

Lemma srec_segments_start_in_window_witness :
  Forall (fun s => 0 <= RecordSegment.baseaddr s + 0 <= 4294967295
                   /\ 0 <= RecordSegment.baseaddr s
                   /\ 0 < RecordSegment.size s)
         [segment_of 0 scenario_payload].
Proof.
  refine (proj1 (srec_segments_start_in_window
                   (default_parser srec_scenario_3D)
                   (set_exec_addr
                      (set_segments (default_parser srec_scenario_3D)
                                    [segment_of 0 scenario_payload])
                      (Some 0))
                   eq_refl eq_refl eq_refl eq_refl _)).
  vm_compute. reflexivity.
Defined.

(** ** The TI-txt builder *)

Section Builders.

Local Open Scope list_scope.

Lemma appended_refl (b : RecordBuilder.t) : appended b b EmptyString.
Proof. split; [reflexivity | symmetry; apply str_app_nil_r]. Qed.

Lemma appended_trans (b1 b2 b3 : RecordBuilder.t) (s1 s2 : string) :
  appended b1 b2 s1 -> appended b2 b3 s2 -> appended b1 b3 (s1 ++ s2)%string.
Proof.
  intros [L1 B1] [L2 B2]. split; [congruence|].
  rewrite B2, B1. apply str_app_assoc.
Qed.

Lemma appended_line (b : RecordBuilder.t) (line : string) :
  appended b (RecordBuilder.write (RecordBuilder.write b line)
                                  (RecordBuilder._linesep b))
           (line ++ RecordBuilder._linesep b)%string.
Proof.
  split; [reflexivity|]. cbn. apply str_app_assoc.
Qed.

Lemma write_lines_appended (g : gen string) :
  forall b b', RecordBuilder.write_lines b g = Ok b' ->
               exists s, appended b b' s.
Proof.
  induction g as [|line rest IH|e]; cbn [RecordBuilder.write_lines];
    intros b b' H.
  - injection H as <-. eexists. apply appended_refl.
  - destruct (IH _ _ H) as [s Hs]. eexists.
    eapply appended_trans; [apply appended_line | exact Hs].
  - discriminate.
Qed.

Lemma write_segments_appended (cls : builder_class) (offset : Z)
  (datasegs : list RecordSegment.t) :
  forall b b', RecordBuilder.write_segments cls b offset datasegs = Ok b' ->
               exists s, appended b b' s.
Proof.
  induction datasegs as [|seg rest IH]; cbn [RecordBuilder.write_segments];
    intros b b' H.
  - injection H as <-. eexists. apply appended_refl.
  - split_bind H b1 E1. destruct (write_lines_appended _ _ _ E1) as [s1 H1].
    destruct (IH _ _ H) as [s2 H2]. eexists.
    eapply appended_trans; eassumption.
Qed.

(** What [build] does, step by step, when it returns. *)
Lemma build_steps (cls : builder_class) (b b' : RecordBuilder.t)
  (datasegs : list RecordSegment.t) (infoseg : option RecordSegment.t)
  (execaddr : option Z) (offset : Z) :
  RecordBuilder.build cls b datasegs infoseg execaddr offset = Ok b' ->
  exists s eof,
    _create_eof cls = Ok eof
    /\ appended b b'
         (s ++ if String.eqb eof EmptyString then EmptyString
               else eof ++ RecordBuilder._linesep b)%string.
Proof.
  unfold RecordBuilder.build. intros H.
  split_bind H b1 E1. split_bind H b2 E2. split_bind H b3 E3.
  split_bind H eof E4.
  assert (H1 : exists s, appended b b1 s).
  { destruct infoseg as [i|].
    - split_bind E1 line El. injection E1 as <-. eexists.
      apply appended_line.
    - injection E1 as <-. eexists. apply appended_refl. }
  destruct H1 as [s1 H1].
  destruct (write_segments_appended _ _ _ _ _ E2) as [s2 H2].
  assert (H3 : exists s, appended b2 b3 s).
  { destruct execaddr as [a|].
    - split_bind E3 line El. injection E3 as <-. eexists.
      apply appended_line.
    - injection E3 as <-. eexists. apply appended_refl. }
  destruct H3 as [s3 H3].
  pose proof (appended_trans _ _ _ _ _ (appended_trans _ _ _ _ _ H1 H2) H3)
    as H123.
  exists ((s1 ++ s2) ++ s3)%string, eof. split; [reflexivity|].
  destruct (String.eqb eof EmptyString); cbn [negb] in H; injection H as <-.
  - eapply appended_trans; [exact H123 | apply appended_refl].
  - eapply appended_trans; [exact H123|].
    replace (RecordBuilder._linesep b) with (RecordBuilder._linesep b3)
      by (destruct H123 as [L _]; exact L).
    apply appended_line.
Qed.

(** The TI-txt data generator never raises. *)
Lemma chunk_loop_total (S : Type)
  (body : S -> Z -> result (list string * S)) :
  (forall s pos, exists r, body s pos = Ok r) ->
  forall positions s b,
    exists b', RecordBuilder.write_lines
                 b (RecordBuilder.chunk_loop body s positions) = Ok b'.
Proof.
  intros Hb. induction positions as [|pos rest IH]; intros s b;
    cbn [RecordBuilder.chunk_loop].
  - eexists. reflexivity.
  - destruct (Hb s pos) as [[lines s'] ->].
    revert b. induction lines as [|l ls IHl]; intros b; cbn [fold_right].
    + apply IH.
    + cbn [RecordBuilder.write_lines]. apply IHl.
Qed.

Lemma titxt_write_segments_total (offset : Z)
  (datasegs : list RecordSegment.t) :
  forall b, exists b',
    RecordBuilder.write_segments TItxtBuilder.cls b offset datasegs = Ok b'.
Proof.
  induction datasegs as [|seg rest IH]; intros b;
    cbn [RecordBuilder.write_segments].
  - eexists. reflexivity.
  - assert (H : exists b1,
               RecordBuilder.write_lines
                 b (_create_data TItxtBuilder.cls offset seg) = Ok b1).
    { cbn [_create_data TItxtBuilder.cls]. unfold TItxtBuilder._create_data.
      cbv zeta.
      destruct (RecordSegment.data seg) eqn:Ed.
      - apply chunk_loop_total. intros s pos. eexists. reflexivity.
      - cbn [RecordBuilder.write_lines].
        apply chunk_loop_total. intros s pos. eexists. reflexivity. }
    destruct H as [b1 ->]. cbn [bind]. apply IH.
Qed.

End Builders.


(** ** The S-Record and Intel HEX builders on any input *)

Section BuilderErrors.

Local Open Scope list_scope.

Lemma range0_nil : Py.range0 0 16 = [].
Proof. reflexivity. Qed.

Lemma range0_first (data : list byte) :
  data <> [] -> exists rest, Py.range0 (Py.len data) 16 = 0 :: rest.
Proof.
  intros H. apply range0_pos. destruct data; [elim H; reflexivity|].
  unfold Py.len. cbn [List.length]. lia.
Qed.

Lemma write_lines_throw (b : RecordBuilder.t) (e : exn) :
  RecordBuilder.write_lines b (GThrow e) = Raise e.
Proof. reflexivity. Qed.

Lemma srec_create_data (offset : Z) (seg : RecordSegment.t) :
  SRecBuilder._create_data offset seg
  = match RecordSegment.data seg with
    | [] => GStop
    | _ => GThrow (Exn TypeError
                       "can only concatenate str (not 'bytes') to str")
    end.
Proof.
  unfold SRecBuilder._create_data. cbv zeta.
  destruct (RecordSegment.data seg) as [|x d] eqn:E.
  - destruct (if _ <? _ then _ else _) as [digit width]. reflexivity.
  - destruct (range0_first (x :: d) ltac:(discriminate)) as [rest ->].
    destruct (if _ <? _ then _ else _) as [digit width]. reflexivity.
Qed.

Lemma slice_from (A : Type) (l : list A) (lo : Z) :
  0 <= lo <= Py.len l ->
  Py.slice l (Some lo) None = skipn (Z.to_nat lo) l.
Proof.
  intros H. unfold Py.slice, Py.clamp. fold (Py.len l).
  destruct (lo <? 0) eqn:E; [apply Z.ltb_lt in E; lia|].
  rewrite Z.min_l by lia. apply firstn_all2.
  rewrite length_skipn. unfold Py.len in *. lia.
Qed.

Lemma unhex_pairs_nonempty (l : list ascii) (bs : list byte) :
  l <> [] -> Py.unhex_pairs l = Some bs -> bs <> [].
Proof.
  destruct l as [|h [|lo r]]; cbn [Py.unhex_pairs]; intros Hl H;
    try discriminate; [elim Hl; reflexivity|].
  destruct (Py.digit_val h), (Py.digit_val lo), (Py.unhex_pairs r);
    try discriminate.
  destruct (_ && _); [|discriminate]. injection H as <-. discriminate.
Qed.

Lemma srec_checksum_raises (hexastr : string) :
  hexastr <> EmptyString -> exists e, SRecBuilder.checksum hexastr = Raise e.
Proof.
  intros Hne. unfold SRecBuilder.checksum.
  destruct (Py.unhexlify hexastr) as [bs|e] eqn:E; cbn [bind];
    [|eexists; reflexivity].
  assert (Hbs : bs <> []).
  { unfold Py.unhexlify in E.
    destruct (existsb _ _); [discriminate|].
    destruct (Z.odd _); [discriminate|].
    destruct (Py.unhex_pairs _) as [b|] eqn:Eu; [|discriminate].
    injection E as <-. eapply unhex_pairs_nonempty; [|exact Eu].
    destruct hexastr; [elim Hne; reflexivity | discriminate]. }
  destruct bs as [|x bs]; [elim Hbs; reflexivity|].
  eexists. reflexivity.
Qed.

Lemma str_slice_from_2 (c1 c2 : ascii) (s : string) :
  Py.str_slice (String c1 (String c2 s)) (Some 2) None = s.
Proof.
  unfold Py.str_slice. cbn [list_ascii_of_string].
  rewrite slice_from.
  - cbn [Z.to_nat Pos.to_nat Pos.iter_op Nat.add skipn].
    apply string_of_list_ascii_of_string.
  - unfold Py.len. cbn [List.length]. lia.
Qed.

Lemma srec_create_exec_raises (address : Z) :
  exists e, SRecBuilder._create_exec address = Raise e.
Proof.
  unfold SRecBuilder._create_exec. cbv zeta.
  match goal with
  | |- exists e, bind (SRecBuilder.checksum ?s) _ = _ =>
      assert (Hs : s <> EmptyString)
  end.
  { destruct (address <? Z.shiftl 1 16);
      [|destruct (address <? Z.shiftl 1 24)];
      cbn [String.append]; rewrite str_slice_from_2; discriminate. }
  destruct (srec_checksum_raises _ Hs) as [e ->]. eexists. reflexivity.
Qed.

Lemma srec_write_segments (offset : Z) (datasegs : list RecordSegment.t) :
  forall b b',
    RecordBuilder.write_segments SRecBuilder.cls b offset datasegs = Ok b'
    <-> b' = b /\ Forall (fun s => RecordSegment.data s = []) datasegs.
Proof.
  induction datasegs as [|seg rest IH]; intros b b';
    cbn [RecordBuilder.write_segments].
  - split.
    + intros H. injection H as <-. split; [reflexivity | constructor].
    + intros [-> _]. reflexivity.
  - cbn [_create_data SRecBuilder.cls]. rewrite srec_create_data.
    destruct (RecordSegment.data seg) as [|x d] eqn:E.
    + cbn [RecordBuilder.write_lines bind]. rewrite IH. split.
      * intros [-> F]. split; [reflexivity|]. constructor; assumption.
      * intros [-> F]. split; [reflexivity|]. inversion F. assumption.
    + cbn [RecordBuilder.write_lines bind]. split; [discriminate|].
      intros [_ F]. inversion F. congruence.
Qed.

Lemma ihex_create_data_overflow (offset : Z) (seg : RecordSegment.t) :
  RecordSegment.data seg <> [] ->
  offset + RecordSegment.baseaddr seg < 0
  \/ 4294967296 <= offset + RecordSegment.baseaddr seg ->
  IHexBuilder._create_data offset seg
  = GThrow (Exn struct_error "'H' format requires 0 <= number <= 65535").
Proof.
  intros Hd Ha. unfold IHexBuilder._create_data. cbv zeta.
  destruct (range0_first _ Hd) as [rest ->].
  cbn [RecordBuilder.chunk_loop]. unfold Py.pack_H.
  assert (E : (0 <=? Z.shiftr (offset + RecordSegment.baseaddr seg) 16)
              && (Z.shiftr (offset + RecordSegment.baseaddr seg) 16
                  <=? 65535) = false).
  { rewrite Z.shiftr_div_pow2 by lia. change (2 ^ 16) with 65536.
    apply andb_false_iff. destruct Ha as [Ha|Ha].
    - left. apply Z.leb_gt. Z.div_mod_to_equations. lia.
    - right. apply Z.leb_gt. Z.div_mod_to_equations. lia. }
  rewrite E. reflexivity.
Qed.

End BuilderErrors.

(** X5.  A build by the S-Record builder returns exactly when there is
    nothing to write: no info segment, no execution address and no byte
    in any data segment; the builder is then left as it was.  Every other
    build raises. *)
Theorem srec_builder_writes_nothing :
  forall (b b' : RecordBuilder.t) (datasegs : list RecordSegment.t)
         (infoseg : option RecordSegment.t) (execaddr : option Z)
         (offset : Z),
    SRecBuilder.build b datasegs infoseg execaddr offset = Ok b'
    <-> (b' = b /\ infoseg = None /\ execaddr = None
         /\ Forall (fun s => RecordSegment.data s = []) datasegs).
Proof.
  intros b b' datasegs infoseg execaddr offset.
  unfold SRecBuilder.build, RecordBuilder.build.
  destruct infoseg as [i|].
  - cbn [bind _create_info SRecBuilder.cls]. split; [discriminate|].
    intros (_ & H & _). discriminate.
  - cbn [bind].
    destruct (RecordBuilder.write_segments SRecBuilder.cls b offset datasegs)
      as [b1|e] eqn:E; cbn [bind].
    + apply srec_write_segments in E. destruct E as [-> F].
      destruct execaddr as [a|].
      * cbn [_create_exec SRecBuilder.cls].
        destruct (srec_create_exec_raises a) as [e ->]. cbn [bind].
        split; [discriminate|]. intros (_ & _ & H & _). discriminate.
      * cbn [bind _create_eof SRecBuilder.cls SRecBuilder._create_eof
               String.eqb negb]. split.
        -- intros H. injection H as <-. repeat split. exact F.
        -- intros (-> & _). reflexivity.
    + split; [discriminate|]. intros (-> & _ & _ & F).
      assert (H : RecordBuilder.write_segments SRecBuilder.cls b offset
                    datasegs = Ok b)
        by (apply srec_write_segments; split; [reflexivity | exact F]).
      congruence.
Qed.



(** X7.  The Intel HEX builder raises [struct.error] when the first
    data segment holds bytes and its address, the offset added, is
    negative or does not fit 32 bits. *)
Theorem ihex_builder_rejects_addresses_beyond_32_bits :
  forall (b : RecordBuilder.t) (seg : RecordSegment.t)
         (rest : list RecordSegment.t) (infoseg : option RecordSegment.t)
         (execaddr : option Z) (offset : Z),
    RecordSegment.data seg <> [] ->
    offset + RecordSegment.baseaddr seg < 0
    \/ 4294967296 <= offset + RecordSegment.baseaddr seg ->
    raises (IHexBuilder.build b (seg :: rest) infoseg execaddr offset)
           struct_error.
Proof.
  intros b seg rest infoseg execaddr offset Hd Ha.
  unfold IHexBuilder.build, RecordBuilder.build.
  destruct infoseg as [i|];
    cbn [bind _create_info IHexBuilder.cls IHexBuilder._create_info
         RecordBuilder.write_segments _create_data];
    rewrite (ihex_create_data_overflow _ _ Hd Ha);
    eexists; reflexivity.
Qed.

Lemma ihex_builder_rejects_addresses_beyond_32_bits_witness :
  raises (IHexBuilder.build (RecordBuilder.new Py.LF false)
            [segment_of 4294967296 [x55]] None None 0) struct_error.
Proof.
  apply ihex_builder_rejects_addresses_beyond_32_bits.
  - discriminate.
  - right. vm_compute. discriminate.
Defined.

(** ** The segments of a merge *)

Section MergeOrder.

Import mergehex.
Local Open Scope list_scope.

Lemma insert_sorted_perm (x : RecordSegment.t) (l : list RecordSegment.t) :
  Permutation (insert_sorted x l) (x :: l).
Proof.
  induction l as [|y r IH]; cbn [insert_sorted]; [apply Permutation_refl|].
  destruct (RecordSegment.baseaddr x <? RecordSegment.baseaddr y);
    [apply Permutation_refl|].
  eapply perm_trans; [apply perm_skip, IH | apply perm_swap].
Qed.

Lemma sort_fold_perm (l : list RecordSegment.t) :
  forall acc,
    Permutation (fold_left (fun acc x => insert_sorted x acc) l acc)
                (acc ++ l).
Proof.
  induction l as [|x r IH]; intros acc; cbn [fold_left].
  - rewrite app_nil_r. apply Permutation_refl.
  - eapply perm_trans; [apply IH|].
    eapply perm_trans;
      [apply Permutation_app_tail, insert_sorted_perm|].
    cbn. apply Permutation_middle.
Qed.

Lemma sort_perm (l : list RecordSegment.t) :
  Permutation (sort_by_baseaddr l) l.
Proof. apply (sort_fold_perm l []). Qed.

(** Inserting after a list whose base addresses are not above. *)
Lemma insert_sorted_last (x : RecordSegment.t) (l : list RecordSegment.t) :
  Forall (fun y => RecordSegment.baseaddr y <= RecordSegment.baseaddr x) l ->
  insert_sorted x l = l ++ [x].
Proof.
  induction 1 as [|y r Hy Hr IH]; cbn [insert_sorted]; [reflexivity|].
  destruct (RecordSegment.baseaddr x <? RecordSegment.baseaddr y) eqn:E.
  - apply Z.ltb_lt in E. lia.
  - rewrite IH. reflexivity.
Qed.

Lemma sort_fold_sorted (l : list RecordSegment.t) :
  forall acc,
    StronglySorted (fun a b => RecordSegment.baseaddr a
                               <= RecordSegment.baseaddr b) (acc ++ l) ->
    fold_left (fun acc x => insert_sorted x acc) l acc = acc ++ l.
Proof.
  induction l as [|x r IH]; intros acc Hs; cbn [fold_left].
  - rewrite app_nil_r. reflexivity.
  - rewrite insert_sorted_last.
    + rewrite IH; rewrite <- app_assoc; [reflexivity | exact Hs].
    + clear IH. induction acc as [|a acc IHa]; [constructor|].
      cbn in Hs. inversion Hs as [|? ? Hs' Ha]; subst.
      constructor; [|apply IHa; exact Hs'].
      rewrite Forall_forall in Ha. apply Ha, in_or_app. right. left.
      reflexivity.
Qed.

(** Sorting leaves a list in order of base address as it is. *)
Lemma sort_sorted (l : list RecordSegment.t) :
  StronglySorted (fun a b => RecordSegment.baseaddr a
                             <= RecordSegment.baseaddr b) l ->
  sort_by_baseaddr l = l.
Proof. intros H. apply (sort_fold_sorted l [] H). Qed.

Lemma sort_snoc (l : list RecordSegment.t) (x : RecordSegment.t) :
  sort_by_baseaddr (l ++ [x]) = insert_sorted x (sort_by_baseaddr l).
Proof. unfold sort_by_baseaddr. rewrite fold_left_app. reflexivity. Qed.

Lemma ordered_by_base (l : list RecordSegment.t) :
  ordered l ->
  StronglySorted (fun a b => RecordSegment.baseaddr a
                             <= RecordSegment.baseaddr b) l.
Proof.
  intros [Hs Hp]. induction Hs as [|a l Hs IH Ha]; [constructor|].
  inversion Hp as [|? ? Hpa Hpl]; subst.
  constructor; [apply IH; exact Hpl|].
  rewrite Forall_forall in *. intros b Hb. specialize (Ha b Hb).
  unfold before, holds_bytes in *. lia.
Qed.

Lemma check_override_ok (c : RecordSegment.t) (l : list RecordSegment.t) :
  check_override c l = Ok tt ->
  Forall (fun s =>
            RecordSegment.baseaddr c + RecordSegment.size c
            < RecordSegment.baseaddr s
            \/ before s c) l.
Proof.
  induction l as [|s r IH]; cbn [check_override]; [constructor|].
  destruct (_ && _) eqn:E; [discriminate|]. intros H.
  constructor; [|apply IH; exact H].
  apply andb_false_iff in E. unfold before.
  destruct E as [E|E]; [apply Z.leb_gt in E | apply Z.ltb_ge in E]; lia.
Qed.

Lemma insert_sorted_ordered (c : RecordSegment.t)
  (l : list RecordSegment.t) :
  ordered l -> holds_bytes c ->
  Forall (fun s =>
            RecordSegment.baseaddr c + RecordSegment.size c
            < RecordSegment.baseaddr s
            \/ before s c) l ->
  ordered (insert_sorted c l).
Proof.
  intros [Hs Hp] Hc Hf. split.
  - induction Hs as [|y r Hs IH Hy]; cbn [insert_sorted].
    + constructor; constructor.
    + inversion Hp as [|? ? Hpy Hpr]; subst.
      inversion Hf as [|? ? Hfy Hfr]; subst.
      unfold before, holds_bytes in *.
      destruct (RecordSegment.baseaddr c <? RecordSegment.baseaddr y) eqn:E.
      * apply Z.ltb_lt in E.
        constructor; [constructor; assumption|].
        constructor; [lia|].
        rewrite Forall_forall in *. intros z Hz.
        specialize (Hy z Hz). specialize (Hpr z Hz). specialize (Hfr z Hz).
        lia.
      * apply Z.ltb_ge in E.
        constructor; [apply IH; assumption|].
        apply (Permutation_Forall
                 (Permutation_sym (insert_sorted_perm c r))).
        constructor; [lia | exact Hy].
  - apply (Permutation_Forall (Permutation_sym (insert_sorted_perm c l))).
    constructor; assumption.
Qed.

Lemma add_segments_ordered (parsed : list RecordSegment.t) :
  forall segments out,
    ordered segments -> Forall holds_bytes parsed ->
    add_segments segments parsed = Ok out ->
    ordered out /\ Permutation out (segments ++ parsed).
Proof.
  induction parsed as [|c rest IH]; intros segments out Ho Hp;
    cbn [add_segments]; intros H.
  - injection H as <-. rewrite app_nil_r. split; [exact Ho|].
    apply Permutation_refl.
  - inversion Hp as [|? ? Hc Hrest]; subst.
    destruct (check_override c segments) as [[]|e] eqn:E; cbn [bind] in H;
      [|discriminate].
    rewrite sort_snoc, (sort_sorted _ (ordered_by_base _ Ho)) in H.
    destruct (IH _ _ (insert_sorted_ordered _ _ Ho Hc
                        (check_override_ok _ _ E)) Hrest H) as [Hout Hperm].
    split; [exact Hout|].
    eapply perm_trans; [exact Hperm|].
    eapply perm_trans;
      [apply Permutation_app_tail, insert_sorted_perm|].
    cbn. apply Permutation_middle.
Qed.

(** The segments of a parsed Intel HEX file hold bytes. *)
Lemma parsed_segments_hold_bytes (is_term : bool) (inhex : stream)
  (l : list RecordSegment.t) :
  parsed_segments is_term inhex = Ok l -> Forall holds_bytes l.
Proof.
  unfold parsed_segments, IHexParser.new_default, IHexParser.new,
    RecordParser.new. cbn [Z.ltb Z.compare Pos.compare Pos.compare_cont bind].
  unfold IHexParser.parse. cbn [IHexParser.base IHexParser._offset_addr].
  set (p := RecordParser.Make _ _ _ _ _ _ _ _ _ _ _ _).
  set (g := IHexParser._get_next_chunk _).
  destruct (RecordParser.parse p g) as [p'|e] eqn:E; cbn [bind];
    [|discriminate].
  intros H. injection H as <-.
  unfold IHexParser.get_data_segments, get_data_segments.
  cbn [IHexParser.base].
  assert (H1 : Forall (fun s => 0 <= RecordSegment.size s) (_segments p')).
  { apply (parse_inv _ (fun _ => True)) with (p := p) (g := g).
    - intros addr _. cbn. lia.
    - intros s v off s' Hq Hwr. eapply write_size_nonneg; eassumption.
    - split; [constructor | discriminate].
    - clear E. induction g as [|[[r a] v] rest IH|]; cbn; auto.
    - exact E. }
  assert (H2 : extends p p').
  { unfold RecordParser.parse in E.
    destruct (parse_loop p g) as [q|] eqn:Eq; cbn [bind] in E;
      [|discriminate].
    injection E as <-.
    eapply extends_trans; [eapply parse_loop_extends; exact Eq|].
    apply store_segment_extends. }
  destruct H2 as [_ (added & Ea & Fa)]. cbn in Ea. rewrite Ea in *.
  rewrite Forall_forall in *. intros s Hs.
  specialize (H1 s Hs). specialize (Fa s Hs). unfold holds_bytes. lia.
Qed.

Lemma input_loop_ordered (is_term noexec : bool) (inputs : list stream) :
  forall (st st' : option Z) (segments out : list RecordSegment.t),
    ordered segments ->
    input_loop is_term noexec st segments inputs = Ok (st', out) ->
    ordered out
    /\ exists parsed,
        Forall2 (fun x l => parsed_segments is_term x = Ok l) inputs parsed
        /\ Permutation out (segments ++ List.concat parsed).
Proof.
  induction inputs as [|x rest IH]; intros st st' segments out Ho;
    cbn [input_loop]; intros H.
  - injection H as <- <-. split; [exact Ho|]. exists []. split; [constructor|].
    cbn. rewrite app_nil_r. apply Permutation_refl.
  - split_bind H p0 E0. split_bind H p1 E1. split_bind H r Er.
    destruct r as [st1 segs1].
    assert (Hx : parsed_segments is_term x
                 = Ok (IHexParser.get_data_segments p1)).
    { unfold parsed_segments. rewrite E0. cbn [bind]. rewrite E1.
      reflexivity. }
    unfold merge_parsed in Er. split_bind Er st2 Es. split_bind Er segs2 Ea.
    injection Er as <- <-.
    destruct (add_segments_ordered _ _ _ Ho
                (parsed_segments_hold_bytes _ _ _ Hx) Ea) as [Ho2 Hp2].
    destruct (IH _ _ _ _ Ho2 H) as [Hout (parsed & Hf & Hp)].
    split; [exact Hout|].
    exists (IHexParser.get_data_segments p1 :: parsed).
    split; [constructor; assumption|].
    eapply perm_trans; [exact Hp|]. cbn [List.concat]. rewrite app_assoc.
    apply Permutation_app_tail. exact Hp2.
Qed.

End MergeOrder.



(** ** The binary image *)

Section Binary.

Import mergehex.
Local Open Scope list_scope.

Lemma insert_sorted_by_base (x : RecordSegment.t)
  (l : list RecordSegment.t) :
  StronglySorted by_base l -> StronglySorted by_base (insert_sorted x l).
Proof.
  induction 1 as [|y r Hs IH Hy]; cbn [insert_sorted].
  - constructor; constructor.
  - destruct (RecordSegment.baseaddr x <? RecordSegment.baseaddr y) eqn:E.
    + apply Z.ltb_lt in E. constructor; [constructor; assumption|].
      constructor; [unfold by_base; lia|].
      rewrite Forall_forall in *. intros z Hz. specialize (Hy z Hz).
      unfold by_base in *. lia.
    + apply Z.ltb_ge in E. constructor; [exact IH|].
      apply (Permutation_Forall
               (Permutation_sym (insert_sorted_perm x r))).
      constructor; [exact E | exact Hy].
Qed.

Lemma sort_by_base (l : list RecordSegment.t) :
  StronglySorted by_base (sort_by_baseaddr l).
Proof.
  unfold sort_by_baseaddr.
  assert (H : forall acc, StronglySorted by_base acc ->
                StronglySorted by_base
                  (fold_left (fun acc x => insert_sorted x acc) l acc)).
  { induction l as [|x r IH]; intros acc Ha; cbn [fold_left];
      [exact Ha|]. apply IH, insert_sorted_by_base, Ha. }
  apply H. constructor.
Qed.

(** A list in order of base address that holds the segments of a list
    in strict order is that list. *)
Lemma sorted_unique (l2 : list RecordSegment.t) :
  forall l1,
    StronglySorted by_base l1 ->
    StronglySorted (fun a b => RecordSegment.baseaddr a
                               < RecordSegment.baseaddr b) l2 ->
    Permutation l1 l2 -> l1 = l2.
Proof.
  induction l2 as [|x r2 IH]; intros l1 H1 H2 Hp.
  - apply Permutation_sym, Permutation_nil in Hp. exact Hp.
  - destruct l1 as [|y r1];
      [apply Permutation_nil in Hp; discriminate|].
    inversion H1 as [|? ? H1r H1y]; subst.
    inversion H2 as [|? ? H2r H2x]; subst.
    assert (Hy : y = x).
    { assert (Hin : In y (x :: r2))
        by (eapply Permutation_in; [exact Hp | left; reflexivity]).
      destruct Hin as [->|Hin]; [reflexivity|].
      assert (Hx : In x (y :: r1))
        by (eapply Permutation_in;
            [apply Permutation_sym; exact Hp | left; reflexivity]).
      destruct Hx as [->|Hx]; [reflexivity|].
      rewrite Forall_forall in *. specialize (H1y x Hx).
      specialize (H2x y Hin). unfold by_base in *. lia. }
    subst y. f_equal. apply IH; [exact H1r | exact H2r|].
    eapply Permutation_cons_inv. exact Hp.
Qed.

Lemma BytesIO_write_length (buf data : list byte) (p : Z) :
  0 <= p ->
  Py.len (BytesIO.buf (BytesIO.write (BytesIO.Make buf p) data))
  <= Z.max (Py.len buf) (p + Py.len data).
Proof.
  intros Hp. destruct data as [|x d]; cbn [BytesIO.write]; [cbn; lia|].
  cbn [BytesIO.buf BytesIO.pos]. unfold Py.len.
  rewrite !length_app, length_firstn, repeat_length, length_skipn.
  cbn [List.length]. lia.
Qed.

Lemma BytesIO_write_past_end (buf data : list byte) (p : Z) :
  data <> [] -> Py.len buf <= p ->
  BytesIO.buf (BytesIO.write (BytesIO.Make buf p) data)
  = buf ++ repeat x00 (Z.to_nat (p - Py.len buf)) ++ data.
Proof.
  intros Hd Hp. destruct data as [|x d]; [elim Hd; reflexivity|].
  cbn [BytesIO.write BytesIO.buf BytesIO.pos]. unfold Py.len in *.
  rewrite firstn_all2 by lia. rewrite skipn_all2 by (cbn [List.length]; lia).
  rewrite app_nil_r, <- app_assoc. do 2 f_equal. f_equal. lia.
Qed.

Lemma build_loop_layout (maxsize start : Z) (segments : list RecordSegment.t) :
  forall (img : list byte) (p cur : Z),
    StronglySorted data_before segments ->
    Forall (fun s => RecordSegment.data s <> [] /\ holds_bytes s
                     /\ cur <= RecordSegment.baseaddr s
                     /\ RecordSegment.baseaddr s + RecordSegment.size s
                        - start <= maxsize) segments ->
    start <= cur -> Py.len img = cur - start ->
    exists p',
      BinaryBuilder.build_loop
        (BinaryBuilder.Make (BytesIO.Make img p) maxsize) (Some start)
        segments
      = Ok (BinaryBuilder.Make
              (BytesIO.Make (img ++ layout cur segments) p') maxsize).
Proof.
  induction segments as [|s rest IH]; intros img p cur Hs Hf Hc Hl;
    cbn [BinaryBuilder.build_loop layout].
  - rewrite app_nil_r. eexists. reflexivity.
  - inversion Hs as [|? ? Hsr Hsa]; subst.
    inversion Hf as [|? ? (Hd & Hb & Hcur & Hm) Hfr]; subst.
    unfold holds_bytes in Hb. cbn [BinaryBuilder._maxsize BinaryBuilder._iofp].
    assert (E1 : (0 <=? RecordSegment.baseaddr s - start)
                 && (RecordSegment.baseaddr s - start <? maxsize) = true).
    { apply andb_true_iff. split; [apply Z.leb_le | apply Z.ltb_lt]; lia. }
    rewrite E1. cbn [negb].
    assert (E2 : (maxsize <? RecordSegment.baseaddr s - start
                              + RecordSegment.size s) = false)
      by (apply Z.ltb_ge; lia).
    rewrite E2. unfold BytesIO.seek.
    assert (E3 : (RecordSegment.baseaddr s - start <? 0) = false)
      by (apply Z.ltb_ge; lia).
    rewrite E3. cbn [bind BytesIO.buf].
    pose proof (BytesIO_write_past_end img (RecordSegment.data s)
                  (RecordSegment.baseaddr s - start) Hd ltac:(lia)) as Hw.
    destruct (BytesIO.write _ _) as [buf' p'] eqn:Ew.
    cbn [BytesIO.buf] in Hw. subst buf'.
    replace (RecordSegment.baseaddr s - start - Py.len img)
      with (RecordSegment.baseaddr s - cur) by lia.
    destruct (IH (img ++ repeat x00 (Z.to_nat (RecordSegment.baseaddr s - cur))
                      ++ RecordSegment.data s) p'
                 (RecordSegment.baseaddr s + Py.len (RecordSegment.data s)))
      as [p'' Hp''].
    + exact Hsr.
    + rewrite Forall_forall in *. intros z Hz.
      destruct (Hfr z Hz) as (Hzd & Hzb & _ & Hzm).
      specialize (Hsa z Hz). unfold data_before in Hsa. tauto.
    + pose proof (Zle_0_nat (List.length (RecordSegment.data s))).
      unfold Py.len. lia.
    + rewrite !len_app, Hl. unfold Py.len at 1. rewrite repeat_length.
      lia.
    + rewrite Hp''. eexists. do 3 f_equal.
      rewrite <- !app_assoc. reflexivity.
Qed.

Lemma build_loop_fits (segments : list RecordSegment.t) :
  forall (b : BinaryBuilder.t) (ao : option Z),
    Forall (fun s => Py.len (RecordSegment.data s) <= RecordSegment.size s)
           segments ->
    Py.len (BytesIO.buf (BinaryBuilder._iofp b)) <= BinaryBuilder._maxsize b ->
    BinaryBuilder.build_loop b ao segments
    = Raise (Exn ValueError "Invalid HEX file")
    \/ exists b',
        BinaryBuilder.build_loop b ao segments = Ok b'
        /\ BinaryBuilder._maxsize b' = BinaryBuilder._maxsize b
        /\ Py.len (BytesIO.buf (BinaryBuilder._iofp b'))
           <= BinaryBuilder._maxsize b.
Proof.
  induction segments as [|s rest IH]; intros b ao Hf Hb;
    cbn [BinaryBuilder.build_loop].
  - right. exists b. repeat split. exact Hb.
  - inversion Hf as [|? ? Hs Hfr]; subst.
    set (start := match ao with
                  | Some a => a
                  | None => RecordSegment.baseaddr s
                  end).
    destruct ((0 <=? RecordSegment.baseaddr s - start)
              && (RecordSegment.baseaddr s - start <? BinaryBuilder._maxsize b))
      eqn:E1; cbn [negb]; [|left; reflexivity].
    destruct (BinaryBuilder._maxsize b
              <? RecordSegment.baseaddr s - start + RecordSegment.size s)
      eqn:E2; [left; reflexivity|].
    apply andb_true_iff in E1. destruct E1 as [E1 E1'].
    apply Z.leb_le in E1. apply Z.ltb_lt in E1'. apply Z.ltb_ge in E2.
    unfold BytesIO.seek.
    assert (E3 : (RecordSegment.baseaddr s - start <? 0) = false)
      by (apply Z.ltb_ge; lia).
    rewrite E3. cbn [bind].
    pose proof (BytesIO_write_length (BytesIO.buf (BinaryBuilder._iofp b))
                  (RecordSegment.data s)
                  (RecordSegment.baseaddr s - start) E1) as Hw.
    destruct (IH (BinaryBuilder.Make
                    (BytesIO.write
                       (BytesIO.Make (BytesIO.buf (BinaryBuilder._iofp b))
                                     (RecordSegment.baseaddr s - start))
                       (RecordSegment.data s))
                    (BinaryBuilder._maxsize b)) (Some start) Hfr)
      as [Hr|(b' & Hb' & Hm & Hl)].
    + cbn [BinaryBuilder._iofp BinaryBuilder._maxsize]. lia.
    + left. exact Hr.
    + right. exists b'. split; [exact Hb'|].
      cbn [BinaryBuilder._maxsize] in *. split; assumption.
Qed.

Lemma strict_of_data_before (l : list RecordSegment.t) :
  StronglySorted data_before l ->
  Forall (fun s => RecordSegment.data s <> []) l ->
  StronglySorted (fun a b => RecordSegment.baseaddr a
                             < RecordSegment.baseaddr b) l.
Proof.
  induction 1 as [|a l Hs IH Ha]; intros Hd; [constructor|].
  inversion Hd as [|? ? Hda Hdl]; subst.
  constructor; [apply IH; exact Hdl|].
  rewrite Forall_forall in *. intros z Hz. specialize (Ha z Hz).
  unfold data_before, Py.len in Ha.
  destruct (RecordSegment.data a); [elim Hda; reflexivity|].
  cbn [List.length] in Ha. lia.
Qed.

Lemma build_loop_first (b : BinaryBuilder.t) (s : RecordSegment.t)
  (rest : list RecordSegment.t) :
  BinaryBuilder.build_loop b None (s :: rest)
  = BinaryBuilder.build_loop b (Some (RecordSegment.baseaddr s)) (s :: rest).
Proof. reflexivity. Qed.

End Binary.

(** X9.  The binary builder, given in any order segments that hold
    bytes, do not overlap and end within [maxsize] of the lowest base
    address: the build returns, the image is the bytes of the segments
    in ascending order of address, each at its distance from the lowest
    base address, the holes between them zero filled, and the stream is
    left at position 0. *)
Theorem binary_image_is_the_layout_of_the_segments :
  forall (maxsize : Z) (datasegs segments : list RecordSegment.t),
    Permutation datasegs segments ->
    StronglySorted data_before segments ->
    Forall (fun s => RecordSegment.data s <> [] /\ holds_bytes s
                     /\ RecordSegment.baseaddr s + RecordSegment.size s
                        - first_base segments <= maxsize) segments ->
    exists b,
      BinaryBuilder.build (BinaryBuilder.new maxsize) datasegs = Ok b
      /\ BinaryBuilder.getvalue b = layout (first_base segments) segments
      /\ BytesIO.pos (BinaryBuilder.io b) = 0.
Proof.
  intros maxsize datasegs segments Hp Hs Hf.
  assert (Hd : Forall (fun s => RecordSegment.data s <> []) segments).
  { rewrite Forall_forall in *. intros z Hz. apply (Hf z Hz). }
  pose proof (strict_of_data_before _ Hs Hd) as Hstrict.
  assert (Hsort : BinaryBuilder.sorted_by_baseaddr datasegs = segments).
  { apply sorted_unique; [apply sort_by_base | exact Hstrict|].
    eapply perm_trans; [apply sort_perm | exact Hp]. }
  unfold BinaryBuilder.build. rewrite Hsort.
  destruct segments as [|s rest].
  - eexists. cbn. repeat split.
  - rewrite build_loop_first. cbn [first_base] in *.
    destruct (build_loop_layout maxsize (RecordSegment.baseaddr s)
                (s :: rest) [] 0 (RecordSegment.baseaddr s) Hs)
      as [p' Hp'].
    + inversion Hstrict as [|? ? _ Hlt]; subst.
      inversion Hf as [|? ? Hfs Hfr]; subst.
      constructor; [intuition lia|].
      rewrite Forall_forall in *. intros z Hz.
      specialize (Hlt z Hz). specialize (Hfr z Hz). intuition lia.
    + lia.
    + cbn. lia.
    + unfold BinaryBuilder.new, BytesIO.new. rewrite Hp'. cbn.
      eexists. repeat split.
Qed.

Lemma binary_image_is_the_layout_of_the_segments_witness :
  exists b,
    BinaryBuilder.build (BinaryBuilder.new 6)
      [segment_of 20 (bytes_of_hex "AABB"); segment_of 16 (bytes_of_hex "0102")]
    = Ok b
    /\ BinaryBuilder.getvalue b = bytes_of_hex "01020000AABB".
Proof.
  destruct (binary_image_is_the_layout_of_the_segments 6
              [segment_of 20 (bytes_of_hex "AABB");
               segment_of 16 (bytes_of_hex "0102")]
              [segment_of 16 (bytes_of_hex "0102");
               segment_of 20 (bytes_of_hex "AABB")])
    as (b & Hb & Hv & _).
  - apply perm_swap.
  - repeat constructor. vm_compute. discriminate.
  - repeat constructor; try (vm_compute; discriminate);
      try (vm_compute; reflexivity).
  - exists b. split; [exact Hb | exact Hv].
Defined.

(** X10.  The binary builder either raises [ValueError] with the message
    [Invalid HEX file], or returns an image of at most [maxsize] bytes
    with the stream at position 0: when no segment holds more bytes than
    its size, nothing is ever written beyond [maxsize]. *)
Theorem binary_image_fits_or_is_refused :
  forall (maxsize : Z) (datasegs : list RecordSegment.t),
    0 <= maxsize ->
    Forall (fun s => Py.len (RecordSegment.data s) <= RecordSegment.size s)
           datasegs ->
    BinaryBuilder.build (BinaryBuilder.new maxsize) datasegs
    = Raise (Exn ValueError "Invalid HEX file")
    \/ exists b,
        BinaryBuilder.build (BinaryBuilder.new maxsize) datasegs = Ok b
        /\ Py.len (BinaryBuilder.getvalue b) <= maxsize
        /\ BytesIO.pos (BinaryBuilder.io b) = 0.
Proof.
  intros maxsize datasegs Hm Hf. unfold BinaryBuilder.build.
  destruct (build_loop_fits (BinaryBuilder.sorted_by_baseaddr datasegs)
              (BinaryBuilder.new maxsize) None)
    as [Hr|(b' & Hb' & Hmax & Hl)].
  - eapply Permutation_Forall; [|exact Hf].
    apply Permutation_sym, sort_perm.
  - cbn. exact Hm.
  - left. rewrite Hr. reflexivity.
  - right. rewrite Hb'. cbn [bind]. eexists. split; [reflexivity|].
    cbn. split; [exact Hl | reflexivity].
Qed.

Lemma binary_image_fits_or_is_refused_witness :
  BinaryBuilder.build (BinaryBuilder.new 5)
    [segment_of 20 (bytes_of_hex "AABB"); segment_of 16 (bytes_of_hex "0102")]
  = Raise (Exn ValueError "Invalid HEX file").
Proof.
  destruct (binary_image_fits_or_is_refused 5
              [segment_of 20 (bytes_of_hex "AABB");
               segment_of 16 (bytes_of_hex "0102")])
    as [H|(b & Hb & _)].
  - lia.
  - repeat constructor; vm_compute; discriminate.
  - exact H.
  - vm_compute in Hb. discriminate.
Defined.

(** ** The syntax checks *)

Section Syntax.

Local Open Scope list_scope.

Lemma hex_chars_hexdigits (bs : list byte) :
  forallb Py.is_hexdigit (hex_chars bs) = true.
Proof.
  induction bs as [|b bs IH]; [reflexivity|].
  cbn [hex_chars flat_map]. rewrite forallb_app. fold (hex_chars bs).
  rewrite IH, andb_true_r.
  destruct (byte_chars_digits b)
    as (c1 & c2 & d1 & d2 & -> & _ & _ & H1 & H2 & L1 & L2 & _).
  cbn [forallb]. unfold Py.is_hexdigit. rewrite H1, H2, L1, L2. reflexivity.
Qed.

Lemma no_LF_last (h : list ascii) :
  existsb (fun c => Py.code c =? 10) h = false ->
  match rev h with
  | lf :: r => if Py.code lf =? 10 then rev r else h
  | [] => h
  end = h.
Proof.
  intros H. destruct (rev h) as [|lf r] eqn:E; [reflexivity|].
  assert (Hin : In lf h) by (apply in_rev; rewrite E; left; reflexivity).
  destruct (Py.code lf =? 10) eqn:El; [|reflexivity].
  assert (Ht : existsb (fun c => Py.code c =? 10) h = true)
    by (apply existsb_exists; exists lf; split; assumption).
  congruence.
Qed.

Lemma record_bytes_length (type_ address : Z) (d : list byte) :
  List.length (hex_chars (record_bytes type_ address d
                          ++ [Py.byte_of (record_sum type_ address d)]))
  = (10 + 2 * List.length d)%nat.
Proof.
  rewrite hex_chars_length, length_app. unfold record_bytes.
  cbn [List.length app]. lia.
Qed.

Lemma HEX_CRE_match_line (type_ address : Z) (d : list byte) :
  IHexParser.HEX_CRE_match (ihex_line type_ address d) = true.
Proof.
  unfold IHexParser.HEX_CRE_match, ihex_line.
  rewrite list_ascii_of_string_of_list_ascii. unfold ihex_chars. cbv zeta.
  rewrite no_LF_last by apply hex_chars_no_LF.
  rewrite hex_chars_hexdigits, andb_true_r.
  unfold Py.len. rewrite record_bytes_length.
  replace (Z.of_nat (10 + 2 * List.length d) =? 0) with false
    by (symmetry; apply Z.eqb_neq; lia).
  reflexivity.
Qed.

Lemma HEXCRE_matches_line (type_ address : Z) (d : list byte) :
  IHexFastParser.HEXCRE_matches (ihex_chars type_ address d) = true.
Proof.
  unfold IHexFastParser.HEXCRE_matches, ihex_chars.
  rewrite hex_chars_hexdigits. unfold Py.len. rewrite record_bytes_length.
  replace (Z.of_nat (10 + 2 * List.length d))
    with (2 * (5 + Z.of_nat (List.length d))) by lia.
  rewrite Z.even_mul. cbn [Z.even orb andb].
  change (Py.code ":" =? 58) with true. cbn [andb].
  apply Z.leb_le. lia.
Qed.

Lemma record_line_not_empty (l : string) :
  record_line l -> String.eqb l EmptyString = false.
Proof. intros (t & a & d & ->). reflexivity. Qed.

Lemma valid_record_lines (ls : list string) :
  Forall record_line ls ->
  IHexParser.valid_lines false (map add_LF ls) = true.
Proof.
  induction 1 as [|l ls Hl _ IH]; [reflexivity|].
  cbn [map IHexParser.valid_lines]. cbv zeta.
  pose proof (record_line_not_empty _ Hl) as He.
  destruct Hl as (t & a & d & ->).
  change (add_LF (ihex_line t a d)) with (ihex_line t a d ++ Py.LF)%string.
  rewrite !strip_line, He, HEX_CRE_match_line. cbn [negb orb]. exact IH.
Qed.

Lemma seg_lines_records (baseaddr : Z) (data : list byte) (n : nat) :
  forall i high_addr,
    Forall record_line (seg_lines baseaddr data high_addr i n).
Proof.
  induction n as [|n IH]; intros i high_addr; cbn [seg_lines];
    [constructor|].
  cbv zeta. apply Forall_app. split.
  - destruct (match high_addr with
              | Some h => _
              | None => true
              end); repeat constructor.
    unfold linear_line. do 3 eexists. reflexivity.
  - constructor; [do 3 eexists; reflexivity | apply IH].
Qed.

Lemma all_lines_records (S : list (Z * list byte)) :
  Forall record_line (flat_map all_lines S ++ [eof_line]).
Proof.
  apply Forall_app. split.
  - apply Forall_flat_map. apply Forall_forall. intros s _.
    apply seg_lines_records.
  - constructor; [do 3 eexists; reflexivity | constructor].
Qed.

Lemma split_lf_line (l1 : list ascii) :
  existsb (fun c => Py.code c =? 10) l1 = false ->
  forall rest cur,
    Py.split_lf (l1 ++ Py.chr 10 :: rest) cur
    = (rev cur ++ l1) :: Py.split_lf rest [].
Proof.
  induction l1 as [|c l1 IH]; intros H rest cur.
  - cbn [app Py.split_lf]. change (Py.code (Py.chr 10) =? 10) with true.
    cbv iota. rewrite app_nil_r. reflexivity.
  - cbn [existsb] in H. apply orb_false_iff in H. destruct H as [Hc H].
    cbn [app Py.split_lf]. rewrite Hc, (IH H). cbn [rev].
    rewrite <- !app_assoc. reflexivity.
Qed.

Lemma split_lf_text (ls : list string) :
  Forall no_LF ls ->
  Py.split_lf (list_ascii_of_string (lines_text ls)) []
  = map list_ascii_of_string ls ++ [[]].
Proof.
  induction 1 as [|l ls Hl _ IH]; [reflexivity|].
  cbn [lines_text map]. rewrite !list_ascii_app, list_ascii_LF.
  cbn [app]. rewrite (split_lf_line _ Hl), IH. reflexivity.
Qed.

Lemma count_lf_app (l1 l2 : list ascii) :
  Py.count 10 (l1 ++ l2) = Py.count 10 l1 + Py.count 10 l2.
Proof. unfold Py.count. rewrite filter_app. apply len_app. Qed.

Lemma count_lf_none (l : list ascii) :
  existsb (fun c => Py.code c =? 10) l = false -> Py.count 10 l = 0.
Proof.
  unfold Py.count. induction l as [|c l IH]; [reflexivity|].
  cbn [existsb filter]. intros H. apply orb_false_iff in H.
  destruct H as [-> H]. apply IH, H.
Qed.

Lemma count_lf_text (ls : list string) :
  Forall no_LF ls ->
  Py.count 10 (list_ascii_of_string (lines_text ls)) = Py.len ls.
Proof.
  induction 1 as [|l ls Hl _ IH]; [reflexivity|].
  cbn [lines_text]. rewrite !list_ascii_app, list_ascii_LF, !count_lf_app.
  rewrite IH, (count_lf_none _ Hl). unfold Py.len. cbn [List.length].
  change (Py.count 10 [Py.chr 10]) with 1. lia.
Qed.

Lemma filter_all (A : Type) (f : A -> bool) (l : list A) :
  Forall (fun x => f x = true) l -> filter f l = l.
Proof.
  induction 1 as [|x l Hx _ IH]; [reflexivity|].
  cbn [filter]. rewrite Hx, IH. reflexivity.
Qed.

Lemma finditer_text (ls : list string) :
  Forall no_LF ls -> Forall record_line ls ->
  IHexFastParser.finditer (list_ascii_of_string (lines_text ls)) = ls.
Proof.
  intros Hn Hr. unfold IHexFastParser.finditer.
  rewrite (split_lf_text _ Hn), filter_app. cbn [filter].
  change (IHexFastParser.HEXCRE_matches []) with false. cbv iota.
  rewrite app_nil_r, filter_all.
  - rewrite map_map. clear Hn Hr. induction ls as [|l ls IH]; [reflexivity|].
    cbn [map]. rewrite string_of_list_ascii_of_string, IH. reflexivity.
  - clear Hn. induction Hr as [|l ls (t & a & d & ->) _ IH]; constructor.
    + unfold ihex_line. rewrite list_ascii_of_string_of_list_ascii.
      apply HEXCRE_matches_line.
    + exact IH.
Qed.

Lemma filter_partition (A : Type) (f : A -> bool) (l : list A) :
  (List.length (filter f l)
   + List.length (filter (fun x => negb (f x)) l))%nat = List.length l.
Proof.
  induction l as [|x l IH]; [reflexivity|].
  cbn [filter]. destruct (f x); cbn [negb List.length]; lia.
Qed.

Lemma split_lf_length (l : list ascii) :
  forall cur,
    Z.of_nat (List.length (Py.split_lf l cur)) = Py.count 10 l + 1.
Proof.
  unfold Py.count, Py.len. induction l as [|c l IH]; intros cur;
    cbn [Py.split_lf filter]; [reflexivity|].
  destruct (Py.code c =? 10); cbn [List.length];
    rewrite ?Nat2Z.inj_succ, IH; lia.
Qed.

End Syntax.



(** X12.  The syntax check of the fast parser accepts a file exactly
    when one piece of the text between line feeds is not matched by the
    record pattern: the empty piece after the final line feed of a well
    formed file.  So a text with a blank line, or without a final line
    feed, is refused whenever its other lines are records. *)
Theorem fast_syntax_check_counts_unmatched_pieces :
  forall (file : stream),
    IHexFastParser.is_valid_syntax file = true
    <-> List.length (unmatched_pieces (stream_rest file)) = 1%nat.
Proof.
  intros file. unfold IHexFastParser.is_valid_syntax, unmatched_pieces.
  cbv zeta. set (data := stream_rest file).
  unfold IHexFastParser.findall, IHexFastParser.finditer, Py.len.
  rewrite !length_map.
  pose proof (filter_partition _ IHexFastParser.HEXCRE_matches
                (Py.split_lf data [])) as Hp.
  pose proof (split_lf_length data []) as Hl.
  rewrite Z.eqb_eq. lia.
Qed.

(** ** The fields the fast parser reads from a record line *)

Section FastFields.

Local Open Scope list_scope.

Lemma slice_init (A : Type) (l : list A) (hi : Z) :
  hi < 0 -> 0 <= Py.len l + hi ->
  Py.slice l None (Some hi) = firstn (Z.to_nat (Py.len l + hi)) l.
Proof.
  intros H1 H2. unfold Py.slice, Py.clamp, Py.len in *.
  destruct (hi <? 0) eqn:E; [|apply Z.ltb_ge in E; lia].
  rewrite Z.max_r by lia. cbn [Z.to_nat skipn]. f_equal. lia.
Qed.

Lemma getitem_head (b0 : byte) (l : list byte) :
  Py.getitem (b0 :: l) 0 = Ok (Py.byte_val b0).
Proof.
  unfold Py.getitem, Py.len. cbn [Z.ltb Z.compare List.length orb].
  replace (Z.of_nat (S (List.length l)) <=? 0) with false
    by (symmetry; apply Z.leb_gt; lia).
  reflexivity.
Qed.

Lemma getitem_pos (l : list byte) (i : Z) :
  0 <= i < Py.len l ->
  Py.getitem l i = Ok (Py.byte_val (nth (Z.to_nat i) l x00)).
Proof.
  intros H. unfold Py.getitem.
  replace (i <? 0) with false by (symmetry; apply Z.ltb_ge; lia).
  replace (i <? 0) with false by (symmetry; apply Z.ltb_ge; lia).
  replace (Py.len l <=? i) with false by (symmetry; apply Z.leb_gt; lia).
  reflexivity.
Qed.

Lemma getitem_last (l : list byte) (c : byte) :
  Py.getitem (l ++ [c]) (-1) = Ok (Py.byte_val c).
Proof.
  unfold Py.getitem. rewrite len_app. change (Py.len [c]) with 1.
  pose proof (len_byte_bound l) as Hl.
  cbn [Z.ltb Z.compare].
  replace (-1 + (Py.len l + 1) <? 0) with false
    by (symmetry; apply Z.ltb_ge; lia).
  replace (Py.len l + 1 <=? -1 + (Py.len l + 1)) with false
    by (symmetry; apply Z.leb_gt; lia).
  cbn [orb]. rewrite app_nth2 by (unfold Py.len; lia).
  replace (Z.to_nat (-1 + (Py.len l + 1)) - List.length l)%nat with 0%nat
    by (unfold Py.len; lia).
  reflexivity.
Qed.

(** The bytes the fast parser decodes from a built line, and the
    fields it takes from them. *)
Lemma fast_line_fields (type_ address : Z) (d : list byte) :
  0 <= type_ < 256 -> 0 <= address < 65536 -> Py.len d < 256 ->
  let bvalues := record_bytes type_ address d
                 ++ [Py.byte_of (record_sum type_ address d)] in
  Py.unhexlify (Py.str_slice (ihex_line type_ address d) (Some 1) None)
  = Ok bvalues
  /\ Py.getitem bvalues 0 = Ok (Py.len d)
  /\ Py.getitem bvalues 1 = Ok (address / 256)
  /\ Py.getitem bvalues 2 = Ok (address mod 256)
  /\ Py.getitem bvalues 3 = Ok type_
  /\ Py.getitem bvalues (-1) = Ok (record_sum type_ address d)
  /\ Py.slice bvalues (Some 4) (Some (-1)) = d
  /\ Py.slice bvalues None (Some (-1)) = record_bytes type_ address d.
Proof.
  intros Ht Ha Hd. cbv zeta.
  pose proof (len_byte_bound d) as Hd0.
  set (c := Py.byte_of (record_sum type_ address d)).
  assert (Hlen : Py.len (record_bytes type_ address d ++ [c])
                 = 5 + Py.len d).
  { rewrite len_app. unfold record_bytes. rewrite len_app.
    unfold Py.len. cbn [List.length]. lia. }
  split; [|split; [|split; [|split; [|split; [|split; [|split]]]]]].
  - unfold Py.str_slice, ihex_line.
    rewrite list_ascii_of_string_of_list_ascii. unfold ihex_chars.
    rewrite slice_from
      by (unfold Py.len; cbn [List.length]; lia).
    cbn [Z.to_nat Pos.to_nat Pos.iter_op skipn].
    apply hex_of_unhexlify, hex_of_hex_chars.
  - unfold record_bytes. cbn [app]. rewrite getitem_head.
    rewrite byte_val_of by lia. reflexivity.
  - rewrite getitem_pos by lia. unfold record_bytes.
    change (Z.to_nat 1) with 1%nat. cbn [app nth].
    rewrite byte_val_of by (Z.div_mod_to_equations; lia). reflexivity.
  - rewrite getitem_pos by lia. unfold record_bytes.
    change (Z.to_nat 2) with 2%nat. cbn [app nth].
    rewrite byte_val_of by (Z.div_mod_to_equations; lia). reflexivity.
  - rewrite getitem_pos by lia. unfold record_bytes.
    change (Z.to_nat 3) with 3%nat. cbn [app nth].
    rewrite byte_val_of by lia. reflexivity.
  - rewrite getitem_last. unfold c. f_equal.
    apply byte_val_of, land_255_range.
  - rewrite slice_neg by lia. rewrite Hlen. unfold record_bytes.
    change (Z.to_nat 4) with 4%nat. cbn [app skipn].
    apply firstn_exact. unfold Py.len. lia.
  - rewrite slice_init by lia. rewrite Hlen.
    apply firstn_exact. unfold record_bytes. rewrite length_app.
    unfold Py.len. cbn [List.length]. lia.
Qed.

(** What the fast parser does with a built record line. *)
Lemma match_step_line (p : IHexFastParser.t) (type_ address : Z)
  (d : list byte) :
  0 <= type_ < 256 -> 0 <= address < 65536 -> Py.len d < 256 ->
  let b := IHexFastParser.base p in
  let oa := IHexFastParser._offset_addr p in
  IHexFastParser.match_step p (ihex_line type_ address d)
  = ((if _verify b && negb (type_ =? 0)
      then _verify_address b address else Ok tt) ;;;
     if type_ =? 0 then
       b' <- parse_record b DATA (address + oa) d ;;
       Ok (IHexFastParser.Make b' oa)
     else if type_ =? 1 then
       if negb (address =? 0) then raise NameError "name 'sys' is not defined"
       else Ok p
     else if type_ =? 2 then
       if negb (Py.len d =? 2) then raise IHexError "Invalid segment address"
       else
         d0 <- Py.getitem d 0 ;;
         d1 <- Py.getitem d 1 ;;
         Ok (IHexFastParser.Make b
               (Z.lor (Z.land oa (Z.lnot (Z.shiftl 1 20 - 1)))
                      (Z.shiftl (Z.shiftl d0 8 + d1) 4)))
     else if type_ =? 4 then
       if negb (Py.len d =? 2) then raise IHexError "Invalid linear address"
       else
         d0 <- Py.getitem d 0 ;;
         d1 <- Py.getitem d 1 ;;
         Ok (IHexFastParser.Make b (Z.shiftl (Z.shiftl d0 8 + d1) 16))
     else if type_ =? 3 then
       if negb (Py.len d =? 4) then raise IHexError "Invalid start address"
       else
         d0 <- Py.getitem d 0 ;;
         d1 <- Py.getitem d 1 ;;
         d2 <- Py.getitem d 2 ;;
         d3 <- Py.getitem d 3 ;;
         Ok (IHexFastParser.Make
               (set_exec_addr b (Some (Z.shiftl (Z.shiftl d0 8 + d1) 4
                                       + (Z.shiftl d2 8 + d3))))
               oa)
     else Ok p).
Proof.
  intros Ht Ha Hd. cbv zeta.
  destruct (fast_line_fields type_ address d Ht Ha Hd)
    as (F0 & F1 & F2 & F3 & F4 & F5 & F6 & F7).
  assert (Haddr : Z.shiftl (address / 256) 8 + address mod 256 = address).
  { rewrite Z.shiftl_mul_pow2 by lia. change (2 ^ 8) with 256.
    Z.div_mod_to_equations. lia. }
  destruct (type_ =? 0) eqn:E0.
  - apply Z.eqb_eq in E0. subst type_.
    rewrite andb_false_r. cbn [bind].
    rewrite <- Haddr at 2.
    rewrite <- F6 at 2.
    apply (fast_data_record p _ _ (record_sum 0 address d)); try assumption.
    + rewrite F6. exact F1.
    + intros _. rewrite F7. reflexivity.
  - unfold IHexFastParser.match_step. cbv zeta.
    rewrite F0. cbn [bind]. rewrite F1, F5. cbn [bind].
    rewrite F6, F7, Z.eqb_refl. cbn [negb].
    fold (record_sum type_ address d). rewrite Z.eqb_refl. cbn [negb].
    replace (if _verify (IHexFastParser.base p) then Ok tt else Ok tt)
      with (@Ok unit tt) by (destruct (_verify _); reflexivity).
    cbn [bind]. rewrite F2, F3. cbn [bind]. rewrite F4. cbn [bind].
    rewrite Haddr, E0. reflexivity.
Qed.

End FastFields.

(** ** The fast parser against the line parser *)

Section Agreement.

Local Open Scope list_scope.

Lemma window_verify (p : RecordParser.t) (a : Z) :
  default_window p -> 0 <= a <= 4294967295 -> _verify_address p a = Ok tt.
Proof.
  intros (_ & Hmin & Hmax & Hoff) Ha. unfold _verify_address.
  rewrite Hmin, Hmax, Hoff.
  replace (a <? 0) with false by (symmetry; apply Z.ltb_ge; lia).
  replace (4294967295 <? a) with false by (symmetry; apply Z.ltb_ge; lia).
  reflexivity.
Qed.

Lemma window_same (p q : RecordParser.t) :
  same_options p q -> default_window p -> default_window q.
Proof.
  intros (_ & Ho & Hmin & Hmax & _ & Hv & _) (A & B & C & D).
  repeat split; congruence.
Qed.

(** The two halves of the data of a start address record. *)
Lemma exec_line_fields (d0 d1 d2 d3 : byte) :
  let line := ihex_line 3 0 [d0; d1; d2; d3] in
  Py.str_slice line (Some 9) (Some 13)
  = string_of_list_ascii (hex_chars [d0; d1])
  /\ Py.str_slice line (Some 13) (Some (-2))
     = string_of_list_ascii (hex_chars [d2; d3]).
Proof.
  cbv zeta. unfold Py.str_slice, ihex_line.
  rewrite !list_ascii_of_string_of_list_ascii.
  unfold ihex_chars, record_bytes. rewrite hex_chars_app.
  cbn [hex_chars flat_map app]. rewrite !app_nil_r.
  change (Py.len [d0; d1; d2; d3]) with 4.
  change (0 / 256) with 0. change (0 mod 256) with 0.
  generalize (record_sum 3 0 [d0; d1; d2; d3]). intros c.
  destruct (byte_chars_pair (Py.byte_of 4)) as (x0 & y0 & ->),
    (byte_chars_pair (Py.byte_of 0)) as (x1 & y1 & ->),
    (byte_chars_pair (Py.byte_of 3)) as (x3 & y3 & ->),
    (byte_chars_pair d0) as (p0 & q0 & ->),
    (byte_chars_pair d1) as (p1 & q1 & ->),
    (byte_chars_pair d2) as (p2 & q2 & ->),
    (byte_chars_pair d3) as (p3 & q3 & ->),
    (byte_chars_pair (Py.byte_of c)) as (xc & yc & ->).
  split; reflexivity.
Qed.

Lemma bytes_value_2 (d0 d1 : byte) :
  bytes_value [d0; d1] 0 = Py.byte_val d0 * 256 + Py.byte_val d1.
Proof. reflexivity. Qed.

(** A start address record, read by the line parser. *)
Lemma line_step_exec (p : RecordParser.t) (offset_addr : Z)
  (d0 d1 d2 d3 : byte) :
  let cs := Py.byte_val d0 * 256 + Py.byte_val d1 in
  let ip := Py.byte_val d2 * 256 + Py.byte_val d3 in
  _verify p = true -> _verify_address p (Z.shiftl cs 4 + ip) = Ok tt ->
  IHexParser.line_step p offset_addr
    (ihex_line 3 0 [d0; d1; d2; d3] ++ Py.LF)
  = Ok (Emit offset_addr (EXECUTE, Z.shiftl cs 4 + ip, [d0; d1; d2; d3])).
Proof.
  cbv zeta. intros Hv Hva.
  unfold IHexParser.line_step. cbv zeta. rewrite strip_line.
  set (d := [d0; d1; d2; d3]).
  destruct (ihex_line_fields 3 0 d)
    as (F1 & F2 & F3 & F4 & F5 & F6 & Flen).
  destruct (exec_line_fields d0 d1 d2 d3) as [G1 G2]. fold d in G1, G2.
  rewrite Flen, first_char_line, F1, F2, F3, F4, F5, F6, G1, G2.
  change (Py.len d) with 4.
  rewrite (int_byte_chars 4) by lia.
  change (0 / 256) with 0. change (0 mod 256) with 0.
  change (Py.int (string_of_list_ascii
                    (hex_chars [Py.byte_of 0; Py.byte_of 0])) 16) with (@Ok Z 0).
  change (Py.int (string_of_list_ascii (byte_chars (Py.byte_of 3))) 10)
    with (@Ok Z 3).
  change (11 + 2 * 4 <? 5) with false.
  cbn [bind Z.eqb Pos.eqb negb].
  rewrite !int_hex_chars, !bytes_value_2. cbn [bind].
  rewrite (hex_of_unhexlify _ _ (hex_of_hex_chars d)). cbn [bind].
  change (4 =? Py.len d) with true. cbn [negb]. rewrite Hv.
  rewrite (hex_of_unhexlify _ _ (hex_of_hex_chars (record_bytes 3 0 d))).
  cbn [bind]. fold (record_sum 3 0 d).
  rewrite (int_byte_chars (record_sum 3 0 d))
    by apply land_255_range.
  cbn [bind]. rewrite Z.eqb_refl. cbn [negb bind andb].
  rewrite Hva. reflexivity.
Qed.

(** An extended linear address record with any two data bytes, read by
    the line parser. *)
Lemma line_step_linear_bytes (p : RecordParser.t) (offset_addr : Z)
  (d0 d1 : byte) :
  IHexParser.line_step p offset_addr (ihex_line 4 0 [d0; d1] ++ Py.LF)
  = Ok (Continue (Z.shiftl (Py.byte_val d0 * 256 + Py.byte_val d1) 16)).
Proof.
  pose proof (byte_val_range d0) as H0.
  pose proof (byte_val_range d1) as H1.
  set (h := Py.byte_val d0 * 256 + Py.byte_val d1).
  assert (Hh : 0 <= h < 65536) by (unfold h; lia).
  rewrite <- (line_step_linear p offset_addr h Hh).
  do 4 f_equal.
  - replace (h / 256) with (Py.byte_val d0)
      by (unfold h; Z.div_mod_to_equations; lia).
    symmetry. apply byte_of_val.
  - f_equal. replace (h mod 256) with (Py.byte_val d1)
      by (unfold h; Z.div_mod_to_equations; lia).
    symmetry. apply byte_of_val.
Qed.

Lemma getitem_bytes (l : list byte) (i : Z) (b : byte) :
  0 <= i -> nth_error l (Z.to_nat i) = Some b ->
  Py.getitem l i = Ok (Py.byte_val b).
Proof.
  intros H0 H. assert (Hi : (Z.to_nat i < List.length l)%nat)
    by (apply nth_error_Some; congruence).
  rewrite getitem_pos by (unfold Py.len; lia).
  f_equal. f_equal. apply nth_error_nth. exact H.
Qed.

Lemma shiftl_8 (a b : Z) : Z.shiftl a 8 + b = a * 256 + b.
Proof. rewrite Z.shiftl_mul_pow2 by lia. reflexivity. Qed.

(** On built lines the loop of the fast parser does what the loop of
    [RecordParser.parse] does with the records the line parser yields. *)
Lemma match_loop_agrees (p0 : RecordParser.t) (ls : list string) :
  Forall built_line ls -> default_window p0 ->
  forall (b : RecordParser.t) (oa : Z),
    default_window b ->
    exists oa',
      IHexFastParser.match_loop (IHexFastParser.Make b oa) ls
      = (b' <- parse_loop b (line_loop (IHexParser.line_step p0) oa
                                       (map add_LF ls)) ;;
         Ok (IHexFastParser.Make b' oa')).
Proof.
  intros Hls Hw0. induction Hls as [|l ls Hl _ IH]; intros b oa Hw.
  - exists oa. reflexivity.
  - cbn [IHexFastParser.match_loop map line_loop].
    change (add_LF l) with (l ++ Py.LF)%string.
    pose proof Hw as (Hv & _). pose proof Hw0 as (Hv0 & _).
    destruct Hl as [a d Ha Hd|d0 d1|d0 d1 d2 d3|].
    + rewrite match_step_line by (try lia; assumption).
      rewrite (line_step_data p0 oa a d Hv0 Ha Hd).
      cbn [reraise_with_line IHexFastParser.base IHexFastParser._offset_addr
           Z.eqb negb andb bind parse_loop].
      rewrite andb_false_r. cbn [bind].
      destruct (parse_record b DATA (a + oa) d) as [b'|e] eqn:E;
        cbn [bind]; [|exists oa; reflexivity].
      apply IH. eapply window_same; [|exact Hw].
      apply (parse_record_extends _ _ _ _ _ E).
    + rewrite match_step_line by (try lia; unfold Py.len; cbn; lia).
      rewrite line_step_linear_bytes.
      cbn [reraise_with_line IHexFastParser.base IHexFastParser._offset_addr
           Z.eqb Pos.eqb negb andb bind].
      rewrite Hv, (window_verify b 0 Hw) by lia. cbn [andb bind].
      change (Py.len [d0; d1] =? 2) with true. cbn [negb].
      rewrite (getitem_bytes [d0; d1] 0 d0 ltac:(lia) eq_refl),
        (getitem_bytes [d0; d1] 1 d1 ltac:(lia) eq_refl). cbn [bind].
      rewrite shiftl_8. apply IH, Hw.
    + rewrite match_step_line by (try lia; unfold Py.len; cbn; lia).
      pose proof (byte_val_range d0). pose proof (byte_val_range d1).
      pose proof (byte_val_range d2). pose proof (byte_val_range d3).
      rewrite line_step_exec;
        [|exact Hv0
         |apply window_verify; [exact Hw0|];
          rewrite Z.shiftl_mul_pow2 by lia; change (2 ^ 4) with 16; lia].
      cbn [reraise_with_line IHexFastParser.base IHexFastParser._offset_addr
           Z.eqb Pos.eqb negb andb bind parse_loop parse_record].
      rewrite Hv, (window_verify b 0 Hw) by lia. cbn [andb bind].
      change (Py.len [d0; d1; d2; d3] =? 4) with true. cbn [negb].
      rewrite (getitem_bytes [d0; d1; d2; d3] 0 d0 ltac:(lia) eq_refl),
        (getitem_bytes [d0; d1; d2; d3] 1 d1 ltac:(lia) eq_refl),
        (getitem_bytes [d0; d1; d2; d3] 2 d2 ltac:(lia) eq_refl),
        (getitem_bytes [d0; d1; d2; d3] 3 d3 ltac:(lia) eq_refl). cbn [bind].
      rewrite !shiftl_8. apply IH.
      eapply window_same; [|exact Hw]. repeat split.
    + unfold eof_line.
      rewrite match_step_line by (try lia; unfold Py.len; cbn; lia).
      rewrite (line_step_eof p0 oa Hv0 (window_verify p0 0 Hw0 ltac:(lia))).
      cbn [reraise_with_line IHexFastParser.base IHexFastParser._offset_addr
           Z.eqb Pos.eqb negb andb bind parse_loop parse_record].
      rewrite Hv, (window_verify b 0 Hw) by lia. cbn [andb bind].
      apply IH, Hw.
Qed.

Lemma built_lines_no_LF (ls : list string) :
  Forall built_line ls -> Forall no_LF ls.
Proof.
  induction 1 as [|l ls Hl _ IH]; constructor; [|exact IH].
  destruct Hl; apply ihex_line_no_LF.
Qed.

Lemma built_lines_records (ls : list string) :
  Forall built_line ls -> Forall record_line ls.
Proof.
  induction 1 as [|l ls Hl _ IH]; constructor; [|exact IH].
  destruct Hl; do 3 eexists; reflexivity.
Qed.

(** The two parsers on a text made of built lines. *)
Lemma parsers_agree (ls : list string) (p : RecordParser.t) :
  Forall built_line ls -> default_window p ->
  _src p = StringIO (lines_text ls) ->
  (q <- IHexFastParser.parse (IHexFastParser.Make p 0) ;;
   Ok (IHexFastParser.base q))
  = (q <- IHexParser.parse (IHexParser.Make p 0) ;; Ok (IHexParser.base q)).
Proof.
  intros Hls Hw Hsrc.
  unfold IHexFastParser.parse, IHexParser.parse, IHexParser._get_next_chunk,
    RecordParser.parse, src_lines, stream_rest.
  cbn [IHexFastParser.base IHexParser.base IHexParser._offset_addr
       IHexFastParser._offset_addr]. cbv zeta.
  rewrite Hsrc. cbn [StringIO stream_pos stream_text skipn].
  rewrite (finditer_text _ (built_lines_no_LF _ Hls)
                         (built_lines_records _ Hls)).
  rewrite (readlines_text _ (built_lines_no_LF _ Hls)).
  destruct (match_loop_agrees p ls Hls Hw p 0 Hw) as [oa' ->].
  destruct (parse_loop p _) as [b'|e]; reflexivity.
Qed.

End Agreement.

Section FastRoundTrip.

Local Open Scope list_scope.

Lemma chunk_at_short (data : list byte) (i : nat) :
  Py.len (chunk_at data i) < 256.
Proof.
  unfold chunk_at, Py.len.
  pose proof (firstn_le_length 16 (skipn (16 * i) data)). lia.
Qed.

Lemma seg_lines_built (baseaddr : Z) (data : list byte) (n : nat) :
  forall i high_addr,
    Forall built_line (seg_lines baseaddr data high_addr i n).
Proof.
  induction n as [|n IH]; intros i high_addr; cbn [seg_lines];
    [constructor|].
  cbv zeta. apply Forall_app. split.
  - destruct (match high_addr with
              | Some h => _
              | None => true
              end); [|constructor].
    apply Forall_cons; [apply built_linear | apply Forall_nil].
  - apply Forall_cons; [|apply IH].
    apply built_data; [apply low_range | apply chunk_at_short].
Qed.

Lemma all_lines_built (S : list (Z * list byte)) :
  Forall built_line (flat_map all_lines S ++ [eof_line]).
Proof.
  apply Forall_app. split.
  - apply Forall_flat_map. apply Forall_forall. intros s _.
    apply seg_lines_built.
  - apply Forall_cons; [apply built_eof | apply Forall_nil].
Qed.

Lemma bind_map (A B C : Type) (x : result A) (y : result B)
  (f : A -> C) (g : B -> C) (D : Type) (h : C -> D) :
  (q <- x ;; Ok (f q)) = (q <- y ;; Ok (g q)) ->
  (q <- x ;; Ok (h (f q))) = (q <- y ;; Ok (h (g q))).
Proof.
  destruct x, y; cbn [bind]; intros H; try discriminate;
    injection H as H; congruence.
Qed.

(** The parser the constructors return for the default options but the
    segment gap. *)
Lemma new_parser_window (src : stream) (gap : Z) :
  default_window (run_state src gap [] None).
Proof. repeat split. Qed.

Lemma fast_segments_eq (gap : Z) (ls : list string) :
  1 <= gap -> Forall built_line ls ->
  fast_segments gap (lines_text ls) = ihex_segments gap (lines_text ls).
Proof.
  intros Hgap Hls.
  unfold fast_segments, ihex_segments, IHexFastParser.new, IHexParser.new,
    RecordParser.new.
  replace (gap <? 1) with false by (symmetry; apply Z.ltb_ge; lia).
  cbn [bind andb].
  fold (run_state (StringIO (lines_text ls)) gap [] None).
  pose proof (parsers_agree ls (run_state (StringIO (lines_text ls)) gap
                                          [] None)
                Hls (new_parser_window _ _) eq_refl) as H.
  apply (bind_map _ _ _ _ _ _ _ _ get_data_segments) in H. exact H.
Qed.

End FastRoundTrip.





(** ** The start record read back *)

Section StartRecord.

Local Open Scope list_scope.

Lemma pack_I_bytes (v : Z) :
  0 <= v < 4294967296 ->
  exists d0 d1 d2 d3,
    Py.pack_I v = Ok [d0; d1; d2; d3]
    /\ Py.byte_val d0 * 256 + Py.byte_val d1 = v / 65536
    /\ Py.byte_val d2 * 256 + Py.byte_val d3 = v mod 65536.
Proof.
  intros Hv. unfold Py.pack_I.
  replace ((0 <=? v) && (v <=? 4294967295)) with true
    by (symmetry; apply andb_true_iff; split; apply Z.leb_le; lia).
  do 4 eexists. split; [reflexivity|].
  rewrite !byte_val_of by (Z.div_mod_to_equations; lia).
  split; Z.div_mod_to_equations; lia.
Qed.

(** The record the builder writes for a start address below 1 MiB. *)
Lemma create_exec_segment_form (a : Z) :
  0 <= a < 1048576 ->
  exists d0 d1 d2 d3,
    IHexBuilder._create_exec a = Ok (ihex_line 3 0 [d0; d1; d2; d3])
    /\ Py.byte_val d0 * 256 + Py.byte_val d1 = a / 16
    /\ Py.byte_val d2 * 256 + Py.byte_val d3 = a mod 65536.
Proof.
  intros Ha. unfold IHexBuilder._create_exec. cbv zeta.
  replace (a <? Z.shiftl 1 20) with true
    by (symmetry; apply Z.ltb_lt; change (Z.shiftl 1 20) with 1048576; lia).
  assert (Hcs : Z.shiftr a 4 = a / 16)
    by (rewrite Z.shiftr_div_pow2 by lia; reflexivity).
  assert (Hip : Z.land a 65535 = a mod 65536)
    by (change 65535 with (Z.ones 16); rewrite Z.land_ones by lia;
        reflexivity).
  rewrite Hcs, Hip.
  rewrite lor_high_low
    by (Z.div_mod_to_equations; lia).
  destruct (pack_I_bytes (a / 16 * 65536 + a mod 65536))
    as (d0 & d1 & d2 & d3 & -> & H01 & H23);
    [Z.div_mod_to_equations; lia|].
  cbn [bind]. exists d0, d1, d2, d3.
  split; [|split].
  - apply create_line_eq; [lia | lia | unfold Py.len; cbn; lia].
  - rewrite H01. Z.div_mod_to_equations. lia.
  - rewrite H23. Z.div_mod_to_equations. lia.
Qed.

Lemma default_parser_window (vb : bool) (src : stream) :
  default_window
    (RecordParser.Make src 0 0 4294967295 vb None [] None 16 None 0 true).
Proof. repeat split. Qed.

(** The parse of a start record followed by the end-of-file record. *)
Lemma parse_start_record (p : RecordParser.t) (d0 d1 d2 d3 : byte) :
  default_window p ->
  _src p = StringIO (lines_text [ihex_line 3 0 [d0; d1; d2; d3]; eof_line]) ->
  (q <- IHexParser.parse (IHexParser.Make p 0) ;; Ok (IHexParser.base q))
  = Ok (_store_segment
          (set_exec_addr p
             (Some (Z.shiftl (Py.byte_val d0 * 256 + Py.byte_val d1) 4
                    + (Py.byte_val d2 * 256 + Py.byte_val d3))))).
Proof.
  intros Hw Hsrc.
  unfold IHexParser.parse, IHexParser._get_next_chunk, RecordParser.parse,
    src_lines, stream_rest.
  cbn [IHexParser.base IHexParser._offset_addr].
  rewrite Hsrc. cbn [StringIO stream_pos stream_text skipn].
  rewrite readlines_text
    by (repeat constructor; apply ihex_line_no_LF).
  cbn [map line_loop].
  change (add_LF (ihex_line 3 0 [d0; d1; d2; d3]))
    with (ihex_line 3 0 [d0; d1; d2; d3] ++ Py.LF)%string.
  change (add_LF eof_line) with (ihex_line 1 0 [] ++ Py.LF)%string.
  pose proof Hw as (Hv & _).
  pose proof (byte_val_range d0). pose proof (byte_val_range d1).
  pose proof (byte_val_range d2). pose proof (byte_val_range d3).
  rewrite line_step_exec;
    [|exact Hv
     |apply window_verify; [exact Hw|];
      rewrite Z.shiftl_mul_pow2 by lia; change (2 ^ 4) with 16; lia].
  cbn [reraise_with_line].
  rewrite (line_step_eof p 0 Hv (window_verify p 0 Hw ltac:(lia))).
  cbn [reraise_with_line parse_loop parse_record bind]. reflexivity.
Qed.

End StartRecord.

Section StartRecordTheorem.

Local Open Scope list_scope.

Lemma bind_ok_map (A B C : Type) (x : result A) (f : A -> B) (v : B)
  (h : B -> C) :
  (q <- x ;; Ok (f q)) = Ok v -> (q <- x ;; Ok (h (f q))) = Ok (h v).
Proof.
  destruct x; cbn [bind]; intros H; [|discriminate].
  injection H as <-. reflexivity.
Qed.

Lemma build_start_only (a : Z) (line : string) :
  IHexBuilder._create_exec a = Ok line ->
  IHexBuilder.build (RecordBuilder.new Py.LF false) [] None (Some a) 0
  = Ok (RecordBuilder.Make Py.LF (lines_text [line; eof_line])).
Proof.
  intros Hline. unfold IHexBuilder.build, RecordBuilder.build.
  cbn [bind RecordBuilder.write_segments _create_exec IHexBuilder.cls].
  rewrite Hline. cbn [bind].
  change (_create_eof IHexBuilder.cls) with (@Ok string eof_line).
  cbn [bind]. change (String.eqb eof_line EmptyString) with false.
  cbn [negb]. unfold RecordBuilder.write, RecordBuilder.new.
  cbn [RecordBuilder._linesep RecordBuilder._buffer lines_text].
  change (EmptyString ++ line)%string with line.
  rewrite str_app_nil_r, !str_app_assoc. reflexivity.
Qed.

End StartRecordTheorem.

(** X15.  A start address below 1 MiB written by the Intel HEX builder
    is read back, by the line parser and by the fast parser alike, as
    [16 * (a / 16) + a mod 65536]; this is the address written exactly
    when [a mod 65536 < 16]. *)
Theorem start_record_is_read_back_shifted :
  forall (is_term : bool) (a : Z),
    0 <= a < 1048576 ->
    exists b,
      IHexBuilder.build (RecordBuilder.new Py.LF false) [] None (Some a) 0
      = Ok b
      /\ parsed_exec is_term (StringIO (RecordBuilder.getvalue b))
         = Ok (Some (16 * (a / 16) + a mod 65536))
      /\ fast_exec is_term (StringIO (RecordBuilder.getvalue b))
         = Ok (Some (16 * (a / 16) + a mod 65536))
      /\ (16 * (a / 16) + a mod 65536 = a <-> a mod 65536 < 16).
Proof.
  intros is_term a Ha.
  destruct (create_exec_segment_form a Ha)
    as (d0 & d1 & d2 & d3 & Hline & Hcs & Hip).
  eexists. split; [apply build_start_only; exact Hline|].
  cbn [RecordBuilder.getvalue RecordBuilder._buffer].
  set (text := lines_text [ihex_line 3 0 [d0; d1; d2; d3]; eof_line]).
  set (p := RecordParser.Make (StringIO text) 0 0 4294967295
                              (is_term && false) None [] None 16 None 0 true).
  pose proof (parse_start_record p d0 d1 d2 d3
                (default_parser_window _ _) eq_refl) as Hline_parse.
  assert (Hval : Z.shiftl (Py.byte_val d0 * 256 + Py.byte_val d1) 4
                 + (Py.byte_val d2 * 256 + Py.byte_val d3)
                 = 16 * (a / 16) + a mod 65536).
  { rewrite Hcs, Hip, Z.shiftl_mul_pow2 by lia. change (2 ^ 4) with 16. lia. }
  rewrite Hval in Hline_parse.
  split; [|split].
  - unfold parsed_exec, IHexParser.new_default, IHexParser.new,
      RecordParser.new. cbn [Z.ltb Z.compare bind]. fold p.
    apply (bind_ok_map _ _ _ _ _ _ getexec) in Hline_parse.
    exact Hline_parse.
  - unfold fast_exec, IHexFastParser.new_default, IHexFastParser.new,
      RecordParser.new. cbn [Z.ltb Z.compare bind]. fold p.
    rewrite <- (parsers_agree [ihex_line 3 0 [d0; d1; d2; d3]; eof_line] p)
      in Hline_parse.
    + apply (bind_ok_map _ _ _ _ _ _ getexec) in Hline_parse.
      exact Hline_parse.
    + apply Forall_cons; [apply built_exec|].
      apply Forall_cons; [apply built_eof | apply Forall_nil].
    + apply default_parser_window.
    + reflexivity.
  - Z.div_mod_to_equations. lia.
Qed.

Lemma start_record_is_read_back_shifted_witness :
  exists b,
    IHexBuilder.build (RecordBuilder.new Py.LF false) [] None (Some 32768) 0
    = Ok b
    /\ parsed_exec true (StringIO (RecordBuilder.getvalue b))
       = Ok (Some 65536).
Proof.
  destruct (start_record_is_read_back_shifted true 32768 ltac:(lia))
    as (b & Hb & Hp & _).
  exists b. split; [exact Hb | exact Hp].
Defined.

(** ** An end-of-file record with an address *)

Section EofAddress.

Local Open Scope list_scope.

(** An end-of-file record with any address field, read by the line
    parser. *)
Lemma line_step_eof_at (p : RecordParser.t) (offset_addr a : Z) :
  _verify p = true -> 0 <= a < 65536 -> _verify_address p a = Ok tt ->
  IHexParser.line_step p offset_addr (ihex_line 1 a [] ++ Py.LF)
  = Ok (Emit offset_addr (EOF, a, [])).
Proof.
  intros Hv Ha Hva.
  unfold IHexParser.line_step. cbv zeta. rewrite strip_line.
  destruct (ihex_line_fields 1 a [])
    as (F1 & F2 & F3 & F4 & F5 & F6 & Flen).
  rewrite Flen, first_char_line, F1, F2, F3, F4, F5, F6.
  change (Py.len (@nil byte)) with 0.
  rewrite (int_byte_chars 0) by lia.
  rewrite (int4 a Ha).
  change (Py.int (string_of_list_ascii (byte_chars (Py.byte_of 1))) 10)
    with (@Ok Z 1).
  change (11 + 2 * 0 <? 5) with false.
  cbn [bind Z.eqb Pos.eqb negb].
  rewrite (hex_of_unhexlify _ _ (hex_of_hex_chars [])). cbn [bind].
  change (0 =? Py.len (@nil byte)) with true. cbn [negb]. rewrite Hv.
  rewrite (hex_of_unhexlify _ _ (hex_of_hex_chars (record_bytes 1 a []))).
  cbn [bind]. fold (record_sum 1 a []).
  rewrite (int_byte_chars (record_sum 1 a []))
    by apply land_255_range.
  cbn [bind]. rewrite Z.eqb_refl. cbn [negb bind andb].
  rewrite Hva. reflexivity.
Qed.

Lemma fast_parse_text (p : RecordParser.t) (oa : Z) (ls : list string) :
  _src p = StringIO (lines_text ls) ->
  Forall no_LF ls -> Forall record_line ls ->
  IHexFastParser.parse (IHexFastParser.Make p oa)
  = (q <- IHexFastParser.match_loop (IHexFastParser.Make p oa) ls ;;
     Ok (IHexFastParser.Make (_store_segment (IHexFastParser.base q))
                             (IHexFastParser._offset_addr q))).
Proof.
  intros Hsrc Hn Hr. unfold IHexFastParser.parse, stream_rest. cbv zeta.
  cbn [IHexFastParser.base]. rewrite Hsrc.
  cbn [StringIO stream_pos stream_text skipn].
  rewrite (finditer_text _ Hn Hr). reflexivity.
Qed.

Lemma line_parse_text (p : RecordParser.t) (oa : Z) (ls : list string) :
  _src p = StringIO (lines_text ls) -> Forall no_LF ls ->
  IHexParser.parse (IHexParser.Make p oa)
  = (b <- RecordParser.parse
            p (line_loop (IHexParser.line_step p) oa (map add_LF ls)) ;;
     Ok (IHexParser.Make b oa)).
Proof.
  intros Hsrc Hn.
  unfold IHexParser.parse, IHexParser._get_next_chunk, src_lines,
    stream_rest.
  cbn [IHexParser.base IHexParser._offset_addr]. rewrite Hsrc.
  cbn [StringIO stream_pos stream_text skipn].
  rewrite (readlines_text _ Hn). reflexivity.
Qed.

End EofAddress.

(** X16.  An end-of-file record whose address field is not zero: the
    line parser takes it as the end of the file, while the fast parser
    raises [NameError]. *)
Theorem eof_record_with_address_stops_the_fast_parser :
  forall (is_term : bool) (a : Z),
    0 < a < 65536 ->
    let text := lines_text [ihex_line 1 a []] in
    raises (p <- IHexFastParser.new_default is_term (StringIO text) ;;
            IHexFastParser.parse p) NameError
    /\ parsed_segments is_term (StringIO text) = Ok []
    /\ parsed_exec is_term (StringIO text) = Ok None.
Proof.
  intros is_term a Ha text.
  assert (Hn : Forall no_LF [ihex_line 1 a []])
    by (repeat constructor; apply ihex_line_no_LF).
  assert (Hr : Forall record_line [ihex_line 1 a []])
    by (repeat constructor; do 3 eexists; reflexivity).
  set (p := RecordParser.Make (StringIO text) 0 0 4294967295
                              (is_term && false) None [] None 16 None 0 true).
  assert (Hw : default_window p) by apply default_parser_window.
  split; [|split].
  - unfold IHexFastParser.new_default, IHexFastParser.new, RecordParser.new.
    change (16 <? 1) with false. cbn [bind]. fold p.
    rewrite (fast_parse_text p 0 _ eq_refl Hn Hr).
    cbn [IHexFastParser.match_loop].
    rewrite match_step_line by (try lia; unfold Py.len; cbn; lia).
    cbn [IHexFastParser.base IHexFastParser._offset_addr].
    replace (_verify p) with true by reflexivity.
    cbn [Z.eqb Pos.eqb negb andb].
    rewrite (window_verify p a Hw) by lia.
    cbn [bind].
    replace (a =? 0) with false by (symmetry; apply Z.eqb_neq; lia).
    cbn [negb bind]. eexists. reflexivity.
  - unfold parsed_segments, IHexParser.new_default, IHexParser.new,
      RecordParser.new. change (16 <? 1) with false. cbn [bind]. fold p.
    rewrite (line_parse_text p 0 _ eq_refl Hn). cbn [map line_loop].
    change (add_LF (ihex_line 1 a [])) with (ihex_line 1 a [] ++ Py.LF)%string.
    rewrite (line_step_eof_at p 0 a eq_refl ltac:(lia)
               (window_verify p a Hw ltac:(lia))).
    reflexivity.
  - unfold parsed_exec, IHexParser.new_default, IHexParser.new,
      RecordParser.new. change (16 <? 1) with false. cbn [bind]. fold p.
    rewrite (line_parse_text p 0 _ eq_refl Hn). cbn [map line_loop].
    change (add_LF (ihex_line 1 a [])) with (ihex_line 1 a [] ++ Py.LF)%string.
    rewrite (line_step_eof_at p 0 a eq_refl ltac:(lia)
               (window_verify p a Hw ltac:(lia))).
    reflexivity.
Qed.

Lemma eof_record_with_address_stops_the_fast_parser_witness :
  raises (p <- IHexFastParser.new_default true
                 (StringIO (lines_text [ihex_line 1 1 []])) ;;
          IHexFastParser.parse p) NameError.
Proof.
  apply (eof_record_with_address_stops_the_fast_parser true 1). lia.
Defined.

(** ** The info segment of the Intel HEX builder *)

Section BlankLine.

Local Open Scope list_scope.

Lemma chained_in_range (gap : Z) (S : list (Z * list byte)) :
  forall o, chained gap o S -> Forall in_range S.
Proof.
  induction S as [|s S IH]; intros o H; constructor.
  - apply H.
  - apply (IH (Some (segment_at s))). apply H.
Qed.

(** The parse of the lines built for a well-formed segment list, from
    any stream. *)
Lemma parse_built_lines (src : stream) (gap : Z) (S : list (Z * list byte)) :
  1 <= gap -> well_formed gap S ->
  exists p',
    RecordParser.parse
      (run_state src gap [] None)
      (line_loop (IHexParser.line_step (run_state src gap [] None)) 0
                 (map add_LF (flat_map all_lines S ++ [eof_line])))
    = Ok p'
    /\ get_data_segments p' = map segment_at S.
Proof.
  intros Hgap Hchain. unfold well_formed in Hchain.
  rewrite map_app. cbn [map].
  destruct (parse_segments src gap Hgap S [add_LF eof_line] [] None 0 Hchain)
    as (oa' & segs' & open' & Hrun & Hsegs & Hopen); [discriminate|].
  unfold RecordParser.parse. rewrite Hrun.
  rewrite (line_loop_emit src gap oa' oa' _ (EOF, 0, []));
    [|apply line_step_eof; reflexivity].
  cbn [line_loop parse_loop parse_record bind].
  eexists. split; [reflexivity|].
  unfold get_data_segments.
  cbn [app opt_list] in Hsegs. rewrite <- Hsegs.
  unfold _store_segment. destruct open' as [o|]; cbn [_seg run_state].
  - specialize (Hopen o eq_refl). apply Z.eqb_neq in Hopen. rewrite Hopen.
    reflexivity.
  - cbn. rewrite app_nil_r. reflexivity.
Qed.

Lemma no_LF_empty : no_LF EmptyString.
Proof. reflexivity. Qed.

Lemma blank_line_skipped (p : RecordParser.t) (oa : Z) :
  IHexParser.line_step p oa (add_LF EmptyString) = Ok (Continue oa).
Proof. reflexivity. Qed.

Lemma lines_nonempty (S : list (Z * list byte)) :
  exists l rest, flat_map all_lines S ++ [eof_line] = l :: rest.
Proof.
  destruct (flat_map all_lines S) as [|l rest]; cbn [app]; eauto.
Qed.

(** The builder with an info segment: an empty line, then the text
    built without it. *)
Lemma build_with_info (S : list (Z * list byte)) (info : RecordSegment.t) :
  Forall in_range S ->
  IHexBuilder.build (RecordBuilder.new Py.LF false) (map segment_at S)
                    (Some info) None 0
  = Ok (RecordBuilder.Make
          Py.LF
          (lines_text (EmptyString :: flat_map all_lines S ++ [eof_line]))).
Proof.
  intros HS. unfold IHexBuilder.build, RecordBuilder.build, RecordBuilder.new.
  cbn [bind _create_info IHexBuilder.cls IHexBuilder._create_info].
  unfold RecordBuilder.write at 1 2.
  cbn [RecordBuilder._linesep RecordBuilder._buffer].
  rewrite (write_segments_lines S HS). cbn [bind].
  change (_create_eof IHexBuilder.cls) with (@Ok string eof_line).
  cbn [bind]. change (String.eqb eof_line EmptyString) with false.
  cbn [negb]. unfold RecordBuilder.write.
  cbn [RecordBuilder._buffer RecordBuilder._linesep].
  cbn [lines_text]. rewrite lines_text_app. cbn [lines_text].
  change (EmptyString ++ EmptyString)%string with EmptyString.
  change (EmptyString ++ Py.LF)%string with Py.LF.
  rewrite str_app_nil_r, !str_app_assoc. reflexivity.
Qed.

End BlankLine.

(** X17.  A build by the Intel HEX builder with an info segment writes
    an empty first line before the text it writes without one.  That
    text is refused by both syntax checks, while the line parser still
    reads the segments back from it. *)
Theorem info_segment_gives_a_blank_first_line :
  forall (gap : Z) (S : list (Z * list byte)) (info : RecordSegment.t),
    1 <= gap -> well_formed gap S ->
    exists text,
      build_text IHexBuilder.cls (map segment_at S) = Ok text
      /\ (b <- IHexBuilder.build (RecordBuilder.new Py.LF false)
                                 (map segment_at S) (Some info) None 0 ;;
          Ok (RecordBuilder.getvalue b))
         = Ok (Py.LF ++ text)%string
      /\ IHexParser.is_valid_syntax (StringIO (Py.LF ++ text)) = false
      /\ IHexFastParser.is_valid_syntax (StringIO (Py.LF ++ text)) = false
      /\ ihex_segments gap (Py.LF ++ text) = Ok (map segment_at S).
Proof.
  intros gap S info Hgap HS.
  pose proof (chained_in_range gap S None HS) as Hfits.
  pose proof (all_lines_no_LF S) as Hn.
  pose proof (all_lines_records S) as Hr.
  set (ls := (flat_map all_lines S ++ [eof_line])%list) in *.
  assert (Hn' : Forall no_LF (EmptyString :: ls))
    by (constructor; [apply no_LF_empty | exact Hn]).
  assert (Htext : (Py.LF ++ lines_text ls)%string
                  = lines_text (EmptyString :: ls)) by reflexivity.
  exists (lines_text ls).
  split; [apply build_text_lines; exact Hfits|].
  split; [rewrite (build_with_info S info Hfits); reflexivity|].
  rewrite Htext.
  split; [|split].
  - unfold IHexParser.is_valid_syntax, stream_rest.
    cbn [StringIO stream_pos stream_text skipn].
    rewrite (readlines_text _ Hn'). cbn [map IHexParser.valid_lines].
    change (Py.strip (add_LF EmptyString)) with EmptyString.
    cbn [String.eqb].
    destruct (lines_nonempty S) as (l & rest & Hl). fold ls in Hl.
    rewrite Hl in Hr |- *. inversion Hr as [|? ? Hrl _]; subst.
    cbn [map IHexParser.valid_lines]. cbv zeta.
    pose proof (record_line_not_empty _ Hrl) as He.
    destruct Hrl as (t & a & d & ->).
    change (add_LF (ihex_line t a d)) with (ihex_line t a d ++ Py.LF)%string.
    rewrite !strip_line, He, orb_true_r. reflexivity.
  - unfold IHexFastParser.is_valid_syntax, stream_rest. cbv zeta.
    cbn [StringIO stream_pos stream_text skipn].
    unfold IHexFastParser.findall, IHexFastParser.finditer.
    rewrite (split_lf_text _ Hn'), (count_lf_text _ Hn').
    cbn [map app filter].
    change (IHexFastParser.HEXCRE_matches (list_ascii_of_string EmptyString))
      with false. cbv iota.
    rewrite filter_app. cbn [filter].
    change (IHexFastParser.HEXCRE_matches []) with false. cbv iota.
    rewrite app_nil_r, filter_all.
    + unfold Py.len. rewrite !length_map. cbn [List.length].
      apply Z.eqb_neq. lia.
    + clear - Hr. induction Hr as [|l ls' (t & a & d & ->) _ IH];
        constructor; [|exact IH].
      unfold ihex_line. rewrite list_ascii_of_string_of_list_ascii.
      apply HEXCRE_matches_line.
  - unfold ihex_segments, IHexParser.new, RecordParser.new.
    replace (gap <? 1) with false by (symmetry; apply Z.ltb_ge; lia).
    cbn [bind andb].
    set (src := StringIO (lines_text (EmptyString :: ls))).
    fold (run_state src gap [] None).
    rewrite (line_parse_text (run_state src gap [] None) 0 _ eq_refl Hn').
    cbn [map line_loop]. rewrite blank_line_skipped.
    cbn [reraise_with_line].
    destruct (parse_built_lines src gap S Hgap HS) as (p' & Hp & Hsegs).
    fold ls in Hp. rewrite Hp. cbn [bind].
    unfold IHexParser.get_data_segments. cbn [IHexParser.base].
    rewrite Hsegs. reflexivity.
Qed.

Lemma info_segment_gives_a_blank_first_line_witness :
  exists text,
    build_text IHexBuilder.cls [segment_of 0 (bytes_of_hex "2146")] = Ok text
    /\ IHexParser.is_valid_syntax (StringIO (Py.LF ++ text)) = false
    /\ ihex_segments 16 (Py.LF ++ text)
       = Ok [segment_of 0 (bytes_of_hex "2146")].
Proof.
  destruct (info_segment_gives_a_blank_first_line
              16 [(0, bytes_of_hex "2146")] (RecordSegment.new 0))
    as (text & Hb & _ & Hv & _ & Hp).
  - lia.
  - repeat split; try (vm_compute; discriminate).
  - exists text. split; [exact Hb|]. split; [exact Hv | exact Hp].
Defined.

(** ** The S-Record to TI-txt converter *)

Lemma srec2ti_parser (is_term : bool) (input : stream) :
  exists p,
    srec2ti.parser is_term input = Ok p
    /\ _verify p = true /\ _segments p = [] /\ _seg p = None
    /\ _exec_addr p = None /\ _offset p = 0
    /\ _min_addr p = 49152 /\ _max_addr p = 65535.
Proof.
  eexists. split; [reflexivity|]. repeat split.
Qed.

Lemma titxt_build_plain (b : RecordBuilder.t)
  (datasegs : list RecordSegment.t) (offset : Z) :
  exists body,
    TItxtBuilder.build b datasegs None None offset
    = Ok (RecordBuilder.Make
            (RecordBuilder._linesep b)
            (RecordBuilder._buffer b ++ body ++ "q"
             ++ RecordBuilder._linesep b)).
Proof.
  unfold TItxtBuilder.build, RecordBuilder.build. cbn [bind].
  destruct (titxt_write_segments_total offset datasegs b) as [b1 E].
  rewrite E. cbn [bind _create_eof TItxtBuilder.cls TItxtBuilder._create_eof].
  cbn [String.eqb Ascii.eqb Bool.eqb negb].
  destruct (write_segments_appended _ _ _ _ _ E) as [s [L B]].
  exists s. unfold RecordBuilder.write.
  cbn [RecordBuilder._linesep RecordBuilder._buffer]. rewrite L, B.
  rewrite !str_app_assoc. reflexivity.
Qed.

